(** * Fansnap: the in-memory models and the Express handlers, embedded and verified

  The development embeds the two source files of the prototype:

  - the data-model module (the code block of [README.md], imported by the
    server as [./models.js]): eight global arrays and the functions that
    push to, scan and mutate them;
  - [server.js]: the route handlers, which validate a request, call the
    model functions and answer with a status code and a JSON payload.

  The global arrays become one record, [Store], threaded through every call.
  A JavaScript number is an IEEE-754 binary64 value, hence [float]; a JSON
  value of unknown type is a [value]; [uuidv4()], [new Date()], [bcrypt.hash]
  and the engine's [String.prototype.toLowerCase] are read from an environment
  record handed to each request. *)

From Stdlib Require Import String Ascii List Bool Arith ZArith Zpower Lia Permutation.
From Stdlib Require Import Floats.
From Stdlib Require Uint63.
Import ListNotations.

Set Warnings "-inexact-float,-register-all".
Local Open Scope string_scope.
Local Open Scope list_scope.

(* ================================================================== *)
(** * JavaScript values *)
(* ================================================================== *)

Module JS.

(** What [JSON.parse] can produce, plus [undefined] for an absent field. *)
Inductive value : Type :=
| VUndefined
| VNull
| VBool (b : bool)
| VNumber (x : float)
| VString (s : string)
| VArray (elems : list value)
| VObject (fields : list (string * value)).

(** [typeof v] *)
Definition typeof (v : value) : string :=
  match v with
  | VUndefined => "undefined"
  | VNull => "object"
  | VBool _ => "boolean"
  | VNumber _ => "number"
  | VString _ => "string"
  | VArray _ => "object"
  | VObject _ => "object"
  end.

(** [Array.isArray(v)] *)
Definition isArray (v : value) : bool :=
  match v with VArray _ => true | _ => false end.

(** Truthiness of a string: only the empty string is falsy. *)
Definition truthy_string (s : string) : bool :=
  match s with EmptyString => false | String _ _ => true end.

(** Truthiness of a number: [0], [-0] and [NaN] are falsy. *)
Definition truthy_number (x : float) : bool :=
  negb (PrimFloat.is_zero x || PrimFloat.is_nan x).

(** ToBoolean *)
Definition truthy (v : value) : bool :=
  match v with
  | VUndefined | VNull => false
  | VBool b => b
  | VNumber x => truthy_number x
  | VString s => truthy_string s
  | VArray _ | VObject _ => true
  end.

(** A field that is either absent ([undefined]) or a string. *)
Definition truthy_field (o : option string) : bool :=
  match o with Some s => truthy_string s | None => false end.

(** [x || d] on such a field *)
Definition or_else (o : option string) (d : string) : string :=
  match o with
  | Some s => if truthy_string s then s else d
  | None => d
  end.

(** Property access [obj.key] on a parsed JSON object. *)
Fixpoint get (fields : list (string * value)) (key : string) : value :=
  match fields with
  | [] => VUndefined
  | (k, v) :: rest => if String.eqb k key then v else get rest key
  end.

(** What a call that may throw ends with: the value it returns, or the
    [TypeError] it throws. *)
Inductive outcome (A : Type) : Type :=
| Returns (a : A)
| Throws.
Arguments Returns {A} a.
Arguments Throws {A}.

(** A string is a sequence of bytes, the UTF-8 form of the text.  A text is
    ASCII when every byte is below 128. *)
Fixpoint is_ascii (s : string) : bool :=
  match s with
  | EmptyString => true
  | String c rest => Nat.ltb (nat_of_ascii c) 128 && is_ascii rest
  end.

(** What [String.prototype.toLowerCase] does to ASCII text: the letters A-Z
    move to a-z, every other character is kept.  What it does to other text
    is the engine's (the Unicode case mappings) and is read from the
    environment. *)
Definition is_upper (c : ascii) : bool :=
  Nat.leb 65 (nat_of_ascii c) && Nat.leb (nat_of_ascii c) 90.

Definition lower_char (c : ascii) : ascii :=
  if is_upper c then ascii_of_nat (nat_of_ascii c + 32) else c.

Fixpoint lower_ascii (s : string) : string :=
  match s with
  | EmptyString => EmptyString
  | String c rest => String (lower_char c) (lower_ascii rest)
  end.

(** [s.includes(q)]: [q] occurs in [s] at some position. *)
Fixpoint includes (s q : string) : bool :=
  if String.prefix q s then true
  else match s with
       | EmptyString => false
       | String _ rest => includes rest q
       end.

(** [set.add(x)] on a [Set] kept in insertion order. *)
Definition set_add (x : string) (s : list string) : list string :=
  if existsb (String.eqb x) s then s else s ++ [x].

End JS.

(* ================================================================== *)
(** * The records of the data model *)
(* ================================================================== *)

Module Profile.
Record t := mk
  { bio : string;
    profilePicture : string;
    banner : string;
    socialLinks : JS.value;
    subscriptionPlans : list JS.value }.

(** The profile a new user starts with. *)
Definition empty : t :=
  mk "" "" "" (JS.VObject []) [].
End Profile.

Module User.
Record t := mk
  { id : string;
    username : string;
    email : string;
    passwordHash : string;
    role : string;
    createdAt : Z;
    profile : Profile.t }.

Definition with_profile (u : t) (p : Profile.t) : t :=
  mk (id u) (username u) (email u) (passwordHash u) (role u) (createdAt u) p.
End User.

Module Post.
Record t := mk
  { id : string;
    creatorId : string;
    content : JS.value;
    type : string;
    price : JS.value;
    subscriberOnly : bool;
    tags : JS.value;
    createdAt : Z;
    likes : Z;
    views : Z }.
End Post.

Module Subscription.
Record t := mk
  { id : string;
    subscriberId : string;
    creatorId : string;
    plan : string;
    status : string;
    createdAt : Z }.
End Subscription.

Module StoreItem.
Record t := mk
  { id : string;
    creatorId : string;
    name : string;
    description : string;
    price : float;
    createdAt : Z }.
End StoreItem.

Module Order.
Record t := mk
  { id : string;
    itemId : string;
    buyerId : string;
    status : string;
    createdAt : Z }.
End Order.

Module Referral.
Record t := mk
  { id : string;
    creatorId : string;
    affiliateId : string;
    code : string;
    commission : float;
    signups : float;
    earnings : float;
    createdAt : Z }.

Definition with_signups (r : t) (n : float) : t :=
  mk (id r) (creatorId r) (affiliateId r) (code r) (commission r) n
     (earnings r) (createdAt r).

Definition with_earnings (r : t) (e : float) : t :=
  mk (id r) (creatorId r) (affiliateId r) (code r) (commission r)
     (signups r) e (createdAt r).
End Referral.

Module Message.
Record t := mk
  { id : string;
    senderId : string;
    recipientId : string;
    content : string;
    createdAt : Z }.
End Message.

Module Tip.
Record t := mk
  { id : string;
    senderId : string;
    recipientId : string;
    amount : float;
    createdAt : Z }.
End Tip.

(** The eight collections of the module, in declaration order. *)
Record Store := mkStore
{ users : list User.t;
  posts : list Post.t;
  subscriptions : list Subscription.t;
  storeItems : list StoreItem.t;
  orders : list Order.t;
  referrals : list Referral.t;
  messages : list Message.t;
  tips : list Tip.t }.

Definition empty_store : Store := mkStore [] [] [] [] [] [] [] [].

(** What one call reads from outside the store: the identifier [uuidv4()]
  returns, the time [new Date()] reads, the digest [bcrypt.hash] resolves to
  when it is given a string, and the engine's [String.prototype.toLowerCase]. *)
Record Env := mkEnv
{ uuid : string;
  now : Z;
  bcryptHash : string;
  toLowerCase : string -> string }.

(* ================================================================== *)
(** * The model functions (the module imported as [./models.js]) *)
(* ================================================================== *)

Module Models.

(** ** Users *)

(** [createUser], from the moment [await bcrypt.hash(password, 10)] settles:
    [st] is the store at that moment.  [bcrypt.hash] rejects data that is not
    a string, and then so does [createUser] ([None]), with nothing pushed;
    otherwise the new user is pushed and its public fields are returned. *)
Definition createUser (env : Env) (username email : string) (password : JS.value)
  (role : option string) (st : Store) : option (string * string * string) * Store :=
  let role := match role with Some r => r | None => "subscriber" end in
  match password with
  | JS.VString _ =>
      let user := User.mk (uuid env) username email (bcryptHash env) role (now env)
                          Profile.empty in
      (Some (User.id user, User.username user, User.role user),
       mkStore (users st ++ [user]) (posts st) (subscriptions st) (storeItems st)
               (orders st) (referrals st) (messages st) (tips st))
  | _ => (None, st)
  end.

(** [users.find(u => u.id === id) || null] *)
Definition getUserById (st : Store) (id : string) : option User.t :=
  find (fun u => String.eqb (User.id u) id) (users st).

Definition getUserByUsername (st : Store) (username : string) : option User.t :=
  find (fun u => String.eqb (User.username u) username) (users st).

(** ** Posts *)

(** [createPost]: [content] and [tags] are stored as they were sent. *)
Definition createPost (env : Env) (creatorId : string) (content : JS.value)
  (type : option string) (price : option JS.value) (subscriberOnly : option bool)
  (tags : option JS.value) (st : Store) : Post.t * Store :=
  let post :=
    Post.mk (uuid env) creatorId content
            (match type with Some t => t | None => "text" end)
            (match price with Some p => p | None => JS.VNumber 0 end)
            (match subscriberOnly with Some b => b | None => false end)
            (match tags with Some l => l | None => JS.VArray [] end)
            (now env) 0 0 in
  (post,
   mkStore (users st) (posts st ++ [post]) (subscriptions st) (storeItems st)
           (orders st) (referrals st) (messages st) (tips st)).

(** The callback of [subscriptions.some] in [listPosts]. *)
Definition activeMatch (creatorId subscriberId : string) (s : Subscription.t) : bool :=
  String.eqb (Subscription.creatorId s) creatorId
  && String.eqb (Subscription.subscriberId s) subscriberId
  && String.eqb (Subscription.status s) "active".

(** The callback of [posts.filter] in [listPosts]; [subscriberId] is [null]
    ([None]) or a string. *)
Definition visible (st : Store) (creatorId : string) (subscriberId : option string)
  (p : Post.t) : bool :=
  if negb (String.eqb (Post.creatorId p) creatorId) then false
  else if negb (Post.subscriberOnly p) then true
  else if negb (JS.truthy_field subscriberId) then false
  else match subscriberId with
       | Some sid => existsb (activeMatch creatorId sid) (subscriptions st)
       | None => false
       end.

Definition listPosts (st : Store) (creatorId : string) (subscriberId : option string)
  : list Post.t :=
  filter (visible st creatorId subscriberId) (posts st).

(** ** Subscriptions *)

Definition subscribe (env : Env) (subscriberId creatorId : string) (plan : option string)
  (st : Store) : Subscription.t * Store :=
  let sub :=
    Subscription.mk (uuid env) subscriberId creatorId
                    (match plan with Some p => p | None => "monthly" end)
                    "active" (now env) in
  (sub,
   mkStore (users st) (posts st) (subscriptions st ++ [sub]) (storeItems st)
           (orders st) (referrals st) (messages st) (tips st)).

Definition listSubscriptions (st : Store) (subscriberId : string) : list Subscription.t :=
  filter (fun s => String.eqb (Subscription.subscriberId s) subscriberId)
         (subscriptions st).

(** ** Store and orders *)

Definition createStoreItem (env : Env) (creatorId name description : string)
  (price : float) (st : Store) : StoreItem.t * Store :=
  let item := StoreItem.mk (uuid env) creatorId name description price (now env) in
  (item,
   mkStore (users st) (posts st) (subscriptions st) (storeItems st ++ [item])
           (orders st) (referrals st) (messages st) (tips st)).

Definition listStoreItems (st : Store) (creatorId : string) : list StoreItem.t :=
  filter (fun item => String.eqb (StoreItem.creatorId item) creatorId) (storeItems st).

Definition findStoreItemById (st : Store) (id : string) : option StoreItem.t :=
  find (fun item => String.eqb (StoreItem.id item) id) (storeItems st).

Definition createOrder (env : Env) (itemId buyerId : string) (st : Store)
  : Order.t * Store :=
  let order := Order.mk (uuid env) itemId buyerId "pending" (now env) in
  (order,
   mkStore (users st) (posts st) (subscriptions st) (storeItems st)
           (orders st ++ [order]) (referrals st) (messages st) (tips st)).

Definition listOrdersByBuyer (st : Store) (buyerId : string) : list Order.t :=
  filter (fun o => String.eqb (Order.buyerId o) buyerId) (orders st).

(** ** Referrals *)

Definition createReferral (env : Env) (creatorId affiliateId code : string)
  (commission : option float) (st : Store) : Referral.t * Store :=
  let ref :=
    Referral.mk (uuid env) creatorId affiliateId code
                (match commission with Some c => c | None => 0.2%float end)
                0%float 0%float (now env) in
  (ref,
   mkStore (users st) (posts st) (subscriptions st) (storeItems st)
           (orders st) (referrals st ++ [ref]) (messages st) (tips st)).

Definition getReferralByCode (st : Store) (code : string) : option Referral.t :=
  find (fun r => String.eqb (Referral.code r) code) (referrals st).

(** The object [referrals.find] returns is mutated in place: in the array, the
    first element the test accepts is replaced by its update. *)
Fixpoint update_first {A : Type} (test : A -> bool) (upd : A -> A) (l : list A)
  : list A :=
  match l with
  | [] => []
  | x :: rest => if test x then upd x :: rest else x :: update_first test upd rest
  end.

Definition set_referrals (st : Store) (l : list Referral.t) : Store :=
  mkStore (users st) (posts st) (subscriptions st) (storeItems st)
          (orders st) l (messages st) (tips st).

(** [recordReferralSignup]: [ref.signups += 1], a binary64 addition; returns
    the (mutated) record, or [undefined]. *)
Definition recordReferralSignup (code : string) (st : Store)
  : option Referral.t * Store :=
  let test := fun r => String.eqb (Referral.code r) code in
  let upd := fun r => Referral.with_signups r (Referral.signups r + 1)%float in
  match find test (referrals st) with
  | Some ref => (Some (upd ref), set_referrals st (update_first test upd (referrals st)))
  | None => (None, st)
  end.

(** [addReferralEarning]: [ref.earnings += amount * ref.commission]. *)
Definition addReferralEarning (code : string) (amount : float) (st : Store)
  : option Referral.t * Store :=
  let test := fun r => String.eqb (Referral.code r) code in
  let upd := fun r =>
    Referral.with_earnings r
      (Referral.earnings r + amount * Referral.commission r)%float in
  match find test (referrals st) with
  | Some ref => (Some (upd ref), set_referrals st (update_first test upd (referrals st)))
  | None => (None, st)
  end.

(** ** Messaging *)

Definition sendMessage (env : Env) (senderId recipientId content : string) (st : Store)
  : Message.t * Store :=
  let message := Message.mk (uuid env) senderId recipientId content (now env) in
  (message,
   mkStore (users st) (posts st) (subscriptions st) (storeItems st)
           (orders st) (referrals st) (messages st ++ [message]) (tips st)).

(** The body of the [messages.forEach] callback of [listConversations]. *)
Definition addPartners (userId : string) (partners : list string) (msg : Message.t)
  : list string :=
  let partners :=
    if String.eqb (Message.senderId msg) userId
    then JS.set_add (Message.recipientId msg) partners else partners in
  if String.eqb (Message.recipientId msg) userId
  then JS.set_add (Message.senderId msg) partners else partners.

(** The [Set] of partner identifiers once the loop has run. *)
Definition partnersOf (st : Store) (userId : string) : list string :=
  fold_left (addPartners userId) (messages st) [].

(** [Array.from(partners).map(id => getUserById(id))]: [None] is [null]. *)
Definition listConversations (st : Store) (userId : string) : list (option User.t) :=
  map (getUserById st) (partnersOf st userId).

Definition listMessagesBetween (st : Store) (a b : string) : list Message.t :=
  filter (fun m =>
            (String.eqb (Message.senderId m) a && String.eqb (Message.recipientId m) b)
            || (String.eqb (Message.senderId m) b && String.eqb (Message.recipientId m) a))
         (messages st).

(** ** Tips *)

Definition sendTip (env : Env) (senderId recipientId : string) (amount : float)
  (st : Store) : Tip.t * Store :=
  let tip := Tip.mk (uuid env) senderId recipientId amount (now env) in
  (tip,
   mkStore (users st) (posts st) (subscriptions st) (storeItems st)
           (orders st) (referrals st) (messages st) (tips st ++ [tip])).

Definition listTipsReceived (st : Store) (creatorId : string) : list Tip.t :=
  filter (fun t => String.eqb (Tip.recipientId t) creatorId) (tips st).

(** ** Admin helpers *)

Definition getAllUsers (st : Store) : list User.t := users st.

Definition getAllPosts (st : Store) : list Post.t := posts st.

(** [posts.splice(index, 1)] at the first index the test accepts. *)
Fixpoint remove_first {A : Type} (test : A -> bool) (l : list A) : list A :=
  match l with
  | [] => []
  | x :: rest => if test x then rest else x :: remove_first test rest
  end.

Definition deletePostById (postId : string) (st : Store) : bool * Store :=
  let test := fun p => String.eqb (Post.id p) postId in
  match find test (posts st) with
  | Some _ =>
      (true,
       mkStore (users st) (remove_first test (posts st)) (subscriptions st)
               (storeItems st) (orders st) (referrals st) (messages st) (tips st))
  | None => (false, st)
  end.

(** ** Search *)

(** [v.toLowerCase()]: a [TypeError] unless [v] is a string. *)
Definition lowered (env : Env) (v : JS.value) : JS.outcome string :=
  match v with
  | JS.VString s => JS.Returns (toLowerCase env s)
  | _ => JS.Throws
  end.

(** [array.filter(keep)] with a callback that may throw: the elements are
    tested in order and the first throw ends the call. *)
Fixpoint filter_throwing {A : Type} (keep : A -> JS.outcome bool) (l : list A)
  : JS.outcome (list A) :=
  match l with
  | [] => JS.Returns []
  | x :: rest =>
      match keep x with
      | JS.Throws => JS.Throws
      | JS.Returns b =>
          match filter_throwing keep rest with
          | JS.Throws => JS.Throws
          | JS.Returns kept => JS.Returns (if b then x :: kept else kept)
          end
      end
  end.

(** [searchUsers]; the query comes from the parsed query string and is a
    string, an array or an object. *)
Definition searchUsers (env : Env) (st : Store) (query : JS.value)
  : JS.outcome (list User.t) :=
  match lowered env query with
  | JS.Throws => JS.Throws
  | JS.Returns q =>
      JS.Returns
        (filter (fun u =>
                   JS.includes (toLowerCase env (User.username u)) q
                   || (JS.truthy_string (Profile.bio (User.profile u))
                       && JS.includes (toLowerCase env (Profile.bio (User.profile u))) q))
                (users st))
  end.

(** [tags.some(tag => tag.toLowerCase().includes(q))] on the elements of an
    array: it stops at the first tag that matches. *)
Fixpoint someTag (env : Env) (q : string) (tags : list JS.value) : JS.outcome bool :=
  match tags with
  | [] => JS.Returns false
  | tag :: rest =>
      match lowered env tag with
      | JS.Throws => JS.Throws
      | JS.Returns t => if JS.includes t q then JS.Returns true else someTag env q rest
      end
  end.

(** The callback of [posts.filter] in [searchPosts], [q] already in lower
    case: [p.tags.some] is read only when the content does not match, and is a
    function only when [p.tags] is an array. *)
Definition postMatches (env : Env) (q : string) (p : Post.t) : JS.outcome bool :=
  match lowered env (Post.content p) with
  | JS.Throws => JS.Throws
  | JS.Returns content =>
      if JS.includes content q then JS.Returns true
      else match Post.tags p with
           | JS.VArray tags => someTag env q tags
           | _ => JS.Throws
           end
  end.

Definition searchPosts (env : Env) (st : Store) (query : JS.value)
  : JS.outcome (list Post.t) :=
  match lowered env query with
  | JS.Throws => JS.Throws
  | JS.Returns q => filter_throwing (postMatches env q) (posts st)
  end.

End Models.

(* ================================================================== *)
(** * The route handlers of [server.js] *)
(* ================================================================== *)

(** Every handler is a function from the store, the environment of the call
    and the request to the store it leaves and the response it sends.  Body
    fields the handlers only store or compare are typed as the data model types
    them (a string, or absent); the fields whose type a handler inspects with
    [typeof] or [Array.isArray], and the fields a later call invokes a method
    on (the password, the content and tags of a post, a search query), are
    [value]s.  The login route, which reads the users and writes the session,
    is embedded apart (module [Auth]); the logout, chatbot and live-token
    routes touch no collection and are left out. *)
Module Server.
Import JS.

(** The JSON documents the handlers answer with. *)
Inductive payload : Type :=
| PError (error : string)
| PRegistered (user : string * string * string)
| PCurrentUser (id username role : string) (profile : Profile.t)
| PProfile (profile : Profile.t)
| PPost (post : Post.t)
| PPosts (posts : list Post.t)
| PSubscription (subscription : Subscription.t)
| PSubscriptions (subscriptions : list Subscription.t)
| PItem (item : StoreItem.t)
| PItems (items : list StoreItem.t)
| POrder (order : Order.t)
| POrders (orders : list Order.t)
| PReferral (referral : Referral.t)
| PMessage (message : Message.t)
| PMessages (messages : list Message.t)
| PConversations (conversations : list (option User.t))
| PTip (tip : Tip.t)
| PTips (tips : list Tip.t)
| PUsers (results : list User.t)
| PAdminUsers (users : list (string * string * string * string * Z))
| PDone (message : string)
| PUncaught.

Record response := mkResponse
  { status : nat;
    body : payload }.

(** [res.json(p)] *)
Definition json (p : payload) : response := mkResponse 200 p.

(** [res.status(code).json({ error })] *)
Definition fail (code : nat) (error : string) : response :=
  mkResponse code (PError error).

(** What Express answers when a handler throws: status 500 and the page of
    its default error handler. *)
Definition uncaught : response := mkResponse 500 PUncaught.

(** The error conditions of the interface, by the status code that carries
    them. *)
Inductive error : Type :=
| InvalidInput
| Unauthenticated
| Forbidden
| NotFound
| Conflict.

Definition error_of (r : response) : option error :=
  if Nat.eqb (status r) 400 then Some InvalidInput
  else if Nat.eqb (status r) 401 then Some Unauthenticated
  else if Nat.eqb (status r) 403 then Some Forbidden
  else if Nat.eqb (status r) 404 then Some NotFound
  else if Nat.eqb (status r) 409 then Some Conflict
  else None.

(** The middleware that attaches [req.user]: [session] is
    [req.session.userId], absent when there is no session. *)
Definition attach_user (st : Store) (session : option string) : option User.t :=
  match session with
  | Some userId =>
      if truthy_string userId then Models.getUserById st userId else None
  | None => None
  end.

(** ** Authentication and profile *)

(** [POST /api/register] is an [async] handler.  It runs in two turns of the
    event loop: the two tests, then, once [bcrypt.hash] has settled, the push
    and the answer.  Other requests may be served between the two turns. *)

(** The first turn, in the store [st] of that moment: the answer it already
    gives, or [None] when the handler goes on to [await createUser]. *)
Definition register_check (st : Store) (username email : option string)
  (password : option value) : option response :=
  if negb (truthy_field username) || negb (truthy_field email)
     || negb (match password with Some v => truthy v | None => false end)
  then Some (fail 400 "Missing required fields")
  else
    match username with
    | Some username =>
        match Models.getUserByUsername st username with
        | Some _ => Some (fail 409 "Username already exists")
        | None => None
        end
    | None => Some (fail 400 "Missing required fields")
    end.

(** The second turn, in the store [st] of that later moment: the user is
    pushed without a second look at the usernames, or [createUser] has
    rejected and the [catch] answers 500. *)
Definition register_resume (st : Store) (env : Env) (username email : string)
  (password : value) (role : option string) : Store * response :=
  let role := match role with Some r => r | None => "subscriber" end in
  match Models.createUser env username email password (Some role) st with
  | (Some user, st') => (st', json (PRegistered user))
  | (None, st') => (st', fail 500 "Registration failed")
  end.

(** The whole handler when no other request is served between its two
    turns. *)
Definition post_register (st : Store) (env : Env) (username email : option string)
  (password : option value) (role : option string) : Store * response :=
  match register_check st username email password with
  | Some answer => (st, answer)
  | None =>
      match username, email, password with
      | Some username, Some email, Some password =>
          register_resume st env username email password role
      | _, _, _ => (st, fail 400 "Missing required fields")
      end
  end.

(** [GET /api/profile] *)
Definition get_profile (st : Store) (session : option string) : Store * response :=
  match attach_user st session with
  | None => (st, fail 401 "Not authenticated")
  | Some user =>
      (st, json (PCurrentUser (User.id user) (User.username user) (User.role user)
                              (User.profile user)))
  end.

(** The five guarded assignments of [PUT /api/profile], applied to the
    profile object of the user. *)
Definition merge_profile (reqBody : list (string * value)) (profile : Profile.t)
  : Profile.t :=
  let bio := get reqBody "bio" in
  let profilePicture := get reqBody "profilePicture" in
  let banner := get reqBody "banner" in
  let socialLinks := get reqBody "socialLinks" in
  let subscriptionPlans := get reqBody "subscriptionPlans" in
  Profile.mk
    (if String.eqb (typeof bio) "string"
     then match bio with VString s => s | _ => Profile.bio profile end
     else Profile.bio profile)
    (if String.eqb (typeof profilePicture) "string"
     then match profilePicture with
          | VString s => s
          | _ => Profile.profilePicture profile
          end
     else Profile.profilePicture profile)
    (if String.eqb (typeof banner) "string"
     then match banner with VString s => s | _ => Profile.banner profile end
     else Profile.banner profile)
    (if String.eqb (typeof socialLinks) "object"
     then socialLinks
     else Profile.socialLinks profile)
    (if isArray subscriptionPlans
     then match subscriptionPlans with
          | VArray l => l
          | _ => Profile.subscriptionPlans profile
          end
     else Profile.subscriptionPlans profile).

Definition set_users (st : Store) (l : list User.t) : Store :=
  mkStore l (posts st) (subscriptions st) (storeItems st)
          (orders st) (referrals st) (messages st) (tips st).

(** [PUT /api/profile]: [req.user] is the object held in [users], so the
    assignments change that element of the array. *)
Definition put_profile (st : Store) (session : option string)
  (reqBody : list (string * value)) : Store * response :=
  match attach_user st session with
  | None => (st, fail 401 "Not authenticated")
  | Some user =>
      let profile := merge_profile reqBody (User.profile user) in
      (set_users st
         (Models.update_first
            (fun u => String.eqb (User.id u) (User.id user))
            (fun u => User.with_profile u (merge_profile reqBody (User.profile u)))
            (users st)),
       json (PProfile profile))
  end.

(** ** Content creation and subscriptions *)

(** [POST /api/posts] *)
Definition post_posts (st : Store) (env : Env) (session : option string)
  (content : option value) (type : option string) (price : option value)
  (subscriberOnly : option bool) (tags : option value)
  : Store * response :=
  match attach_user st session with
  | None => (st, fail 401 "Not authenticated")
  | Some user =>
      if negb (String.eqb (User.role user) "creator")
      then (st, fail 403 "Only creators can post")
      else
        let type := match type with Some t => t | None => "text" end in
        let price := match price with Some p => p | None => VNumber 0 end in
        let subscriberOnly :=
          match subscriberOnly with Some b => b | None => false end in
        let tags := match tags with Some l => l | None => VArray [] end in
        match content with
        | Some content =>
            if negb (truthy content) then (st, fail 400 "Missing content")
            else
              let '(post, st') :=
                Models.createPost env (User.id user) content (Some type)
                                  (Some price) (Some subscriberOnly) (Some tags) st in
              (st', json (PPost post))
        | None => (st, fail 400 "Missing content")
        end
  end.

(** [GET /api/posts/:creatorUsername] *)
Definition get_posts (st : Store) (session : option string)
  (creatorUsername : string) : Store * response :=
  match Models.getUserByUsername st creatorUsername with
  | None => (st, fail 404 "Creator not found")
  | Some creator =>
      if negb (String.eqb (User.role creator) "creator")
      then (st, fail 404 "Creator not found")
      else
        let subscriberId :=
          match attach_user st session with
          | Some user => Some (User.id user)
          | None => None
          end in
        (st, json (PPosts (Models.listPosts st (User.id creator) subscriberId)))
  end.

(** [POST /api/subscribe/:creatorUsername] *)
Definition post_subscribe (st : Store) (env : Env) (session : option string)
  (creatorUsername : string) (plan : option string) : Store * response :=
  match attach_user st session with
  | None => (st, fail 401 "Not authenticated")
  | Some user =>
      match Models.getUserByUsername st creatorUsername with
      | None => (st, fail 404 "Creator not found")
      | Some creator =>
          if negb (String.eqb (User.role creator) "creator")
          then (st, fail 404 "Creator not found")
          else if String.eqb (User.id creator) (User.id user)
          then (st, fail 400 "Cannot subscribe to yourself")
          else
            let '(subscription, st') :=
              Models.subscribe env (User.id user) (User.id creator)
                               (Some (or_else plan "monthly")) st in
            (st', json (PSubscription subscription))
      end
  end.

(** [GET /api/subscriptions] *)
Definition get_subscriptions (st : Store) (session : option string)
  : Store * response :=
  match attach_user st session with
  | None => (st, fail 401 "Not authenticated")
  | Some user => (st, json (PSubscriptions (Models.listSubscriptions st (User.id user))))
  end.

(** ** Store and orders *)

(** [POST /api/store/:creatorUsername] *)
Definition post_store (st : Store) (env : Env) (session : option string)
  (creatorUsername : string) (name description : option string) (price : value)
  : Store * response :=
  match attach_user st session with
  | None => (st, fail 401 "Not authenticated")
  | Some user =>
      match Models.getUserByUsername st creatorUsername with
      | None => (st, fail 403 "Not authorised to add items")
      | Some creator =>
          if negb (String.eqb (User.id creator) (User.id user))
          then (st, fail 403 "Not authorised to add items")
          else if negb (truthy_field name)
                  || negb (String.eqb (typeof price) "number")
          then (st, fail 400 "Missing fields")
          else
            match name, price with
            | Some name, VNumber price =>
                let '(item, st') :=
                  Models.createStoreItem env (User.id user) name
                                         (or_else description "") price st in
                (st', json (PItem item))
            | _, _ => (st, fail 400 "Missing fields")
            end
      end
  end.

(** [GET /api/store/:creatorUsername] *)
Definition get_store (st : Store) (creatorUsername : string) : Store * response :=
  match Models.getUserByUsername st creatorUsername with
  | None => (st, fail 404 "Creator not found")
  | Some creator => (st, json (PItems (Models.listStoreItems st (User.id creator))))
  end.

(** [POST /api/order/:itemId] *)
Definition post_order (st : Store) (env : Env) (session : option string)
  (itemId : string) : Store * response :=
  match attach_user st session with
  | None => (st, fail 401 "Not authenticated")
  | Some user =>
      match Models.findStoreItemById st itemId with
      | None => (st, fail 404 "Item not found")
      | Some item =>
          if String.eqb (StoreItem.creatorId item) (User.id user)
          then (st, fail 400 "Cannot order your own item")
          else
            let '(order, st') :=
              Models.createOrder env (StoreItem.id item) (User.id user) st in
            (st', json (POrder order))
      end
  end.

(** [GET /api/orders] *)
Definition get_orders (st : Store) (session : option string) : Store * response :=
  match attach_user st session with
  | None => (st, fail 401 "Not authenticated")
  | Some user => (st, json (POrders (Models.listOrdersByBuyer st (User.id user))))
  end.

(** ** Affiliate / referral *)

(** [POST /api/referral] for a [commission] that is absent or a number.  (A
    truthy commission of another type would be stored as sent; the embedding
    keeps the commission a number, as the product in [addReferralEarning]
    takes it.) *)
Definition post_referral (st : Store) (env : Env) (session : option string)
  (creatorId code : option string) (commission : option float)
  : Store * response :=
  match attach_user st session with
  | None => (st, fail 401 "Not authenticated")
  | Some user =>
      let creatorId := match creatorId with Some c => c | None => User.id user end in
      match code with
      | Some code =>
          if negb (truthy_string code) then (st, fail 400 "Missing code")
          else
            let commission :=
              match commission with
              | Some c => if truthy_number c then c else 0.2%float
              | None => 0.2%float
              end in
            let '(ref, st') :=
              Models.createReferral env creatorId (User.id user) code
                                    (Some commission) st in
            (st', json (PReferral ref))
      | None => (st, fail 400 "Missing code")
      end
  end.

(** [POST /api/referral/:code/signup] *)
Definition post_referral_signup (st : Store) (code : string) : Store * response :=
  match Models.recordReferralSignup code st with
  | (None, st') => (st', fail 404 "Referral code not found")
  | (Some ref, st') => (st', json (PReferral ref))
  end.

(** [POST /api/referral/:code/earn] *)
Definition post_referral_earn (st : Store) (code : string) (amount : value)
  : Store * response :=
  if negb (String.eqb (typeof amount) "number")
  then (st, fail 400 "Missing amount")
  else
    match amount with
    | VNumber amount =>
        match Models.addReferralEarning code amount st with
        | (None, st') => (st', fail 404 "Referral code not found")
        | (Some ref, st') => (st', json (PReferral ref))
        end
    | _ => (st, fail 400 "Missing amount")
    end.

(** ** Messaging *)

(** [POST /api/message/send] *)
Definition post_message_send (st : Store) (env : Env) (session : option string)
  (recipientUsername content : option string) : Store * response :=
  match attach_user st session with
  | None => (st, fail 401 "Not authenticated")
  | Some user =>
      if negb (truthy_field recipientUsername) || negb (truthy_field content)
      then (st, fail 400 "Missing fields")
      else
        match recipientUsername, content with
        | Some recipientUsername, Some content =>
            match Models.getUserByUsername st recipientUsername with
            | None => (st, fail 404 "Recipient not found")
            | Some recipient =>
                let '(message, st') :=
                  Models.sendMessage env (User.id user) (User.id recipient) content st in
                (st', json (PMessage message))
            end
        | _, _ => (st, fail 400 "Missing fields")
        end
  end.

(** [GET /api/message/conversations] *)
Definition get_message_conversations (st : Store) (session : option string)
  : Store * response :=
  match attach_user st session with
  | None => (st, fail 401 "Not authenticated")
  | Some user =>
      (st, json (PConversations (Models.listConversations st (User.id user))))
  end.

(** [GET /api/message/thread/:username] *)
Definition get_message_thread (st : Store) (session : option string)
  (username : string) : Store * response :=
  match attach_user st session with
  | None => (st, fail 401 "Not authenticated")
  | Some user =>
      match Models.getUserByUsername st username with
      | None => (st, fail 404 "User not found")
      | Some other =>
          (st, json (PMessages
                       (Models.listMessagesBetween st (User.id user) (User.id other))))
      end
  end.

(** ** Tips and gifts *)

(** [POST /api/tip/:creatorUsername] *)
Definition post_tip (st : Store) (env : Env) (session : option string)
  (creatorUsername : string) (amount : value) : Store * response :=
  match attach_user st session with
  | None => (st, fail 401 "Not authenticated")
  | Some user =>
      if negb (String.eqb (typeof amount) "number")
         || match amount with VNumber a => (a <=? 0)%float | _ => false end
      then (st, fail 400 "Invalid amount")
      else
        match amount with
        | VNumber amount =>
            match Models.getUserByUsername st creatorUsername with
            | None => (st, fail 404 "Creator not found")
            | Some creator =>
                if negb (String.eqb (User.role creator) "creator")
                then (st, fail 404 "Creator not found")
                else if String.eqb (User.id creator) (User.id user)
                then (st, fail 400 "Cannot tip yourself")
                else
                  let '(tip, st') :=
                    Models.sendTip env (User.id user) (User.id creator) amount st in
                  (st', json (PTip tip))
            end
        | _ => (st, fail 400 "Invalid amount")
        end
  end.

(** [GET /api/tips/:creatorUsername] *)
Definition get_tips (st : Store) (creatorUsername : string) : Store * response :=
  match Models.getUserByUsername st creatorUsername with
  | None => (st, fail 404 "Creator not found")
  | Some creator =>
      if negb (String.eqb (User.role creator) "creator")
      then (st, fail 404 "Creator not found")
      else (st, json (PTips (Models.listTipsReceived st (User.id creator))))
  end.

(** ** Search *)

(** [GET /api/search/users] *)
Definition get_search_users (st : Store) (env : Env) (q : option value)
  : Store * response :=
  match q with
  | Some q =>
      if negb (truthy q) then (st, fail 400 "Missing query")
      else match Models.searchUsers env st q with
           | Returns results => (st, json (PUsers results))
           | Throws => (st, uncaught)
           end
  | None => (st, fail 400 "Missing query")
  end.

(** [GET /api/search/posts] *)
Definition get_search_posts (st : Store) (env : Env) (q : option value)
  : Store * response :=
  match q with
  | Some q =>
      if negb (truthy q) then (st, fail 400 "Missing query")
      else match Models.searchPosts env st q with
           | Returns results => (st, json (PPosts results))
           | Throws => (st, uncaught)
           end
  | None => (st, fail 400 "Missing query")
  end.

(** ** Admin *)

(** [requireAdmin] *)
Definition requireAdmin (st : Store) (session : option string) : bool :=
  match attach_user st session with
  | None => false
  | Some user => String.eqb (User.role user) "admin"
  end.

(** [GET /api/admin/users] *)
Definition get_admin_users (st : Store) (session : option string)
  : Store * response :=
  if negb (requireAdmin st session) then (st, fail 403 "Admin only")
  else
    (st, json (PAdminUsers
                 (map (fun u => (User.id u, User.username u, User.role u,
                                 User.email u, User.createdAt u))
                      (Models.getAllUsers st)))).

(** [DELETE /api/admin/posts/:postId] *)
Definition delete_admin_posts (st : Store) (session : option string)
  (postId : string) : Store * response :=
  if negb (requireAdmin st session) then (st, fail 403 "Admin only")
  else
    match Models.deletePostById postId st with
    | (false, st') => (st', fail 404 "Post not found")
    | (true, st') => (st', json (PDone "Post deleted"))
    end.

(** ** The server as a transition system *)

(** One constructor per route that reads or writes the collections. *)
Inductive request : Type :=
| Register (username email : option string) (password : option value)
    (role : option string)
| GetProfile
| PutProfile (reqBody : list (string * value))
| CreatePost (content : option value) (type : option string) (price : option value)
    (subscriberOnly : option bool) (tags : option value)
| GetPosts (creatorUsername : string)
| Subscribe (creatorUsername : string) (plan : option string)
| GetSubscriptions
| CreateStoreItem (creatorUsername : string) (name description : option string)
    (price : value)
| GetStore (creatorUsername : string)
| PlaceOrder (itemId : string)
| GetOrders
| CreateReferral (creatorId code : option string) (commission : option float)
| ReferralSignup (code : string)
| ReferralEarn (code : string) (amount : value)
| SendMessage (recipientUsername content : option string)
| GetConversations
| GetThread (username : string)
| SendTip (creatorUsername : string) (amount : value)
| GetTips (creatorUsername : string)
| SearchUsers (q : option value)
| SearchPosts (q : option value)
| AdminUsers
| AdminDeletePost (postId : string).

Definition handle (st : Store) (env : Env) (session : option string)
  (r : request) : Store * response :=
  match r with
  | Register username email password role =>
      post_register st env username email password role
  | GetProfile => get_profile st session
  | PutProfile reqBody => put_profile st session reqBody
  | CreatePost content type price subscriberOnly tags =>
      post_posts st env session content type price subscriberOnly tags
  | GetPosts creatorUsername => get_posts st session creatorUsername
  | Subscribe creatorUsername plan => post_subscribe st env session creatorUsername plan
  | GetSubscriptions => get_subscriptions st session
  | CreateStoreItem creatorUsername name description price =>
      post_store st env session creatorUsername name description price
  | GetStore creatorUsername => get_store st creatorUsername
  | PlaceOrder itemId => post_order st env session itemId
  | GetOrders => get_orders st session
  | CreateReferral creatorId code commission =>
      post_referral st env session creatorId code commission
  | ReferralSignup code => post_referral_signup st code
  | ReferralEarn code amount => post_referral_earn st code amount
  | SendMessage recipientUsername content =>
      post_message_send st env session recipientUsername content
  | GetConversations => get_message_conversations st session
  | GetThread username => get_message_thread st session username
  | SendTip creatorUsername amount => post_tip st env session creatorUsername amount
  | GetTips creatorUsername => get_tips st creatorUsername
  | SearchUsers q => get_search_users st env q
  | SearchPosts q => get_search_posts st env q
  | AdminUsers => get_admin_users st session
  | AdminDeletePost postId => delete_admin_posts st session postId
  end.

(** The stores the server can be in: the empty collections the module starts
    with, whatever a request leaves behind, and whatever a registration
    leaves behind that resumes after other requests were served.  Such a
    registration carries its three fields, and its username was free when its
    first turn ran: every username is free in the empty store, so that turn may
    have run before any of the requests that led to [st]. *)
Inductive reachable : Store -> Prop :=
| reachable_init : reachable empty_store
| reachable_step (st : Store) (env : Env) (session : option string) (r : request) :
    reachable st -> reachable (fst (handle st env session r))
| reachable_resume (st : Store) (env : Env) (username email : string)
    (password : value) (role : option string) :
    register_check empty_store (Some username) (Some email) (Some password) = None ->
    reachable st ->
    reachable (fst (register_resume st env username email password role)).

(** The store after a list of requests, each with its environment and
    session, and the responses in order. *)
Fixpoint run (st : Store) (rs : list (Env * option string * request))
  : Store * list response :=
  match rs with
  | [] => (st, [])
  | (env, session, r) :: rest =>
      let '(st1, resp) := handle st env session r in
      let '(st2, resps) := run st1 rest in
      (st2, resp :: resps)
  end.

End Server.

(* ================================================================== *)
(** * The properties, as the specification words them *)
(* ================================================================== *)

Module Spec.

(** ** Visibility of posts *)

(** Some Subscription record has subscriberId [r], creatorId [c] and status
    "active". *)
Definition active_subscription (st : Store) (r c : string) : Prop :=
  exists s, In s (subscriptions st)
            /\ Subscription.subscriberId s = r
            /\ Subscription.creatorId s = c
            /\ Subscription.status s = "active".

(** The gating predicate: a public post passes; a subscriber-only post passes
    when the requester is present and has an active subscription to [c]. *)
Definition passes_gate (st : Store) (c : string) (requester : option string)
  (p : Post.t) : Prop :=
  Post.subscriberOnly p = false
  \/ (Post.subscriberOnly p = true
      /\ exists r, requester = Some r /\ active_subscription st r c).

(** A requester is absent or carries an identifier; identifiers come from
    [uuidv4()] and are never the empty string. *)
Definition requester_id_ok (requester : option string) : Prop :=
  requester <> Some "".

(** No Subscription is held by the empty identifier. *)
Definition subscriber_ids_present (st : Store) : Prop :=
  forall s, In s (subscriptions st) -> Subscription.subscriberId s <> "".

(** ** Search *)

(** [c] is a capital letter and [d] the matching small letter. *)
Definition capital_of (c d : ascii) : Prop :=
  (65 <= nat_of_ascii c <= 90)%nat /\ nat_of_ascii d = (nat_of_ascii c + 32)%nat.

(** Two characters are equal up to the case of a letter. *)
Definition same_letter (c d : ascii) : Prop :=
  c = d \/ capital_of c d \/ capital_of d c.

(** Two strings are equal up to case, character by character. *)
Inductive equal_ignoring_case : string -> string -> Prop :=
| eic_empty : equal_ignoring_case "" ""
| eic_step (c d : ascii) (s t : string) :
    same_letter c d -> equal_ignoring_case s t ->
    equal_ignoring_case (String c s) (String d t).

(** [s] contains [q] as a substring, case-insensitively. *)
Definition contains_ignoring_case (s q : string) : Prop :=
  exists before mid after,
    s = (before ++ mid ++ after)%string /\ equal_ignoring_case mid q.

(** The post's content contains [q], or at least one of its tags does. *)
Definition search_hit (q : string) (p : Post.t) : Prop :=
  (exists content,
      Post.content p = JS.VString content /\ contains_ignoring_case content q)
  \/ (exists tags tag,
         Post.tags p = JS.VArray tags /\ In (JS.VString tag) tags
         /\ contains_ignoring_case tag q).

(** The post is made of text: its content is a string and its tags are an
    array of strings. *)
Definition textual (p : Post.t) : Prop :=
  exists content tags,
    Post.content p = JS.VString content /\ Post.tags p = JS.VArray (map JS.VString tags).

(** The post is made of ASCII text. *)
Definition ascii_post (p : Post.t) : Prop :=
  exists content tags,
    Post.content p = JS.VString content /\ Post.tags p = JS.VArray (map JS.VString tags)
    /\ JS.is_ascii content = true
    /\ forall tag, In tag tags -> JS.is_ascii tag = true.

(** The engine folds ASCII text as ECMAScript says. *)
Definition folds_ascii (env : Env) : Prop :=
  forall s, JS.is_ascii s = true -> toLowerCase env s = JS.lower_ascii s.

(** The lower-cased content includes the lower-cased [q], or the lower-cased
    form of at least one tag does. *)
Definition lowered_hit (env : Env) (q : string) (p : Post.t) : Prop :=
  (exists content,
      Post.content p = JS.VString content
      /\ JS.includes (toLowerCase env content) (toLowerCase env q) = true)
  \/ (exists tags tag,
         Post.tags p = JS.VArray tags /\ In (JS.VString tag) tags
         /\ JS.includes (toLowerCase env tag) (toLowerCase env q) = true).

(** ** Referral earnings *)

(** The earnings after the amounts [amounts] were recorded in this order on a
    record with commission [m] and earnings [e0]: each step is one binary64
    multiplication and one binary64 addition. *)
Definition accumulated (m e0 : float) (amounts : list float) : float :=
  fold_left (fun e a => (e + a * m)%float) amounts e0.

(** [y] is smaller than [x]. *)
Definition decreased (x y : float) : Prop := (y <? x)%float = true.

(** ** Outcomes of an operation *)

(** The operation fails with the named error and leaves the store as it was. *)
Definition fails_with (st : Store) (e : Server.error)
  (out : Store * Server.response) : Prop :=
  fst out = st /\ Server.error_of (snd out) = Some e.

(** The operation answers with a success payload. *)
Definition succeeds (out : Store * Server.response) : Prop :=
  Server.status (snd out) = 200.

(** ** The self-action invariants *)

(** No Subscription has subscriberId = creatorId. *)
Definition no_self_subscription (st : Store) : Prop :=
  forall s, In s (subscriptions st) ->
            Subscription.subscriberId s <> Subscription.creatorId s.

(** Every Order refers to a StoreItem whose creator is not the buyer. *)
Definition no_self_purchase (st : Store) : Prop :=
  forall o, In o (orders st) ->
            exists item, Models.findStoreItemById st (Order.itemId o) = Some item
                         /\ StoreItem.creatorId item <> Order.buyerId o.

(** Referral.code is unique across the Referral records. *)
Definition unique_codes (st : Store) : Prop :=
  NoDup (map Referral.code (referrals st)).

End Spec.

(* ================================================================== *)
(** * Binary64 rounding *)
(* ================================================================== *)

(** The exponent a binary64 value of magnitude [e] is stored with. *)
Abbreviation fexp64 := (SpecFloat.fexp prec emax).

(** What rounding ends with, once the mantissa [m2] at exponent [t] is the
    rounded one: a last shift when the rounding carried into one more digit,
    then zero, a finite value, or an infinity on overflow. *)
Definition finish (s : bool) (m2 t : Z) : spec_float :=
  match (m2 / 2 ^ (Z.max t (fexp64 (Zdigits2 m2 + t)) - t))%Z with
  | Z0 => S754_zero s
  | Zpos p =>
      if (Z.max t (fexp64 (Zdigits2 m2 + t)) <=? emax - prec)%Z
      then S754_finite s p (Z.max t (fexp64 (Zdigits2 m2 + t)))
      else S754_infinity s
  | Zneg _ => S754_nan
  end.

(* ================================================================== *)
(** * Sequences of calls and sample data *)
(* ================================================================== *)

(** The store after [POST /api/referral/:code/earn] was served once per
    amount, in order. *)
Fixpoint recordEarnings (code : string) (amounts : list float) (st : Store) : Store :=
  match amounts with
  | [] => st
  | a :: rest =>
      recordEarnings code rest (fst (Server.post_referral_earn st code (JS.VNumber a)))
  end.

(** The earnings of the record a code resolves to. *)
Definition earningsOf (st : Store) (code : string) : option float :=
  option_map Referral.earnings (Models.getReferralByCode st code).

(** The store with one more record in a collection. *)
Definition with_subscription (st : Store) (sub : Subscription.t) : Store :=
  mkStore (users st) (posts st) (subscriptions st ++ [sub]) (storeItems st)
          (orders st) (referrals st) (messages st) (tips st).

Definition with_storeItem (st : Store) (item : StoreItem.t) : Store :=
  mkStore (users st) (posts st) (subscriptions st) (storeItems st ++ [item])
          (orders st) (referrals st) (messages st) (tips st).

Definition with_order (st : Store) (order : Order.t) : Store :=
  mkStore (users st) (posts st) (subscriptions st) (storeItems st)
          (orders st ++ [order]) (referrals st) (messages st) (tips st).

Definition with_referral (st : Store) (ref : Referral.t) : Store :=
  mkStore (users st) (posts st) (subscriptions st) (storeItems st)
          (orders st) (referrals st ++ [ref]) (messages st) (tips st).

Module Sample.

(** The texts of the samples are ASCII, where lower-casing is [lower_ascii]. *)
Definition env (n : Z) (id : string) : Env :=
  mkEnv id n "$2b$10$digest" JS.lower_ascii.

Definition ana : User.t :=
  User.mk "u-ana" "ana" "ana@example.org" "$2b$10$digest" "creator" 1 Profile.empty.

Definition bo : User.t :=
  User.mk "u-bo" "bo" "bo@example.org" "$2b$10$digest" "subscriber" 2 Profile.empty.

Definition register_ana : Env * option string * Server.request :=
  (env 1 "u-ana", None,
   Server.Register (Some "ana") (Some "ana@example.org") (Some (JS.VString "pw"))
                   (Some "creator")).

Definition register_bo : Env * option string * Server.request :=
  (env 2 "u-bo", None,
   Server.Register (Some "bo") (Some "bo@example.org") (Some (JS.VString "pw")) None).

(** ana and bo registered, nothing else. *)
Definition two_users : Store :=
  mkStore [ana; bo] [] [] [] [] [] [] [].

Definition P1 : Post.t :=
  Post.mk "p-1" "u-ana" (JS.VString "Hello") "text" (JS.VNumber 0) false
          (JS.VArray [JS.VString "Art"]) 3 0 0.

Definition P2 : Post.t :=
  Post.mk "p-2" "u-ana" (JS.VString "Members only") "text" (JS.VNumber 0) true
          (JS.VArray []) 4 0 0.

Definition bo_subscribed : Subscription.t :=
  Subscription.mk "s-1" "u-bo" "u-ana" "monthly" "active" 5.

Definition feed : Store :=
  mkStore [ana; bo] [P1; P2] [bo_subscribed] [] [] [] [] [].

(** The same with bo's subscription cancelled. *)
Definition bo_cancelled : Subscription.t :=
  Subscription.mk "s-1" "u-bo" "u-ana" "monthly" "cancelled" 5.

Definition lapsed : Store :=
  mkStore [ana; bo] [P1; P2] [bo_cancelled] [] [] [] [] [].

Definition sticker : StoreItem.t :=
  StoreItem.mk "i-1" "u-ana" "Sticker" "" 3 6.

Definition shop : Store :=
  mkStore [ana; bo] [] [] [sticker] [] [] [] [].

Definition REF1 (m : float) : Referral.t :=
  Referral.mk "r-1" "u-ana" "u-ana" "REF1" m 0 0 7.

Definition one_code (m : float) : Store :=
  mkStore [ana; bo] [] [] [] [] [REF1 m] [] [].

(** ana registers, then posts the same referral code twice. *)
Definition same_code_twice : list (Env * option string * Server.request) :=
  [ register_ana;
    (env 2 "r-1", Some "u-ana", Server.CreateReferral None (Some "REF1") None);
    (env 3 "r-2", Some "u-ana", Server.CreateReferral None (Some "REF1") None) ].

(** ana registers, then lists an item priced at -5. *)
Definition negative_price : list (Env * option string * Server.request) :=
  [ register_ana;
    (env 2 "i-1", Some "u-ana",
     Server.CreateStoreItem "ana" (Some "Sticker") None (JS.VNumber (-5))) ].

(** ana registers and creates REF1 at the default commission; 100 is earned,
    then -250. *)
Definition negative_earning : list (Env * option string * Server.request) :=
  [ register_ana;
    (env 2 "r-1", Some "u-ana", Server.CreateReferral None (Some "REF1") None);
    (env 3 "", None, Server.ReferralEarn "REF1" (JS.VNumber 100));
    (env 4 "", None, Server.ReferralEarn "REF1" (JS.VNumber (-250))) ].

(** ana registers, sets her social links, then sends [socialLinks: null]. *)
Definition null_socialLinks : list (Env * option string * Server.request) :=
  [ register_ana;
    (env 2 "", Some "u-ana",
     Server.PutProfile
       [("socialLinks", JS.VObject [("web", JS.VString "https://ana.example")])]);
    (env 3 "", Some "u-ana", Server.PutProfile [("socialLinks", JS.VNull)]) ].

(** ana and bo register, ana publishes a public and a subscriber-only post,
    bo subscribes to ana. *)
Definition publish_and_subscribe : list (Env * option string * Server.request) :=
  [ register_ana;
    register_bo;
    (env 3 "p-1", Some "u-ana",
     Server.CreatePost (Some (JS.VString "Hello")) None None (Some false)
                       (Some (JS.VArray [JS.VString "Art"])));
    (env 4 "p-2", Some "u-ana",
     Server.CreatePost (Some (JS.VString "Members only")) None None (Some true) None);
    (env 5 "s-1", Some "u-bo", Server.Subscribe "ana" None) ].

(** ana registers and publishes "Hello" tagged "Art", then a post whose
    content is the number 5. *)
Definition number_as_content : list (Env * option string * Server.request) :=
  [ register_ana;
    (env 3 "p-1", Some "u-ana",
     Server.CreatePost (Some (JS.VString "Hello")) None None (Some false)
                       (Some (JS.VArray [JS.VString "Art"])));
    (env 4 "p-2", Some "u-ana",
     Server.CreatePost (Some (JS.VNumber 5)) None None None None) ].

(** ana registers, creates REF1 and 100 is earned on it. *)
Definition earned_once : Store :=
  mkStore [ana] [] [] [] [] [Referral.mk "r-1" "u-ana" "u-ana" "REF1" 0.2 0 20 2] [] [].

End Sample.

(* ================================================================== *)
(** * Login *)
(* ================================================================== *)

(** The login route reads the users and writes the session only.
    [bcrypt.compare] is the parameter [compare]: the digest is salted, so what
    it accepts is known to the library alone.  It is given strings only: on
    data that is not a string it rejects. *)
Module Auth.





End Auth.

(* ================================================================== *)
(** * Properties of the ledgers *)
(* ================================================================== *)

Module Ledger.

(** Everything of a user but the profile. *)
Definition identity (u : User.t)
  : string * string * string * string * string * Z :=
  (User.id u, User.username u, User.email u, User.passwordHash u, User.role u,
   User.createdAt u).

(** The user [createUser] pushes. *)
Definition newcomer (env : Env) (username email : string) (role : option string)
  : User.t :=
  User.mk (uuid env) username email (bcryptHash env)
          (match role with Some r => r | None => "subscriber" end)
          (now env) Profile.empty.

(** Some user carries the identifier. *)
Definition registered (st : Store) (id : string) : Prop :=
  exists u, In u (users st) /\ User.id u = id.

(** Some user carries the identifier and has the role "creator". *)
Definition is_creator (st : Store) (id : string) : Prop :=
  exists u, In u (users st) /\ User.id u = id /\ User.role u = "creator".

(** The routes that only read the collections. *)
Definition read_only (r : Server.request) : bool :=
  match r with
  | Server.GetProfile | Server.GetPosts _ | Server.GetSubscriptions
  | Server.GetStore _ | Server.GetOrders | Server.GetConversations
  | Server.GetThread _ | Server.GetTips _ | Server.SearchUsers _
  | Server.SearchPosts _ | Server.AdminUsers => true
  | _ => false
  end.

(** The routes that write without looking at [req.user]. *)
Definition open_write (r : Server.request) : bool :=
  match r with
  | Server.Register _ _ _ _ | Server.ReferralSignup _ | Server.ReferralEarn _ _ => true
  | _ => false
  end.

(** The routes behind [requireAdmin]. *)
Definition admin_only (r : Server.request) : bool :=
  match r with
  | Server.AdminUsers | Server.AdminDeletePost _ => true
  | _ => false
  end.

(** The routes that answer without looking at [req.user] at all. *)
Definition public_read (r : Server.request) : bool :=
  match r with
  | Server.GetPosts _ | Server.GetStore _ | Server.GetTips _
  | Server.SearchUsers _ | Server.SearchPosts _ => true
  | _ => false
  end.

(** [x] and [y] are the two ends of the message. *)
Definition between (x y : string) (m : Message.t) : Prop :=
  (Message.senderId m = x /\ Message.recipientId m = y)
  \/ (Message.senderId m = y /\ Message.recipientId m = x).


End Ledger.

(** The integer [k], below 2^63, as a binary64 value. *)
Definition number_of (k : Z) : float := PrimFloat.of_uint63 (Uint63.of_Z k).

(** A counter after [n] additions of 1, each a binary64 addition. *)
Fixpoint incremented (n : nat) (c : float) : float :=
  match n with
  | O => c
  | S k => incremented k (c + 1)%float
  end.

(** The store after [POST /api/referral/:code/signup] was served [n] times. *)
Fixpoint recordSignups (code : string) (n : nat) (st : Store) : Store :=
  match n with
  | O => st
  | S k => recordSignups code k (fst (Server.post_referral_signup st code))
  end.

(** A longer session: ana and bo register, ana lists a sticker, bo orders it,
    tips ana and writes to her, ana creates a referral code, and two sign-ups
    are recorded on it. *)
Module Tour.

Definition requests : list (Env * option string * Server.request) :=
  [ Sample.register_ana;
    Sample.register_bo;
    (Sample.env 6 "i-1", Some "u-ana",
     Server.CreateStoreItem "ana" (Some "Sticker") None (JS.VNumber 3));
    (Sample.env 7 "o-1", Some "u-bo", Server.PlaceOrder "i-1");
    (Sample.env 8 "t-1", Some "u-bo", Server.SendTip "ana" (JS.VNumber 5));
    (Sample.env 9 "m-1", Some "u-bo", Server.SendMessage (Some "ana") (Some "hi"));
    (Sample.env 10 "r-1", Some "u-ana", Server.CreateReferral None (Some "REF1") None);
    (Sample.env 11 "", None, Server.ReferralSignup "REF1");
    (Sample.env 12 "", None, Server.ReferralSignup "REF1") ].

Definition order : Order.t := Order.mk "o-1" "i-1" "u-bo" "pending" 7.

Definition tip : Tip.t := Tip.mk "t-1" "u-bo" "u-ana" 5 8.

Definition note : Message.t := Message.mk "m-1" "u-bo" "u-ana" "hi" 9.

Definition code : Referral.t :=
  Referral.mk "r-1" "u-ana" "u-ana" "REF1" 0.2 2 0 10.

Definition store : Store :=
  mkStore [Sample.ana; Sample.bo] [] [] [Sample.sticker] [order] [code] [note] [tip].

End Tour.

(* ================================================================== *)
(** * Proof automation *)
(* ================================================================== *)

(** Case analysis on the innermost test of a handler. *)
Ltac break_inner :=
  match goal with
  | |- context [match ?x with _ => _ end] =>
      lazymatch x with
      | context [match _ with _ => _ end] => fail
      | _ => destruct x eqn:?
      end
  end.

Ltac unfold_handlers :=
  unfold Server.handle, Server.post_register, Server.register_check,
    Server.register_resume, Server.get_profile, Server.put_profile,
    Server.post_posts, Server.get_posts, Server.post_subscribe,
    Server.get_subscriptions, Server.post_store, Server.get_store,
    Server.post_order, Server.get_orders, Server.post_referral,
    Server.post_referral_signup, Server.post_referral_earn,
    Server.post_message_send, Server.get_message_conversations,
    Server.get_message_thread, Server.post_tip, Server.get_tips,
    Server.get_search_users, Server.get_search_posts, Server.get_admin_users,
    Server.delete_admin_posts, Server.requireAdmin;
  unfold Models.createUser, Models.createPost, Models.subscribe,
    Models.createStoreItem, Models.createOrder, Models.createReferral,
    Models.recordReferralSignup, Models.addReferralEarning, Models.sendMessage,
    Models.sendTip, Models.deletePostById, Models.set_referrals, Server.set_users.

Ltac handler_cases := unfold_handlers; repeat (break_inner; cbn [fst snd]).

(* ================================================================== *)
(** * Strings: lower case and substring search *)
(* ================================================================== *)

Section StringFacts.

Local Open Scope string_scope.

Lemma prefix_iff (q s : string) :
  String.prefix q s = true <-> exists rest, s = q ++ rest.
Proof.
  revert s. induction q as [|c q IH]; intros s.
  - destruct s; simpl; split; intros _; eauto.
  - destruct s as [|d s]; simpl.
    + split; [discriminate | intros [rest H]; discriminate].
    + destruct (ascii_dec c d) as [->|Hne].
      * rewrite IH. split; intros [rest H]; exists rest.
        -- now subst.
        -- now inversion H.
      * split; [discriminate | intros [rest H]; inversion H; congruence].
Qed.

Lemma includes_unfold (s q : string) :
  JS.includes s q
  = String.prefix q s
    || match s with EmptyString => false | String _ rest => JS.includes rest q end.
Proof.
  destruct s as [|a s]; simpl.
  - now destruct (String.prefix q "").
  - now destruct (String.prefix q (String a s)).
Qed.

Lemma includes_iff (s q : string) :
  JS.includes s q = true <-> exists before after, s = before ++ q ++ after.
Proof.
  induction s as [|a s IH]; rewrite includes_unfold, orb_true_iff, prefix_iff.
  - split.
    + intros [[rest H] | H]; [|discriminate]. now exists "", rest.
    + intros (before & after & H). left.
      destruct before; [|discriminate]. now exists after.
  - rewrite IH. split.
    + intros [[rest H] | (before & after & H)].
      * now exists "", rest.
      * exists (String a before), after. simpl. now rewrite H.
    + intros (before & after & H). destruct before as [|b before].
      * left. now exists after.
      * right. simpl in H. inversion H. eauto.
Qed.

Lemma is_upper_iff (c : ascii) :
  JS.is_upper c = true <-> (65 <= nat_of_ascii c <= 90)%nat.
Proof.
  unfold JS.is_upper. rewrite andb_true_iff, !Nat.leb_le. reflexivity.
Qed.

Lemma nat_of_lower_char (c : ascii) :
  nat_of_ascii (JS.lower_char c)
  = if JS.is_upper c then (nat_of_ascii c + 32)%nat else nat_of_ascii c.
Proof.
  unfold JS.lower_char. destruct (JS.is_upper c) eqn:Hu; [|reflexivity].
  apply is_upper_iff in Hu. apply nat_ascii_embedding. lia.
Qed.

Lemma nat_of_ascii_inj (c d : ascii) : nat_of_ascii c = nat_of_ascii d -> c = d.
Proof.
  intros H. rewrite <- (ascii_nat_embedding c), <- (ascii_nat_embedding d).
  now rewrite H.
Qed.

Lemma lower_char_same_letter (c d : ascii) :
  JS.lower_char c = JS.lower_char d <-> Spec.same_letter c d.
Proof.
  unfold Spec.same_letter, Spec.capital_of. split.
  - intros H. apply (f_equal nat_of_ascii) in H.
    rewrite !nat_of_lower_char in H.
    destruct (JS.is_upper c) eqn:Hc; destruct (JS.is_upper d) eqn:Hd.
    + left. apply nat_of_ascii_inj. lia.
    + right; left. apply is_upper_iff in Hc. lia.
    + right; right. apply is_upper_iff in Hd. lia.
    + left. now apply nat_of_ascii_inj.
  - intros H. apply nat_of_ascii_inj. rewrite !nat_of_lower_char.
    destruct H as [-> | [[Hc Hd] | [Hd Hc]]]; [reflexivity | |].
    + assert (JS.is_upper c = true) as -> by (apply is_upper_iff; lia).
      destruct (JS.is_upper d) eqn:Hu; [apply is_upper_iff in Hu|]; lia.
    + assert (JS.is_upper d = true) as -> by (apply is_upper_iff; lia).
      destruct (JS.is_upper c) eqn:Hu; [apply is_upper_iff in Hu|]; lia.
Qed.

Lemma lower_ascii_equal_ignoring_case (s t : string) :
  JS.lower_ascii s = JS.lower_ascii t <-> Spec.equal_ignoring_case s t.
Proof.
  split.
  - revert t. induction s as [|c s IH]; intros [|d t] H; simpl in H;
      try discriminate.
    + constructor.
    + inversion H. constructor; [now apply lower_char_same_letter | now apply IH].
  - induction 1 as [|c d s t Hcd _ IH]; simpl; [reflexivity|].
    apply lower_char_same_letter in Hcd. now rewrite Hcd, IH.
Qed.

Lemma lower_ascii_app (s t : string) :
  JS.lower_ascii (s ++ t) = JS.lower_ascii s ++ JS.lower_ascii t.
Proof.
  induction s as [|c s IH]; simpl; [reflexivity | now rewrite IH].
Qed.

Lemma lower_ascii_split (s x y : string) :
  JS.lower_ascii s = x ++ y ->
  exists a b, s = a ++ b /\ JS.lower_ascii a = x /\ JS.lower_ascii b = y.
Proof.
  revert s. induction x as [|c x IH]; intros s H.
  - exists "", s. auto.
  - destruct s as [|d s]; simpl in H; [discriminate|].
    inversion H as [[Hc Hs]]. destruct (IH _ Hs) as (a & b & -> & Ha & Hb).
    exists (String d a), b. simpl. now rewrite Ha.
Qed.

Lemma includes_ignoring_case (s q : string) :
  JS.includes (JS.lower_ascii s) (JS.lower_ascii q) = true
  <-> Spec.contains_ignoring_case s q.
Proof.
  rewrite includes_iff. unfold Spec.contains_ignoring_case. split.
  - intros (before & after & H).
    apply lower_ascii_split in H. destruct H as (a & rest & -> & Ha & Hrest).
    apply lower_ascii_split in Hrest. destruct Hrest as (b & c & -> & Hb & Hc).
    exists a, b, c. split; [reflexivity|].
    now apply lower_ascii_equal_ignoring_case.
  - intros (a & b & c & -> & Hb).
    apply lower_ascii_equal_ignoring_case in Hb.
    exists (JS.lower_ascii a), (JS.lower_ascii c).
    now rewrite !lower_ascii_app, Hb.
Qed.

Lemma is_ascii_lower (s : string) :
  JS.is_ascii s = true -> JS.is_ascii (JS.lower_ascii s) = true.
Proof.
  induction s as [|c s IH]; simpl; [reflexivity|].
  rewrite !andb_true_iff, !Nat.ltb_lt. intros [Hc Hs]. split; [|auto].
  unfold JS.lower_char. destruct (JS.is_upper c) eqn:Hu; [|exact Hc].
  apply is_upper_iff in Hu. rewrite nat_ascii_embedding; lia.
Qed.

End StringFacts.

Section Throwing.

Context {A : Type} (keep : A -> JS.outcome bool).

Lemma filter_throwing_returns (k : A -> bool) (l : list A) :
  (forall x, In x l -> keep x = JS.Returns (k x)) ->
  Models.filter_throwing keep l = JS.Returns (filter k l).
Proof.
  induction l as [|a l IH]; simpl; intros H; [reflexivity|].
  rewrite (H a (or_introl eq_refl)), IH by auto. now destruct (k a).
Qed.

Lemma filter_throwing_throws (l : list A) (x : A) :
  In x l -> keep x = JS.Throws -> Models.filter_throwing keep l = JS.Throws.
Proof.
  induction l as [|a l IH]; simpl; intros Hin Hx; [destruct Hin|].
  destruct Hin as [<- | Hin]; [now rewrite Hx|].
  destruct (keep a); [|reflexivity]. now rewrite IH.
Qed.

End Throwing.

Lemma someTag_strings (env : Env) (q : string) (tags : list string) :
  Models.someTag env q (map JS.VString tags)
  = JS.Returns (existsb (fun tag => JS.includes (toLowerCase env tag) q) tags).
Proof.
  induction tags as [|tag tags IH]; simpl; [reflexivity|].
  destruct (JS.includes (toLowerCase env tag) q); [reflexivity | exact IH].
Qed.

(** The test [searchPosts] applies to a post made of text. *)
Lemma postMatches_textual (env : Env) (q : string) (p : Post.t) (content : string)
  (tags : list string) :
  Post.content p = JS.VString content ->
  Post.tags p = JS.VArray (map JS.VString tags) ->
  Models.postMatches env q p
  = JS.Returns (JS.includes (toLowerCase env content) q
                || existsb (fun tag => JS.includes (toLowerCase env tag) q) tags).
Proof.
  intros Hc Ht. unfold Models.postMatches. rewrite Hc, Ht. cbn [Models.lowered].
  destruct (JS.includes (toLowerCase env content) q); [reflexivity|].
  apply someTag_strings.
Qed.

Lemma lowered_hit_textual (env : Env) (q : string) (p : Post.t) (content : string)
  (tags : list string) :
  Post.content p = JS.VString content ->
  Post.tags p = JS.VArray (map JS.VString tags) ->
  JS.includes (toLowerCase env content) (toLowerCase env q)
  || existsb (fun tag => JS.includes (toLowerCase env tag) (toLowerCase env q)) tags
  = true
  <-> Spec.lowered_hit env q p.
Proof.
  intros Hc Ht. unfold Spec.lowered_hit. rewrite orb_true_iff, existsb_exists. split.
  - intros [H | (tag & Hin & H)].
    + left. now exists content.
    + right. exists (map JS.VString tags), tag. split; [exact Ht|].
      split; [now apply in_map | exact H].
  - intros [(c & Hc' & H) | (l & tag & Hl & Hin & H)].
    + left. congruence.
    + right. exists tag. split; [|exact H].
      rewrite Ht in Hl. inversion Hl; subst l.
      apply in_map_iff in Hin. destruct Hin as (t & Et & Hin). now inversion Et; subst.
Qed.

(** On ASCII text, matching after lower-casing is containment up to case. *)
Lemma lowered_hit_ascii (env : Env) (q : string) (p : Post.t) :
  Spec.folds_ascii env -> JS.is_ascii q = true -> Spec.ascii_post p ->
  Spec.lowered_hit env q p <-> Spec.search_hit q p.
Proof.
  intros Henv Hq (content & tags & Hc & Ht & Hac & Hat).
  unfold Spec.lowered_hit, Spec.search_hit. rewrite (Henv q Hq).
  assert (Htag : forall l tag, Post.tags p = JS.VArray l -> In (JS.VString tag) l ->
                               JS.is_ascii tag = true).
  { intros l tag Hl Hin. rewrite Ht in Hl. inversion Hl; subst l.
    apply in_map_iff in Hin. destruct Hin as (t & Et & Hin). inversion Et; subst. auto. }
  split.
  - intros [(c & Hc' & H) | (l & tag & Hl & Hin & H)].
    + left. exists c. split; [exact Hc'|].
      rewrite Henv in H by congruence. now apply includes_ignoring_case.
    + right. exists l, tag. split; [exact Hl|]. split; [exact Hin|].
      rewrite Henv in H by eauto. now apply includes_ignoring_case.
  - intros [(c & Hc' & H) | (l & tag & Hl & Hin & H)].
    + left. exists c. split; [exact Hc'|].
      rewrite Henv by congruence. now apply includes_ignoring_case.
    + right. exists l, tag. split; [exact Hl|]. split; [exact Hin|].
      rewrite Henv by eauto. now apply includes_ignoring_case.
Qed.

(** What [searchPosts] returns on posts made of text. *)
Lemma searchPosts_textual (st : Store) (env : Env) (q : string) :
  (forall p, In p (posts st) -> Spec.textual p) ->
  exists keep,
    Models.searchPosts env st (JS.VString q) = JS.Returns (filter keep (posts st))
    /\ (forall p, In p (posts st) -> (keep p = true <-> Spec.lowered_hit env q p)).
Proof.
  intros Htext.
  set (keep := fun p : Post.t =>
                 match Post.content p, Post.tags p with
                 | JS.VString content, JS.VArray tags =>
                     JS.includes (toLowerCase env content) (toLowerCase env q)
                     || existsb (fun tag =>
                                   match tag with
                                   | JS.VString tag =>
                                       JS.includes (toLowerCase env tag)
                                                   (toLowerCase env q)
                                   | _ => false
                                   end) tags
                 | _, _ => false
                 end).
  assert (Hkeep : forall p content tags,
             Post.content p = JS.VString content ->
             Post.tags p = JS.VArray (map JS.VString tags) ->
             keep p
             = (JS.includes (toLowerCase env content) (toLowerCase env q)
                || existsb (fun tag => JS.includes (toLowerCase env tag)
                                                   (toLowerCase env q)) tags)).
  { intros p content tags Hc Ht. unfold keep. rewrite Hc, Ht. f_equal.
    clear. induction tags as [|t tags IH]; simpl; [reflexivity | now rewrite IH]. }
  exists keep. split.
  - unfold Models.searchPosts. cbn [Models.lowered].
    apply filter_throwing_returns. intros p Hp.
    destruct (Htext p Hp) as (content & tags & Hc & Ht).
    rewrite (postMatches_textual env _ p content tags Hc Ht).
    now rewrite (Hkeep p content tags Hc Ht).
  - intros p Hp. destruct (Htext p Hp) as (content & tags & Hc & Ht).
    rewrite (Hkeep p content tags Hc Ht). now apply lowered_hit_textual.
Qed.

Lemma ascii_post_textual (p : Post.t) : Spec.ascii_post p -> Spec.textual p.
Proof. intros (content & tags & Hc & Ht & _). now exists content, tags. Qed.

(* ================================================================== *)
(** * Search *)
(* ================================================================== *)

(** C9, as the code has it. For every query string [q]: when every stored
    post has a string as content and an array of strings as tags,
    [searchPosts q] returns, in order, exactly the posts whose lower-cased
    content includes the lower-cased [q] or that have a tag whose lower-cased
    form does; when query, contents and tags are ASCII text these are exactly
    the posts whose content or some tag contains [q] as a substring
    case-insensitively.  When some stored post has a content that is not a
    string, the call throws for every query and the route answers 500.
    Serving a search never changes the store. *)
Theorem searchPosts_case_insensitive (st : Store) (env : Env) (q : string) :
  ((forall p, In p (posts st) -> Spec.textual p) ->
   exists found keep,
     Models.searchPosts env st (JS.VString q) = JS.Returns found
     /\ found = filter keep (posts st)
     /\ (forall p, In p (posts st) -> (keep p = true <-> Spec.lowered_hit env q p))
     /\ (forall p, In p found <-> In p (posts st) /\ Spec.lowered_hit env q p))
  /\ (Spec.folds_ascii env -> JS.is_ascii q = true ->
      (forall p, In p (posts st) -> Spec.ascii_post p) ->
      exists found keep,
        Models.searchPosts env st (JS.VString q) = JS.Returns found
        /\ found = filter keep (posts st)
        /\ (forall p, In p (posts st) -> (keep p = true <-> Spec.search_hit q p))
        /\ (forall p, In p found <-> In p (posts st) /\ Spec.search_hit q p))
  /\ (forall p query,
        In p (posts st) -> (forall s, Post.content p <> JS.VString s) ->
        Models.searchPosts env st query = JS.Throws
        /\ (JS.truthy query = true ->
            snd (Server.get_search_posts st env (Some query)) = Server.uncaught))
  /\ (forall query, fst (Server.get_search_posts st env query) = st).
Proof.
  split; [|split; [|split]].
  - intros Htext. destruct (searchPosts_textual st env q Htext) as (keep & E & Hkeep).
    exists (filter keep (posts st)), keep. split; [exact E|]. split; [reflexivity|].
    split; [exact Hkeep|]. intros p. rewrite filter_In. split.
    + intros [Hp H]. split; [exact Hp|]. now apply Hkeep.
    + intros [Hp H]. split; [exact Hp|]. now apply Hkeep.
  - intros Henv Hq Hascii.
    assert (Htext : forall p, In p (posts st) -> Spec.textual p)
      by (intros p Hp; apply ascii_post_textual; auto).
    destruct (searchPosts_textual st env q Htext) as (keep & E & Hkeep).
    assert (Hhit : forall p, In p (posts st) -> (keep p = true <-> Spec.search_hit q p)).
    { intros p Hp. rewrite (Hkeep p Hp). apply lowered_hit_ascii; auto. }
    exists (filter keep (posts st)), keep. split; [exact E|]. split; [reflexivity|].
    split; [exact Hhit|]. intros p. rewrite filter_In. split.
    + intros [Hp H]. split; [exact Hp|]. now apply Hhit.
    + intros [Hp H]. split; [exact Hp|]. now apply Hhit.
  - intros p query Hp Hcontent.
    assert (E : Models.searchPosts env st query = JS.Throws).
    { unfold Models.searchPosts. destruct (Models.lowered env query) as [lq|]; [|reflexivity].
      apply (filter_throwing_throws _ _ p Hp). unfold Models.postMatches.
      destruct (Post.content p) eqn:Hc; try reflexivity. now elim (Hcontent s). }
    split; [exact E|]. intros Hq. unfold Server.get_search_posts.
    now rewrite Hq, E.
  - intros query. unfold Server.get_search_posts.
    destruct query as [query|]; [|reflexivity].
    destruct (negb (JS.truthy query)); [reflexivity|].
    now destruct (Models.searchPosts env st query).
Qed.

Lemma searchPosts_case_insensitive_witness :
  exists found,
    Models.searchPosts (Sample.env 9 "") Sample.feed (JS.VString "ART")
    = JS.Returns found
    /\ (In Sample.P1 found
        <-> In Sample.P1 (posts Sample.feed) /\ Spec.search_hit "ART" Sample.P1)
    /\ (In Sample.P2 found
        <-> In Sample.P2 (posts Sample.feed) /\ Spec.search_hit "ART" Sample.P2).
Proof.
  assert (Henv : Spec.folds_ascii (Sample.env 9 "")) by (intros s _; reflexivity).
  assert (Hposts : forall p, In p (posts Sample.feed) -> Spec.ascii_post p).
  { intros p [<- | [<- | []]].
    - exists "Hello", ["Art"]. repeat split. now intros tag [<- | []].
    - exists "Members only", []. repeat split. now intros tag []. }
  destruct (proj1 (proj2 (searchPosts_case_insensitive Sample.feed (Sample.env 9 "") "ART"))
              Henv eq_refl Hposts)
    as (found & keep & E & _ & _ & Hfound).
  exists found. split; [exact E|]. split; apply Hfound.
Defined.

(* ================================================================== *)
(** * Visibility of posts *)
(* ================================================================== *)

Section Gating.

Variable st : Store.

Lemma activeMatch_iff (c r : string) (s : Subscription.t) :
  Models.activeMatch c r s = true
  <-> Subscription.subscriberId s = r
      /\ Subscription.creatorId s = c
      /\ Subscription.status s = "active".
Proof.
  unfold Models.activeMatch. rewrite !andb_true_iff, !String.eqb_eq. tauto.
Qed.

Lemma some_active_iff (c r : string) :
  existsb (Models.activeMatch c r) (subscriptions st) = true
  <-> Spec.active_subscription st r c.
Proof.
  rewrite existsb_exists. unfold Spec.active_subscription.
  split; intros (s & Hin & H); exists s; (split; [exact Hin|]);
    now apply activeMatch_iff.
Qed.

Lemma visible_iff (c : string) (requester : option string) (p : Post.t) :
  Spec.requester_id_ok requester \/ Spec.subscriber_ids_present st ->
  Models.visible st c requester p = true
  <-> Post.creatorId p = c /\ Spec.passes_gate st c requester p.
Proof.
  intros Hok. unfold Models.visible, Spec.passes_gate.
  destruct (String.eqb (Post.creatorId p) c) eqn:Hc; simpl.
  - apply String.eqb_eq in Hc.
    destruct (Post.subscriberOnly p) eqn:Hs; simpl.
    + destruct requester as [r|]; simpl.
      * destruct r as [|a r]; simpl.
        -- split; [discriminate|].
           intros [_ [H | [_ (r' & Hr' & (sub & Hin & Hsub & _))]]]; [discriminate|].
           inversion Hr'; subst r'. destruct Hok as [Hok | Hok].
           ++ now elim Hok.
           ++ now elim (Hok sub Hin).
        -- rewrite some_active_iff. split.
           ++ intros H. split; [exact Hc|]. right. split; [reflexivity|].
              now exists (String a r).
           ++ intros [_ [H | [_ (r' & Hr' & H)]]]; [discriminate|].
              now inversion Hr'; subst.
      * split; [discriminate|].
        intros [_ [H | [_ (r' & Hr' & _)]]]; discriminate.
    + split; [intros _; split; [exact Hc | now left] | reflexivity].
  - apply String.eqb_neq in Hc. split; [discriminate | intros [H _]; contradiction].
Qed.

(** The four parts of the gating property, on a store or for a requester that
    rules out the empty identifier. *)
Lemma listPosts_gating_on (c : string) (requester : option string) :
  Spec.requester_id_ok requester \/ Spec.subscriber_ids_present st ->
  (forall p, In p (Models.listPosts st c requester)
             <-> In p (posts st) /\ Post.creatorId p = c
                 /\ Spec.passes_gate st c requester p)
  /\ (forall p, In p (posts st) -> Post.creatorId p = c ->
                Post.subscriberOnly p = false ->
                In p (Models.listPosts st c requester))
  /\ (forall r p, requester = Some r ->
                  In p (posts st) -> Post.creatorId p = c ->
                  Post.subscriberOnly p = true ->
                  (In p (Models.listPosts st c requester)
                   <-> Spec.active_subscription st r c))
  /\ (requester = None ->
      forall p, In p (Models.listPosts st c requester) ->
                Post.subscriberOnly p = false).
Proof.
  intros Hok.
  assert (Hall : forall p, In p (Models.listPosts st c requester)
                           <-> In p (posts st) /\ Post.creatorId p = c
                               /\ Spec.passes_gate st c requester p).
  { intros p. unfold Models.listPosts. rewrite filter_In, (visible_iff c requester p Hok).
    reflexivity. }
  split; [exact Hall|]. split; [|split].
  - intros p Hin Hc Hs. apply Hall. repeat split; auto. now left.
  - intros r p -> Hin Hc Hs. rewrite Hall. unfold Spec.passes_gate. split.
    + intros (_ & _ & [H | [_ (r' & Hr' & H)]]); [congruence|].
      now inversion Hr'; subst.
    + intros H. repeat split; auto. right. split; [exact Hs|]. now exists r.
  - intros -> p Hp. apply Hall in Hp.
    destruct Hp as (_ & _ & [H | [_ (r & Hr & _)]]); [exact H | discriminate].
Qed.

End Gating.

(* ================================================================== *)
(** * What one request does to each collection *)
(* ================================================================== *)

Lemma attach_user_nonempty (st : Store) (session : option string) (user : User.t) :
  Server.attach_user st session = Some user -> User.id user <> "".
Proof.
  unfold Server.attach_user, Models.getUserById.
  destruct session as [userId|]; [|discriminate].
  destruct userId as [|a userId]; [discriminate|]. cbn [JS.truthy_string].
  intros H. destruct (find_some _ _ H) as [_ Hid].
  apply String.eqb_eq in Hid. rewrite Hid. discriminate.
Qed.

Lemma attach_user_found (st : Store) (session : option string) (user : User.t) :
  Server.attach_user st session = Some user ->
  Models.getUserById st (User.id user) = Some user.
Proof.
  unfold Server.attach_user, Models.getUserById.
  destruct session as [userId|]; [|discriminate].
  destruct (JS.truthy_string userId); [|discriminate].
  intros H. destruct (find_some _ _ H) as [_ Hid].
  apply String.eqb_eq in Hid. now rewrite Hid.
Qed.

Lemma handle_subscriptions (st : Store) (env : Env) (session : option string)
  (r : Server.request) :
  subscriptions (fst (Server.handle st env session r)) = subscriptions st
  \/ exists sub,
       subscriptions (fst (Server.handle st env session r)) = subscriptions st ++ [sub]
       /\ Subscription.subscriberId sub <> Subscription.creatorId sub
       /\ Subscription.subscriberId sub <> ""
       /\ Subscription.status sub = "active".
Proof.
  destruct r; handler_cases; cbn; auto.
  right. eexists. split; [reflexivity|]. cbn. split; [|split; [|reflexivity]].
  - intros E. rewrite E, String.eqb_refl in *. discriminate.
  - eapply attach_user_nonempty. eassumption.
Qed.

Lemma run_reachable (st : Store) (rs : list (Env * option string * Server.request)) :
  Server.reachable st -> Server.reachable (fst (Server.run st rs)).
Proof.
  revert st. induction rs as [|[[env session] r] rs IH]; intros st Hst; [exact Hst|].
  simpl. pose proof (Server.reachable_step st env session r Hst) as Hstep.
  destruct (Server.handle st env session r) as [st1 resp]. simpl in Hstep.
  specialize (IH st1 Hstep). destruct (Server.run st1 rs) as [st2 resps].
  exact IH.
Qed.

(** A registration that resumes leaves the store as it was or with one more
    user; so a property of all reachable stores is one that holds of the empty
    store, survives every request and survives one more user. *)
Lemma resume_appends (st : Store) (env : Env) (username email : string)
  (password : JS.value) (role : option string) :
  fst (Server.register_resume st env username email password role) = st
  \/ exists user,
       fst (Server.register_resume st env username email password role)
       = Server.set_users st (users st ++ [user])
       /\ User.id user = uuid env /\ User.username user = username
       /\ User.profile user = Profile.empty.
Proof.
  unfold Server.register_resume, Models.createUser.
  destruct password; cbn [fst]; auto.
  right. eexists. split; [reflexivity|]. now cbn.
Qed.

Lemma reachable_induction (P : Store -> Prop) :
  P empty_store ->
  (forall st env session r,
      Server.reachable st -> P st -> P (fst (Server.handle st env session r))) ->
  (forall st user,
      Server.reachable st -> P st -> P (Server.set_users st (users st ++ [user]))) ->
  forall st, Server.reachable st -> P st.
Proof.
  intros Hinit Hstep Huser st Hst.
  induction Hst as [|st env session r Hst IH|st env username email password role _ Hst IH].
  - exact Hinit.
  - now apply Hstep.
  - destruct (resume_appends st env username email password role)
      as [E | (user & E & _)]; rewrite E; [exact IH | now apply Huser].
Qed.

(** C9 fails on the code: a creator publishes "Hello" tagged "Art" and then a
    post whose content is the number 5, which the route accepts; from then on
    every search throws and is answered 500, the one for "art" included,
    although the first post has a tag that contains it. *)
Lemma search_throws_after_number_content :
  map Server.status (snd (Server.run empty_store Sample.number_as_content))
  = [200; 200; 200]
  /\ Server.reachable (fst (Server.run empty_store Sample.number_as_content))
  /\ Models.searchPosts (Sample.env 9 "")
       (fst (Server.run empty_store Sample.number_as_content)) (JS.VString "art")
     = JS.Throws
  /\ Server.status
       (snd (Server.get_search_posts
               (fst (Server.run empty_store Sample.number_as_content))
               (Sample.env 9 "") (Some (JS.VString "art"))))
     = 500
  /\ In Sample.P1 (posts (fst (Server.run empty_store Sample.number_as_content)))
  /\ Spec.search_hit "art" Sample.P1.
Proof.
  split; [reflexivity|]. split; [apply run_reachable; constructor|].
  split; [reflexivity|]. split; [reflexivity|]. split; [left; reflexivity|].
  right. exists [JS.VString "Art"], "Art". split; [reflexivity|].
  split; [left; reflexivity|].
  exists "", "Art", "". split; [reflexivity|].
  repeat constructor; right; left; split; simpl; lia.
Qed.

(* ================================================================== *)
(** * Visibility of posts in the stores the server reaches *)
(* ================================================================== *)

Lemma reachable_subscriber_ids_present (st : Store) :
  Server.reachable st -> Spec.subscriber_ids_present st.
Proof.
  induction 1 as [|st env session r _ IH|st user _ IH] using reachable_induction;
    intros s Hs.
  - destruct Hs.
  - destruct (handle_subscriptions st env session r) as [E | (sub & E & _ & Hsub & _)];
      rewrite E in Hs.
    + now apply IH.
    + apply in_app_or in Hs. destruct Hs as [Hs | [<- | []]]; [now apply IH | exact Hsub].
  - now apply IH.
Qed.

(** The empty string is falsy: as a requester it is treated like an absent
    one. *)
Lemma listPosts_empty_requester (st : Store) (c : string) :
  Models.listPosts st c (Some "") = Models.listPosts st c None.
Proof.
  unfold Models.listPosts. apply filter_ext. intros p. unfold Models.visible.
  reflexivity.
Qed.

(** C1. For every creator [c] and requester, on every store, whatever the
    status of its Subscription records, provided the empty string is not the
    requester or is no subscriber's identifier, which holds in particular of
    every store the server reaches: [listPosts] returns exactly the posts
    authored by [c] that pass the gating predicate; every post with
    subscriberOnly = false is included; a post with subscriberOnly = true is
    included iff some Subscription has subscriberId = the requester,
    creatorId = [c] and status "active"; and an absent (null) requester is
    shown no subscriberOnly post. *)
Theorem listPosts_gating (st : Store) (c : string) (requester : option string) :
  Spec.requester_id_ok requester \/ Spec.subscriber_ids_present st
  \/ Server.reachable st ->
  (forall p, In p (Models.listPosts st c requester)
             <-> In p (posts st) /\ Post.creatorId p = c
                 /\ Spec.passes_gate st c requester p)
  /\ (forall p, In p (posts st) -> Post.creatorId p = c ->
                Post.subscriberOnly p = false ->
                In p (Models.listPosts st c requester))
  /\ (forall r p, requester = Some r ->
                  In p (posts st) -> Post.creatorId p = c ->
                  Post.subscriberOnly p = true ->
                  (In p (Models.listPosts st c requester)
                   <-> Spec.active_subscription st r c))
  /\ (requester = None ->
      forall p, In p (Models.listPosts st c requester) ->
                Post.subscriberOnly p = false).
Proof.
  intros [Hok | [Hok | Hst]]; apply listPosts_gating_on.
  - now left.
  - now right.
  - right. now apply reachable_subscriber_ids_present.
Qed.

Lemma sample_feed_reachable : Server.reachable Sample.feed.
Proof.
  change Sample.feed with (fst (Server.run empty_store Sample.publish_and_subscribe)).
  apply run_reachable. constructor.
Qed.

Lemma listPosts_gating_witness :
  Models.listPosts Sample.feed "u-ana" (Some "u-bo") = [Sample.P1; Sample.P2]
  /\ Models.listPosts Sample.lapsed "u-ana" (Some "u-bo") = [Sample.P1]
  /\ Models.listPosts Sample.feed "u-ana" None = [Sample.P1]
  /\ (In Sample.P2 (Models.listPosts Sample.feed "u-ana" (Some "u-bo"))
      <-> Spec.active_subscription Sample.feed "u-bo" "u-ana")
  /\ (In Sample.P2 (Models.listPosts Sample.lapsed "u-ana" (Some "u-bo"))
      <-> Spec.active_subscription Sample.lapsed "u-bo" "u-ana").
Proof.
  assert (Hbo : Spec.requester_id_ok (Some "u-bo")) by discriminate.
  split; [reflexivity|]. split; [reflexivity|]. split; [reflexivity|]. split.
  - apply (proj1 (proj2 (proj2 (listPosts_gating Sample.feed "u-ana" (Some "u-bo")
                                  (or_intror (or_intror sample_feed_reachable)))))
                 "u-bo" Sample.P2 eq_refl);
      [simpl; auto | reflexivity | reflexivity].
  - apply (proj1 (proj2 (proj2 (listPosts_gating Sample.lapsed "u-ana" (Some "u-bo")
                                  (or_introl Hbo))))
                 "u-bo" Sample.P2 eq_refl);
      [simpl; auto | reflexivity | reflexivity].
Defined.

(* ================================================================== *)
(** * Subscriptions *)
(* ================================================================== *)

Lemma reachable_no_self_subscription (st : Store) :
  Server.reachable st -> Spec.no_self_subscription st.
Proof.
  induction 1 as [|st env session r _ IH|st user _ IH] using reachable_induction;
    intros s Hs.
  - destruct Hs.
  - destruct (handle_subscriptions st env session r) as [E | (sub & E & Hsub & _)];
      rewrite E in Hs.
    + now apply IH.
    + apply in_app_or in Hs. destruct Hs as [Hs | [<- | []]]; [now apply IH | exact Hsub].
  - now apply IH.
Qed.

(** C5. With the caller authenticated and the path naming a creator, the
    subscribe operation fails with InvalidInput when subscriberId = creatorId,
    and for every other pair it creates a new Subscription with status
    "active", whatever subscriptions the store already holds for the pair;
    hence no Subscription of a reachable store has subscriberId = creatorId. *)
Theorem subscribe_rejects_only_self (st : Store) (env : Env)
  (session : option string) (creatorUsername : string) (plan : option string)
  (user creator : User.t) :
  Server.attach_user st session = Some user ->
  Models.getUserByUsername st creatorUsername = Some creator ->
  User.role creator = "creator" ->
  (User.id user = User.id creator ->
   Spec.fails_with st Server.InvalidInput
     (Server.post_subscribe st env session creatorUsername plan))
  /\ (User.id user <> User.id creator ->
      Server.post_subscribe st env session creatorUsername plan
      = (with_subscription st
           (Subscription.mk (uuid env) (User.id user) (User.id creator)
                            (JS.or_else plan "monthly") "active" (now env)),
         Server.json
           (Server.PSubscription
              (Subscription.mk (uuid env) (User.id user) (User.id creator)
                               (JS.or_else plan "monthly") "active" (now env)))))
  /\ (forall st', Server.reachable st' -> Spec.no_self_subscription st').
Proof.
  intros Huser Hcreator Hrole. unfold Server.post_subscribe.
  rewrite Huser, Hcreator, Hrole. cbn [String.eqb negb].
  replace (String.eqb "creator" "creator") with true by reflexivity. cbn [negb].
  split; [|split].
  - intros E. rewrite E, String.eqb_refl. now split.
  - intros Hne.
    destruct (String.eqb (User.id creator) (User.id user)) eqn:E.
    + apply String.eqb_eq in E. congruence.
    + reflexivity.
  - exact reachable_no_self_subscription.
Qed.

Lemma subscribe_rejects_only_self_witness :
  Server.status
    (snd (Server.post_subscribe Sample.feed (Sample.env 9 "s-2") (Some "u-bo") "ana" None))
  = 200
  /\ length (subscriptions
               (fst (Server.post_subscribe Sample.feed (Sample.env 9 "s-2")
                                           (Some "u-bo") "ana" None))) = 2
  /\ Spec.fails_with Sample.feed Server.InvalidInput
       (Server.post_subscribe Sample.feed (Sample.env 9 "s-2") (Some "u-ana") "ana" None).
Proof.
  split; [reflexivity|]. split; [reflexivity|].
  exact (proj1 (subscribe_rejects_only_self Sample.feed (Sample.env 9 "s-2")
                  (Some "u-ana") "ana" None Sample.ana Sample.ana
                  eq_refl eq_refl eq_refl) eq_refl).
Defined.

(* ================================================================== *)
(** * Orders *)
(* ================================================================== *)

Lemma find_app_found {A : Type} (f : A -> bool) (l l' : list A) (x : A) :
  find f l = Some x -> find f (l ++ l') = Some x.
Proof.
  induction l as [|a l IH]; simpl; [discriminate|].
  destruct (f a); auto.
Qed.

Lemma handle_storeItems (st : Store) (env : Env) (session : option string)
  (r : Server.request) :
  exists added,
    storeItems (fst (Server.handle st env session r)) = storeItems st ++ added.
Proof.
  destruct r; handler_cases; cbn;
    solve [ exists []; now rewrite app_nil_r | eexists [_]; reflexivity ].
Qed.

Lemma handle_orders (st : Store) (env : Env) (session : option string)
  (r : Server.request) :
  orders (fst (Server.handle st env session r)) = orders st
  \/ exists order item,
       orders (fst (Server.handle st env session r)) = orders st ++ [order]
       /\ Models.findStoreItemById st (Order.itemId order) = Some item
       /\ StoreItem.creatorId item <> Order.buyerId order
       /\ Order.status order = "pending".
Proof.
  destruct r; handler_cases; cbn; auto.
  right.
  match goal with
  | H : Models.findStoreItemById _ _ = Some ?i, _ : Server.attach_user _ _ = Some ?u |- _ =>
      exists (Order.mk (uuid env) (StoreItem.id i) (User.id u) "pending" (now env)), i;
      pose proof H as Hfind
  end.
  split; [reflexivity|]. cbn. split; [|split; [|reflexivity]].
  - unfold Models.findStoreItemById in *.
    destruct (find_some _ _ Hfind) as [_ Hid]. apply String.eqb_eq in Hid.
    now rewrite Hid.
  - intros E. rewrite E, String.eqb_refl in *. discriminate.
Qed.

Lemma reachable_no_self_purchase (st : Store) :
  Server.reachable st -> Spec.no_self_purchase st.
Proof.
  induction 1 as [|st env session r _ IH|st user _ IH] using reachable_induction;
    intros o Ho; [| |exact (IH o Ho)].
  - destruct Ho.
  - destruct (handle_storeItems st env session r) as [added Hitems].
    assert (Hkeep : forall id item,
               Models.findStoreItemById st id = Some item ->
               Models.findStoreItemById (fst (Server.handle st env session r)) id
               = Some item).
    { intros id item H. unfold Models.findStoreItemById in *.
      rewrite Hitems. now apply find_app_found. }
    destruct (handle_orders st env session r)
      as [E | (order & item & E & Hfind & Hne & _)]; rewrite E in Ho.
    + destruct (IH o Ho) as (item & Hfind & Hne). exists item. auto.
    + apply in_app_or in Ho. destruct Ho as [Ho | [<- | []]].
      * destruct (IH o Ho) as (item' & Hfind' & Hne'). exists item'. auto.
      * exists item. auto.
Qed.

(** C6. With the caller authenticated as the buyer, placeOrder fails with
    NotFound when no StoreItem has the given itemId, fails with InvalidInput
    when the buyer is that item's creator, and otherwise creates exactly one
    new Order, with status "pending", referencing the item and the buyer; no
    Order of a reachable store has buyerId equal to its item's creatorId. *)
Theorem placeOrder_outcomes (st : Store) (env : Env) (session : option string)
  (itemId : string) (buyer : User.t) :
  Server.attach_user st session = Some buyer ->
  (Models.findStoreItemById st itemId = None ->
   Spec.fails_with st Server.NotFound (Server.post_order st env session itemId))
  /\ (forall item,
        Models.findStoreItemById st itemId = Some item ->
        StoreItem.creatorId item = User.id buyer ->
        Spec.fails_with st Server.InvalidInput (Server.post_order st env session itemId))
  /\ (forall item,
        Models.findStoreItemById st itemId = Some item ->
        StoreItem.creatorId item <> User.id buyer ->
        Server.post_order st env session itemId
        = (with_order st
             (Order.mk (uuid env) (StoreItem.id item) (User.id buyer) "pending" (now env)),
           Server.json
             (Server.POrder
                (Order.mk (uuid env) (StoreItem.id item) (User.id buyer) "pending"
                          (now env))))
        /\ StoreItem.id item = itemId)
  /\ (forall st', Server.reachable st' -> Spec.no_self_purchase st').
Proof.
  intros Hbuyer. unfold Server.post_order. rewrite Hbuyer.
  split; [|split; [|split]].
  - intros ->. now split.
  - intros item -> E. rewrite E, String.eqb_refl. now split.
  - intros item Hfind Hne. rewrite Hfind.
    destruct (String.eqb (StoreItem.creatorId item) (User.id buyer)) eqn:E.
    + apply String.eqb_eq in E. contradiction.
    + split; [reflexivity|].
      destruct (find_some _ _ Hfind) as [_ Hid]. now apply String.eqb_eq in Hid.
  - exact reachable_no_self_purchase.
Qed.

Lemma placeOrder_outcomes_witness :
  Spec.fails_with Sample.shop Server.NotFound
    (Server.post_order Sample.shop (Sample.env 9 "o-1") (Some "u-bo") "i-404")
  /\ Spec.fails_with Sample.shop Server.InvalidInput
       (Server.post_order Sample.shop (Sample.env 9 "o-1") (Some "u-ana") "i-1")
  /\ orders (fst (Server.post_order Sample.shop (Sample.env 9 "o-1") (Some "u-bo") "i-1"))
     = [Order.mk "o-1" "i-1" "u-bo" "pending" 9].
Proof.
  split; [|split].
  - exact (proj1 (placeOrder_outcomes Sample.shop (Sample.env 9 "o-1") (Some "u-bo")
                    "i-404" Sample.bo eq_refl) eq_refl).
  - exact (proj1 (proj2 (placeOrder_outcomes Sample.shop (Sample.env 9 "o-1")
                           (Some "u-ana") "i-1" Sample.ana eq_refl))
                 Sample.sticker eq_refl eq_refl).
  - reflexivity.
Defined.

(* ================================================================== *)
(** * Messaging *)
(* ================================================================== *)

Lemma set_add_In (x : string) (s : list string) : In x (JS.set_add x s).
Proof.
  unfold JS.set_add. destruct (existsb (String.eqb x) s) eqn:E.
  - apply existsb_exists in E. destruct E as (y & Hy & Hxy).
    apply String.eqb_eq in Hxy. now subst.
  - apply in_or_app. right. now left.
Qed.

Lemma set_add_keeps (x y : string) (s : list string) :
  In y s -> In y (JS.set_add x s).
Proof.
  unfold JS.set_add. destruct (existsb (String.eqb x) s); [auto|].
  intros H. apply in_or_app. now left.
Qed.

Lemma set_add_NoDup (x : string) (s : list string) :
  NoDup s -> NoDup (JS.set_add x s).
Proof.
  intros Hs. unfold JS.set_add. destruct (existsb (String.eqb x) s) eqn:E; [exact Hs|].
  apply NoDup_app; [exact Hs | |].
  { constructor; [intros [] | constructor]. }
  intros y Hy [<- | []].
  assert (existsb (String.eqb x) s = true); [|congruence].
  apply existsb_exists. exists x. split; [exact Hy | apply String.eqb_refl].
Qed.

Lemma addPartners_NoDup (u : string) (partners : list string) (msg : Message.t) :
  NoDup partners -> NoDup (Models.addPartners u partners msg).
Proof.
  intros H. unfold Models.addPartners.
  destruct (String.eqb (Message.senderId msg) u);
    destruct (String.eqb (Message.recipientId msg) u);
    auto using set_add_NoDup.
Qed.

Lemma partnersOf_NoDup (st : Store) (u : string) : NoDup (Models.partnersOf st u).
Proof.
  unfold Models.partnersOf.
  assert (H : forall l acc, NoDup acc -> NoDup (fold_left (Models.addPartners u) l acc)).
  { induction l as [|m l IH]; simpl; auto using addPartners_NoDup. }
  apply H. constructor.
Qed.

Lemma self_message_partner (st : Store) (env : Env) (u content : string) :
  In u (Models.partnersOf (snd (Models.sendMessage env u u content st)) u).
Proof.
  unfold Models.partnersOf, Models.sendMessage. cbn [snd messages].
  rewrite fold_left_app. cbn [fold_left]. unfold Models.addPartners.
  cbn [Message.senderId Message.recipientId].
  rewrite String.eqb_refl. apply set_add_In.
Qed.

(** C10. Self-messages are accepted.  For every user [u], sendMessage with
    senderId = [u] and recipientId = [u] appends the Message record as for any
    other pair, and afterwards listConversations(u) has [u] among its distinct
    conversation partners and returns the user record of [u].  The route does
    the same: with the caller authenticated and the recipient found by a
    non-empty username, a non-empty content is stored whoever the recipient
    is, the caller included. *)
Theorem self_message_accepted (st : Store) (env : Env) (u content : string) :
  messages (snd (Models.sendMessage env u u content st))
  = messages st ++ [Message.mk (uuid env) u u content (now env)]
  /\ In u (Models.partnersOf (snd (Models.sendMessage env u u content st)) u)
  /\ NoDup (Models.partnersOf (snd (Models.sendMessage env u u content st)) u)
  /\ In (Models.getUserById st u)
        (Models.listConversations (snd (Models.sendMessage env u u content st)) u)
  /\ (forall session recipientUsername sender recipient,
        Server.attach_user st session = Some sender ->
        Models.getUserByUsername st recipientUsername = Some recipient ->
        recipientUsername <> "" ->
        content <> "" ->
        Server.post_message_send st env session (Some recipientUsername) (Some content)
        = (snd (Models.sendMessage env (User.id sender) (User.id recipient) content st),
           Server.json
             (Server.PMessage
                (Message.mk (uuid env) (User.id sender) (User.id recipient) content
                            (now env))))
        /\ (User.id sender = u -> User.id recipient = u ->
            In (Some sender)
               (Models.listConversations
                  (fst (Server.post_message_send st env session
                          (Some recipientUsername) (Some content)))
                  u))).
Proof.
  split; [reflexivity|]. split; [apply self_message_partner|].
  split; [apply partnersOf_NoDup|]. split.
  - unfold Models.listConversations. apply in_map_iff. exists u.
    split; [reflexivity | apply self_message_partner].
  - intros session recipientUsername sender recipient Hs Hr Hname Hcontent.
    assert (Hsend :
      Server.post_message_send st env session (Some recipientUsername) (Some content)
      = (snd (Models.sendMessage env (User.id sender) (User.id recipient) content st),
         Server.json
           (Server.PMessage
              (Message.mk (uuid env) (User.id sender) (User.id recipient) content
                          (now env))))).
    { unfold Server.post_message_send. rewrite Hs. cbn [JS.truthy_field].
      destruct recipientUsername; [contradiction|].
      destruct content; [contradiction|].
      cbn [JS.truthy_string negb orb]. now rewrite Hr. }
    split; [exact Hsend|]. intros Hsu Hru. rewrite Hsend, Hsu, Hru. cbn [fst].
    unfold Models.listConversations. apply in_map_iff. exists u. split.
    + rewrite <- Hsu. apply (attach_user_found st session sender Hs).
    + apply self_message_partner.
Qed.

Lemma self_message_accepted_witness :
  In (Some Sample.ana)
     (Models.listConversations
        (fst (Server.post_message_send Sample.two_users (Sample.env 9 "m-1")
                                       (Some "u-ana") (Some "ana") (Some "note to self")))
        "u-ana")
  /\ messages
       (fst (Server.post_message_send Sample.two_users (Sample.env 9 "m-1")
                                      (Some "u-ana") (Some "ana") (Some "note to self")))
     = [Message.mk "m-1" "u-ana" "u-ana" "note to self" 9].
Proof.
  assert (Hname : "ana" <> "") by discriminate.
  assert (Hcontent : "note to self" <> "") by discriminate.
  split; [|reflexivity].
  exact (proj2 (proj2 (proj2 (proj2 (proj2
           (self_message_accepted Sample.two_users (Sample.env 9 "m-1")
              "u-ana" "note to self"))))
           (Some "u-ana") "ana" Sample.ana Sample.ana eq_refl eq_refl Hname Hcontent)
           eq_refl eq_refl).
Defined.

(* ================================================================== *)
(** * Referral codes *)
(* ================================================================== *)

Lemma repeated_code_not_unique (st : Store) (ref old : Referral.t) :
  Models.getReferralByCode st (Referral.code ref) = Some old ->
  ~ Spec.unique_codes (with_referral st ref).
Proof.
  unfold Models.getReferralByCode, Spec.unique_codes, with_referral.
  cbn [referrals]. intros Hold Hnodup. rewrite map_app in Hnodup. simpl in Hnodup.
  apply NoDup_remove_2 in Hnodup. apply Hnodup. rewrite app_nil_r.
  destruct (find_some _ _ Hold) as [Hin Hcode]. apply String.eqb_eq in Hcode.
  rewrite <- Hcode. now apply in_map.
Qed.

(** C2, as the code has it. Creating a referral code never fails with
    Conflict: with the caller authenticated and a non-empty code it always
    appends a new Referral carrying that code, also when a Referral with the
    same code exists; codes are then no longer unique, and a lookup by code
    keeps resolving to the earlier record. *)
Theorem createReferral_accepts_existing_code (st : Store) (env : Env)
  (session : option string) (creatorId : option string) (code : string)
  (commission : option float) (user : User.t) :
  Server.attach_user st session = Some user ->
  code <> "" ->
  (exists ref,
      Server.post_referral st env session creatorId (Some code) commission
      = (with_referral st ref, Server.json (Server.PReferral ref))
      /\ Referral.code ref = code
      /\ Referral.signups ref = 0%float
      /\ Referral.earnings ref = 0%float
      /\ (forall old,
            Models.getReferralByCode st code = Some old ->
            Models.getReferralByCode (with_referral st ref) code = Some old
            /\ ~ Spec.unique_codes (with_referral st ref)))
  /\ (forall code',
        Server.error_of
          (snd (Server.post_referral st env session creatorId code' commission))
        <> Some Server.Conflict).
Proof.
  intros Huser Hcode. split.
  - unfold Server.post_referral. rewrite Huser.
    destruct code as [|a code]; [contradiction|]. cbn [JS.truthy_string negb].
    unfold Models.createReferral. eexists. split; [reflexivity|].
    cbn [Referral.code Referral.signups Referral.earnings].
    repeat (split; [reflexivity|]).
    intros old Hold. split.
    + unfold Models.getReferralByCode, with_referral in *. cbn [referrals].
      now apply find_app_found.
    + eapply repeated_code_not_unique. cbn [Referral.code]. exact Hold.
  - intros code'. unfold Server.post_referral. rewrite Huser.
    destruct code' as [[|a c]|]; cbn; discriminate.
Qed.

Lemma createReferral_accepts_existing_code_witness :
  exists ref,
    Server.post_referral (Sample.one_code 0.2) (Sample.env 9 "r-2") (Some "u-bo")
                         None (Some "REF1") None
    = (with_referral (Sample.one_code 0.2) ref, Server.json (Server.PReferral ref))
    /\ Referral.code ref = "REF1"
    /\ Models.getReferralByCode (with_referral (Sample.one_code 0.2) ref) "REF1"
       = Some (Sample.REF1 0.2).
Proof.
  assert (Hcode : "REF1" <> "") by discriminate.
  destruct (proj1 (createReferral_accepts_existing_code (Sample.one_code 0.2)
                     (Sample.env 9 "r-2") (Some "u-bo") None "REF1" None Sample.bo
                     eq_refl Hcode))
    as (ref & Hpost & Href & _ & _ & Hold).
  exists ref. split; [exact Hpost|]. split; [exact Href|].
  exact (proj1 (Hold (Sample.REF1 0.2) eq_refl)).
Defined.

(** C2 fails on the code: from the empty store, the same code is created
    twice, no request fails, and the reachable store holds two Referral
    records with one code. *)
Lemma same_code_created_twice :
  map Server.error_of (snd (Server.run empty_store Sample.same_code_twice))
  = [None; None; None]
  /\ map Referral.code (referrals (fst (Server.run empty_store Sample.same_code_twice)))
     = ["REF1"; "REF1"]
  /\ Server.reachable (fst (Server.run empty_store Sample.same_code_twice))
  /\ ~ Spec.unique_codes (fst (Server.run empty_store Sample.same_code_twice)).
Proof.
  split; [reflexivity|]. split; [reflexivity|]. split.
  - apply run_reachable. constructor.
  - unfold Spec.unique_codes.
    change (map Referral.code
              (referrals (fst (Server.run empty_store Sample.same_code_twice))))
      with ["REF1"; "REF1"].
    intros H. inversion H as [|x l Hnotin _]. apply Hnotin. now left.
Qed.

(* ================================================================== *)
(** * Store items *)
(* ================================================================== *)

(** C7, as the code has it. With the caller authenticated as the owner of the
    store, createItem fails with InvalidInput whenever the price is not of
    numeric type or the name is missing, and succeeds, creating the item with
    the price as given, for every numeric price: the sign of the price is not
    examined. *)
Theorem createItem_checks_type_only (st : Store) (env : Env)
  (session : option string) (creatorUsername : string)
  (name description : option string) (price : JS.value) (owner creator : User.t) :
  Server.attach_user st session = Some owner ->
  Models.getUserByUsername st creatorUsername = Some creator ->
  User.id creator = User.id owner ->
  ((forall x, price <> JS.VNumber x) ->
   Spec.fails_with st Server.InvalidInput
     (Server.post_store st env session creatorUsername name description price))
  /\ (JS.truthy_field name = false ->
      Spec.fails_with st Server.InvalidInput
        (Server.post_store st env session creatorUsername name description price))
  /\ (forall n x,
        name = Some n -> n <> "" -> price = JS.VNumber x ->
        Server.post_store st env session creatorUsername name description price
        = (with_storeItem st
             (StoreItem.mk (uuid env) (User.id owner) n (JS.or_else description "")
                           x (now env)),
           Server.json
             (Server.PItem
                (StoreItem.mk (uuid env) (User.id owner) n
                              (JS.or_else description "") x (now env))))).
Proof.
  intros Howner Hcreator Hid. unfold Server.post_store.
  rewrite Howner, Hcreator, Hid, String.eqb_refl. cbn [negb].
  split; [|split].
  - intros Hprice.
    destruct price; try (destruct (JS.truthy_field name); now split).
    now elim (Hprice x).
  - intros ->. now split.
  - intros n x -> Hn ->. destruct n; [contradiction|]. reflexivity.
Qed.

Lemma createItem_checks_type_only_witness :
  Server.post_store Sample.two_users (Sample.env 9 "i-1") (Some "u-ana") "ana"
                    (Some "Sticker") None (JS.VNumber (-5))
  = (with_storeItem Sample.two_users
       (StoreItem.mk "i-1" "u-ana" "Sticker" "" (-5) 9),
     Server.json (Server.PItem (StoreItem.mk "i-1" "u-ana" "Sticker" "" (-5) 9)))
  /\ Spec.fails_with Sample.two_users Server.InvalidInput
       (Server.post_store Sample.two_users (Sample.env 9 "i-1") (Some "u-ana") "ana"
                          (Some "Sticker") None (JS.VString "5")).
Proof.
  assert (Hn : "Sticker" <> "") by discriminate.
  assert (Hs : forall x, JS.VString "5" <> JS.VNumber x) by discriminate.
  split.
  - exact (proj2 (proj2 (createItem_checks_type_only Sample.two_users
                           (Sample.env 9 "i-1") (Some "u-ana") "ana" (Some "Sticker")
                           None (JS.VNumber (-5)) Sample.ana Sample.ana
                           eq_refl eq_refl eq_refl))
                 "Sticker" (-5)%float eq_refl Hn eq_refl).
  - exact (proj1 (createItem_checks_type_only Sample.two_users
                    (Sample.env 9 "i-1") (Some "u-ana") "ana" (Some "Sticker")
                    None (JS.VString "5") Sample.ana Sample.ana
                    eq_refl eq_refl eq_refl) Hs).
Defined.

(** C7 fails on the code: a price of -5 is of numeric type, the request is
    answered with the created item, and the store holds an item priced below
    zero. *)
Lemma negative_price_accepted :
  map Server.status (snd (Server.run empty_store Sample.negative_price)) = [200; 200]
  /\ map StoreItem.price (storeItems (fst (Server.run empty_store Sample.negative_price)))
     = [(-5)%float]
  /\ ((-5) <? 0)%float = true
  /\ Server.reachable (fst (Server.run empty_store Sample.negative_price)).
Proof.
  split; [reflexivity|]. split; [reflexivity|]. split; [reflexivity|].
  apply run_reachable. constructor.
Qed.

(* ================================================================== *)
(** * Binary64 addition of a value that is not negative *)
(* ================================================================== *)

Lemma SFcompare_refl_not_Lt (s : spec_float) : SFcompare s s <> Some Lt.
Proof.
  destruct s as [sg|sg| |sg m e]; simpl; try discriminate.
  - destruct sg; discriminate.
  - rewrite Z.compare_refl.
    change (Pos.compare_cont Eq m m) with (Pos.compare m m).
    rewrite Pos.compare_refl. destruct sg; discriminate.
Qed.

(** No binary64 value, NaN and the infinities included, is below itself. *)
Lemma ltb_irrefl (x : float) : (x <? x)%float = false.
Proof.
  rewrite ltb_spec. unfold SFltb.
  pose proof (SFcompare_refl_not_Lt (Prim2SF x)) as H.
  destruct (SFcompare (Prim2SF x) (Prim2SF x)) as [[]|]; congruence.
Qed.

Section Binary64.

Local Open Scope Z_scope.

(** The number of binary digits of a mantissa, through [Z.log2]. *)
Lemma digits2_pos_size (m : positive) : digits2_pos m = Pos.size m.
Proof. induction m; simpl; congruence. Qed.

Lemma digits2_log2 (m : positive) : Zpos (digits2_pos m) = Z.log2 (Zpos m) + 1.
Proof.
  rewrite digits2_pos_size. destruct m; simpl; try reflexivity; lia.
Qed.

Lemma Zdigits2_nonneg (m : Z) : 0 <= m -> Zdigits2 m = if m =? 0 then 0 else Z.log2 m + 1.
Proof.
  destruct m; simpl; intros; try lia. apply digits2_log2.
Qed.

Lemma Zdigits2_le (m n : Z) : 0 <= m <= n -> Zdigits2 m <= Zdigits2 n.
Proof.
  intros H. rewrite !Zdigits2_nonneg by lia.
  destruct (Z.eqb_spec m 0), (Z.eqb_spec n 0); try lia.
  - pose proof (Z.log2_nonneg n). lia.
  - pose proof (Z.log2_le_mono m n). lia.
Qed.

Lemma Zdigits2_mul_pow2 (m k : Z) : 0 < m -> 0 <= k -> Zdigits2 (m * 2 ^ k) = Zdigits2 m + k.
Proof.
  intros Hm Hk. assert (0 < m * 2 ^ k) by (apply Z.mul_pos_pos; [lia | apply Z.pow_pos_nonneg; lia]).
  rewrite !Zdigits2_nonneg by lia.
  destruct (Z.eqb_spec m 0), (Z.eqb_spec (m * 2 ^ k) 0); try lia.
  rewrite Z.log2_mul_pow2 by lia. lia.
Qed.

Lemma Zdigits2_bounds (m : Z) : 0 < m -> 2 ^ (Zdigits2 m - 1) <= m < 2 ^ Zdigits2 m.
Proof.
  intros Hm. rewrite Zdigits2_nonneg by lia.
  destruct (Z.eqb_spec m 0); [lia|].
  replace (Z.log2 m + 1 - 1) with (Z.log2 m) by lia.
  replace (Z.log2 m + 1) with (Z.succ (Z.log2 m)) by lia.
  now apply Z.log2_spec.
Qed.

Lemma fexp_le (a b : Z) : a <= b -> fexp64 a <= fexp64 b.
Proof. unfold SpecFloat.fexp. lia. Qed.

Lemma fexp_ge_emin (a : Z) : emin <= fexp64 a.
Proof. unfold SpecFloat.fexp. lia. Qed.

(** A right shift of [p] places divides the mantissa by [2 ^ p]; the two bits
    it keeps beside only matter to the rounding direction. *)
Lemma shr_1_m (mrs : shr_record) : 0 <= shr_m mrs -> shr_m (shr_1 mrs) = shr_m mrs / 2.
Proof.
  destruct mrs as [m r s]. simpl. intros Hm.
  destruct m as [|[p|p|]|p]; simpl; try lia; try reflexivity.
  - rewrite (Pos2Z.inj_xI p). apply Z.div_unique with (r := 1); lia.
  - rewrite (Pos2Z.inj_xO p). apply Z.div_unique with (r := 0); lia.
Qed.

Lemma pow2_xI (p : positive) : 2 ^ Zpos p~1 = 2 * 2 ^ Zpos p * 2 ^ Zpos p.
Proof.
  rewrite (Pos2Z.inj_xI p), Z.pow_add_r, Z.pow_1_r, Z.pow_twice_r by lia. lia.
Qed.

Lemma pow2_xO (p : positive) : 2 ^ Zpos p~0 = 2 ^ Zpos p * 2 ^ Zpos p.
Proof.
  now rewrite (Pos2Z.inj_xO p), Z.pow_twice_r.
Qed.

Lemma iter_shr_1_m (p : positive) : forall mrs,
  0 <= shr_m mrs -> shr_m (SpecFloat.iter_pos shr_1 p mrs) = shr_m mrs / 2 ^ Zpos p.
Proof.
  assert (Hpow : forall q, 0 < 2 ^ Zpos q) by (intros; apply Z.pow_pos_nonneg; lia).
  assert (Hdiv : forall m q, 0 <= m -> 0 <= m / 2 ^ Zpos q)
    by (intros; apply Z.div_pos; auto).
  induction p as [p IH|p IH|]; intros mrs Hm; cbn [SpecFloat.iter_pos].
  - assert (H1 : 0 <= shr_m (shr_1 mrs))
      by (rewrite shr_1_m by assumption; apply Z.div_pos; lia).
    assert (H2 : 0 <= shr_m (SpecFloat.iter_pos shr_1 p (shr_1 mrs)))
      by (rewrite IH by assumption; auto).
    rewrite IH, IH, shr_1_m by assumption.
    rewrite !Z.div_div by (pose proof (Hpow p); lia).
    now rewrite pow2_xI, Z.mul_assoc.
  - assert (H2 : 0 <= shr_m (SpecFloat.iter_pos shr_1 p mrs))
      by (rewrite IH by assumption; auto).
    rewrite IH, IH by assumption.
    rewrite !Z.div_div by (pose proof (Hpow p); lia).
    now rewrite pow2_xO.
  - rewrite shr_1_m by assumption. reflexivity.
Qed.

Lemma pow2_pos (k : Z) : 0 <= k -> 0 < 2 ^ k.
Proof. intros. apply Z.pow_pos_nonneg; lia. Qed.

(** The first shift of [binary_round_aux], from an exact position. *)
Lemma shr_fexp_exact (m e : Z) :
  0 <= m ->
  exists mrs,
    shr_fexp prec emax m e loc_Exact = (mrs, Z.max e (fexp64 (Zdigits2 m + e)))
    /\ shr_m mrs = m / 2 ^ (Z.max e (fexp64 (Zdigits2 m + e)) - e)
    /\ (fexp64 (Zdigits2 m + e) <= e -> mrs = Build_shr_record m false false).
Proof.
  intros Hm. unfold shr_fexp, shr. cbn [shr_record_of_loc].
  destruct (fexp64 (Zdigits2 m + e) - e) as [|p|p] eqn:Hk.
  - exists (Build_shr_record m false false).
    replace (Z.max e (fexp64 (Zdigits2 m + e))) with e by lia.
    rewrite Z.sub_diag, Z.pow_0_r, Z.div_1_r. auto.
  - exists (SpecFloat.iter_pos shr_1 p (Build_shr_record m false false)).
    replace (Z.max e (fexp64 (Zdigits2 m + e))) with (e + Z.pos p) by lia.
    split; [reflexivity|]. split.
    + rewrite iter_shr_1_m by exact Hm. cbn [shr_m]. f_equal. f_equal. lia.
    + lia.
  - exists (Build_shr_record m false false).
    replace (Z.max e (fexp64 (Zdigits2 m + e))) with e by lia.
    rewrite Z.sub_diag, Z.pow_0_r, Z.div_1_r. auto.
Qed.

Lemma round_nearest_even_bounds (m : Z) (l : location) :
  m <= round_nearest_even m l <= m + 1.
Proof.
  unfold round_nearest_even. destruct l as [|[]]; try lia.
  destruct (Z.even m); lia.
Qed.

Lemma binary_round_aux_char (s : bool) (m e : Z) :
  0 <= m ->
  exists m2,
    m / 2 ^ (Z.max e (fexp64 (Zdigits2 m + e)) - e) <= m2
      <= m / 2 ^ (Z.max e (fexp64 (Zdigits2 m + e)) - e) + 1
    /\ (fexp64 (Zdigits2 m + e) <= e -> m2 = m)
    /\ binary_round_aux prec emax s m e loc_Exact
       = finish s m2 (Z.max e (fexp64 (Zdigits2 m + e))).
Proof.
  intros Hm. unfold binary_round_aux.
  destruct (shr_fexp_exact m e Hm) as (mrs & -> & Hmrs & Hexact).
  set (e1 := Z.max e (fexp64 (Zdigits2 m + e))) in *.
  set (m2 := round_nearest_even (shr_m mrs) (loc_of_shr_record mrs)).
  assert (Hm2 : shr_m mrs <= m2 <= shr_m mrs + 1) by apply round_nearest_even_bounds.
  assert (H0 : 0 <= shr_m mrs).
  { rewrite Hmrs. apply Z.div_pos; [lia | apply pow2_pos; lia]. }
  exists m2. split; [now rewrite <- Hmrs|]. split.
  - intros Hle. unfold m2. rewrite (Hexact Hle). reflexivity.
  - destruct (shr_fexp_exact m2 e1 ltac:(lia)) as (mrs2 & -> & Hmrs2 & _).
    unfold finish. now rewrite Hmrs2.
Qed.

(** Rounding [P * 2 ^ e]: the mantissa is brought to the exponent [t] of its
    magnitude, truncated there and possibly bumped by one, then finished. *)
Lemma binary_round_char (s : bool) (P : positive) (e : Z) :
  exists m2,
    (e <= fexp64 (Zpos (digits2_pos P) + e) ->
     Zpos P / 2 ^ (fexp64 (Zpos (digits2_pos P) + e) - e) <= m2
       <= Zpos P / 2 ^ (fexp64 (Zpos (digits2_pos P) + e) - e) + 1)
    /\ (fexp64 (Zpos (digits2_pos P) + e) <= e ->
        m2 = Zpos P * 2 ^ (e - fexp64 (Zpos (digits2_pos P) + e)))
    /\ binary_round prec emax s P e = finish s m2 (fexp64 (Zpos (digits2_pos P) + e)).
Proof.
  unfold binary_round, shl_align.
  set (t := fexp64 (Zpos (digits2_pos P) + e)).
  destruct (t - e) as [|d|d] eqn:Hd.
  - destruct (binary_round_aux_char s (Zpos P) e ltac:(lia)) as (m2 & Hb & Hex & ->).
    cbn [Zdigits2] in *. fold t in Hb, Hex |- *.
    replace (Z.max e t) with t in * by lia. rewrite Hd in Hb.
    exists m2. split; [auto|]. split; [|reflexivity].
    intros _. replace (e - t) with 0 by lia. rewrite Hex by lia. lia.
  - destruct (binary_round_aux_char s (Zpos P) e ltac:(lia)) as (m2 & Hb & Hex & ->).
    cbn [Zdigits2] in *. fold t in Hb, Hex |- *.
    replace (Z.max e t) with t in * by lia. rewrite Hd in Hb.
    exists m2. split; [auto|]. split; [lia | reflexivity].
  - assert (Hmz : Zpos (Pos.iter xO P d) = Zpos P * 2 ^ Zpos d).
    { change (Pos.iter xO P d) with (shift_pos d P).
      rewrite shift_pos_correct. rewrite Z.pow_pos_fold. lia. }
    destruct (binary_round_aux_char s (Zpos (Pos.iter xO P d)) t ltac:(lia))
      as (m2 & _ & Hex & ->).
    assert (Hdig : Zdigits2 (Zpos (Pos.iter xO P d)) + t = Zpos (digits2_pos P) + e).
    { rewrite Hmz, Zdigits2_mul_pow2 by lia. cbn [Zdigits2]. lia. }
    rewrite Hdig in *. fold t in Hex |- *.
    replace (Z.max t t) with t by lia.
    exists m2. split; [lia|]. split; [|reflexivity].
    intros _. rewrite Hex by lia. rewrite Hmz. f_equal. f_equal. lia.
Qed.

Lemma finish_cases (s : bool) (m2 t : Z) :
  0 <= m2 ->
  finish s m2 t = S754_zero s
  \/ finish s m2 t = S754_infinity s
  \/ exists p,
       finish s m2 t = S754_finite s p (Z.max t (fexp64 (Zdigits2 m2 + t)))
       /\ Zpos p = m2 / 2 ^ (Z.max t (fexp64 (Zdigits2 m2 + t)) - t).
Proof.
  intros Hm. unfold finish.
  assert (H : 0 <= m2 / 2 ^ (Z.max t (fexp64 (Zdigits2 m2 + t)) - t))
    by (apply Z.div_pos; [lia | apply pow2_pos; lia]).
  destruct (m2 / 2 ^ (Z.max t (fexp64 (Zdigits2 m2 + t)) - t)) as [|p|p]; [auto | | lia].
  destruct (Z.max t (fexp64 (Zdigits2 m2 + t)) <=? emax - prec); eauto.
Qed.

Lemma div_pow2_fexp_pos (m t : Z) :
  0 < m -> emin <= t ->
  0 < m / 2 ^ (Z.max t (fexp64 (Zdigits2 m + t)) - t).
Proof.
  intros Hm Ht. destruct (Zdigits2_bounds m Hm) as [Hlo _].
  assert (Hd : 1 <= Zdigits2 m).
  { rewrite Zdigits2_nonneg by lia. destruct (Z.eqb_spec m 0); [lia|].
    pose proof (Z.log2_nonneg m). lia. }
  assert (Hk : 0 <= Z.max t (fexp64 (Zdigits2 m + t)) - t <= Zdigits2 m - 1).
  { assert (1 <= prec) by (unfold prec; lia). unfold SpecFloat.fexp. lia. }
  apply Z.div_str_pos. split; [apply pow2_pos; lia|].
  apply Z.le_trans with (2 ^ (Zdigits2 m - 1)); [|exact Hlo].
  apply Z.pow_le_mono_r; lia.
Qed.

(** Rounding compared with a valid finite operand [(me, ee)]. *)
Section AgainstOperand.

Variables (me : positive) (ee : Z).
Hypothesis canonical : fexp64 (Zpos (digits2_pos me) + ee) = ee.
Hypothesis in_range : ee <= emax - prec.

Lemma round_up_not_below (P : positive) (e : Z) :
  emin <= e <= ee ->
  Zpos me * 2 ^ (ee - e) <= Zpos P ->
  SFcompare (binary_round prec emax false P e) (S754_finite false me ee) <> Some Lt.
Proof.
  intros He HP.
  destruct (binary_round_char false P e) as (m2 & Hup & _ & ->).
  set (t := fexp64 (Zpos (digits2_pos P) + e)) in *.
  assert (Hpow : 0 < 2 ^ (ee - e)) by (apply pow2_pos; lia).
  assert (Ht : ee <= t).
  { rewrite <- canonical. apply fexp_le.
    pose proof (Zdigits2_le (Zpos me * 2 ^ (ee - e)) (Zpos P) ltac:(lia)) as Hd.
    rewrite Zdigits2_mul_pow2 in Hd by lia. cbn [Zdigits2] in Hd. lia. }
  specialize (Hup ltac:(lia)).
  assert (Hm1 : 0 < Zpos P / 2 ^ (t - e)).
  { pose proof (div_pow2_fexp_pos (Zpos P) e ltac:(lia) ltac:(lia)) as H.
    cbn [Zdigits2] in H. fold t in H. now replace (Z.max e t) with t in H by lia. }
  destruct (finish_cases false m2 t ltac:(lia)) as [E | [E | (p & E & Hp)]]; rewrite E.
  - exfalso. unfold finish in E.
    pose proof (div_pow2_fexp_pos m2 t ltac:(lia) ltac:(lia)) as H.
    destruct (m2 / 2 ^ (Z.max t (fexp64 (Zdigits2 m2 + t)) - t)); try lia.
    destruct (_ <=? _); discriminate.
  - discriminate.
  - cbn [SFcompare].
    destruct (Z.compare_spec (Z.max t (fexp64 (Zdigits2 m2 + t))) ee) as [He3|He3|He3];
      [| lia | discriminate].
    assert (Hte : t = ee) by lia.
    rewrite He3 in Hp. replace (ee - t) with 0 in Hp by lia.
    rewrite Z.pow_0_r, Z.div_1_r in Hp.
    assert (Zpos me <= Zpos p).
    { rewrite Hp. apply Z.le_trans with (Zpos P / 2 ^ (ee - e)).
      - apply Z.div_le_lower_bound; lia.
      - rewrite <- Hte. lia. }
    change (Pos.compare_cont Eq p me) with (Pos.compare p me).
    destruct (Pos.compare_spec p me); try discriminate. lia.
Qed.

Lemma round_down_not_above (P : positive) (e : Z) :
  emin <= e <= ee ->
  Zpos P < Zpos me * 2 ^ (ee - e) ->
  SFcompare (binary_round prec emax true P e) (S754_finite true me ee) <> Some Lt.
Proof.
  intros He HP.
  destruct (binary_round_char true P e) as (m2 & Hup & Hdown & ->).
  set (t := fexp64 (Zpos (digits2_pos P) + e)) in *.
  assert (Hpow : 0 < 2 ^ (ee - e)) by (apply pow2_pos; lia).
  assert (Ht : t <= ee).
  { rewrite <- canonical. apply fexp_le.
    pose proof (Zdigits2_le (Zpos P) (Zpos me * 2 ^ (ee - e)) ltac:(lia)) as Hd.
    rewrite Zdigits2_mul_pow2 in Hd by lia. cbn [Zdigits2] in Hd. lia. }
  assert (Hemin : emin <= t) by apply fexp_ge_emin.
  assert (HN : 0 < 2 ^ (ee - t)) by (apply pow2_pos; lia).
  assert (Hm2 : 0 <= m2 <= Zpos me * 2 ^ (ee - t)).
  { destruct (Z.le_ge_cases e t) as [Hle | Hge].
    - specialize (Hup Hle).
      assert (0 < 2 ^ (t - e)) by (apply pow2_pos; lia).
      assert (0 <= Zpos P / 2 ^ (t - e)) by (apply Z.div_pos; lia).
      assert (Zpos P / 2 ^ (t - e) < Zpos me * 2 ^ (ee - t)); [|lia].
      apply Z.div_lt_upper_bound; [lia|].
      replace (2 ^ (t - e) * (Zpos me * 2 ^ (ee - t)))
        with (Zpos me * (2 ^ (ee - t) * 2 ^ (t - e))) by lia.
      rewrite <- Z.pow_add_r by lia. now replace (ee - t + (t - e)) with (ee - e) by lia.
    - specialize (Hdown Hge). subst m2.
      assert (0 < 2 ^ (e - t)) by (apply pow2_pos; lia).
      split; [lia|].
      replace (ee - t) with (ee - e + (e - t)) by lia.
      rewrite Z.pow_add_r by lia. rewrite Z.mul_assoc.
      apply Z.mul_le_mono_nonneg_r; lia. }
  assert (He3 : Z.max t (fexp64 (Zdigits2 m2 + t)) <= ee).
  { apply Z.max_lub; [exact Ht|]. rewrite <- canonical. apply fexp_le.
    pose proof (Zdigits2_le m2 (Zpos me * 2 ^ (ee - t)) Hm2) as Hd.
    rewrite Zdigits2_mul_pow2 in Hd by lia. cbn [Zdigits2] in Hd. lia. }
  destruct (finish_cases true m2 t ltac:(lia)) as [E | [E | (p & E & Hp)]].
  - rewrite E. discriminate.
  - exfalso. unfold finish in E.
    destruct (m2 / 2 ^ (Z.max t (fexp64 (Zdigits2 m2 + t)) - t)); try discriminate.
    destruct (Z.leb_spec (Z.max t (fexp64 (Zdigits2 m2 + t))) (emax - prec));
      [discriminate | lia].
  - rewrite E. cbn [SFcompare].
    destruct (Z.compare_spec (Z.max t (fexp64 (Zdigits2 m2 + t))) ee) as [He3'|He3'|He3'];
      [| discriminate | lia].
    rewrite He3' in Hp.
    assert (Zpos p <= Zpos me).
    { rewrite Hp. apply Z.le_trans with (Zpos me * 2 ^ (ee - t) / 2 ^ (ee - t)).
      - apply Z.div_le_mono; lia.
      - rewrite Z.div_mul by lia. lia. }
    change (Pos.compare_cont Eq p me) with (Pos.compare p me).
    destruct (Pos.compare_spec p me); simpl; try discriminate. lia.
Qed.

Lemma round_positive_not_below_negative (P : positive) (e : Z) :
  SFcompare (binary_round prec emax false P e) (S754_finite true me ee) <> Some Lt.
Proof.
  destruct (binary_round_char false P e) as (m2 & Hup & Hdown & ->).
  set (t := fexp64 (Zpos (digits2_pos P) + e)) in *.
  assert (Hm2 : 0 <= m2).
  { destruct (Z.le_ge_cases e t) as [Hle | Hge].
    - specialize (Hup Hle).
      assert (0 <= Zpos P / 2 ^ (t - e)); [|lia].
      apply Z.div_pos; [lia | apply pow2_pos; lia].
    - rewrite (Hdown Hge). apply Z.mul_nonneg_nonneg; [lia|].
      apply Z.lt_le_incl, pow2_pos. lia. }
  destruct (finish_cases false m2 t Hm2) as [E | [E | (p & E & _)]]; rewrite E;
    discriminate.
Qed.

End AgainstOperand.

Lemma shl_align_fst (m : positive) (e ez : Z) :
  ez <= e -> Zpos (fst (shl_align m e ez)) = Zpos m * 2 ^ (e - ez).
Proof.
  intros Hle. unfold shl_align. destruct (ez - e) as [|d|d] eqn:Hd; cbn [fst].
  - replace (e - ez) with 0 by lia. lia.
  - lia.
  - change (Pos.iter xO m d) with (shift_pos d m).
    rewrite shift_pos_correct, Z.pow_pos_fold. replace (e - ez) with (Zpos d) by lia. lia.
Qed.

Lemma valid_finite (s : bool) (m : positive) (e : Z) :
  valid_binary (S754_finite s m e) = true ->
  fexp64 (Zpos (digits2_pos m) + e) = e /\ e <= emax - prec.
Proof.
  cbn [SpecFloat.valid_binary]. unfold bounded, canonical_mantissa.
  rewrite andb_true_iff, Z.eqb_eq, Z.leb_le. auto.
Qed.

(** On specification floats: adding [X], not below zero, to [E] gives a sum
    that does not compare below [E]. *)
Lemma SFadd_not_below (E X : spec_float) :
  valid_binary E = true ->
  valid_binary X = true ->
  SFltb X (S754_zero false) = false ->
  SFltb (SFadd prec emax E X) E = false.
Proof.
  intros HE HX Hx.
  assert (Hgoal : SFcompare (SFadd prec emax E X) E <> Some Lt);
    [|unfold SFltb; destruct (SFcompare (SFadd prec emax E X) E) as [[]|]; congruence].
  destruct X as [sx|sx| |sx mx ex].
  - destruct E as [se|se| |se me ee]; cbn [SFadd];
      try apply SFcompare_refl_not_Lt; try discriminate; destruct se, sx; discriminate.
  - destruct sx; [discriminate Hx|].
    destruct E as [se|se| |se me ee]; cbn [SFadd]; try discriminate;
      destruct se; discriminate.
  - destruct E; discriminate.
  - destruct sx; [discriminate Hx|].
    destruct E as [se|se| |se me ee]; cbn [SFadd]; try discriminate;
      try apply SFcompare_refl_not_Lt.
    destruct (valid_finite _ _ _ HE) as [Hce Hre].
    destruct (valid_finite _ _ _ HX) as [Hcx Hrx].
    assert (Hmin : emin <= Z.min ee ex <= ee).
    { pose proof (fexp_ge_emin (Zpos (digits2_pos me) + ee)).
      pose proof (fexp_ge_emin (Zpos (digits2_pos mx) + ex)). lia. }
    rewrite !shl_align_fst by lia.
    assert (HA : 0 < 2 ^ (ee - Z.min ee ex)) by (apply pow2_pos; lia).
    assert (HB : 0 < 2 ^ (ex - Z.min ee ex)) by (apply pow2_pos; lia).
    assert (HB' : 0 < Zpos mx * 2 ^ (ex - Z.min ee ex)) by lia.
    destruct se; cbn [cond_Zopp].
    + destruct (- (Zpos me * 2 ^ (ee - Z.min ee ex)) + Zpos mx * 2 ^ (ex - Z.min ee ex))
        as [|P|P] eqn:HM; cbn [binary_normalize].
      * discriminate.
      * apply round_positive_not_below_negative.
      * apply round_down_not_above; auto. lia.
    + destruct (Zpos me * 2 ^ (ee - Z.min ee ex) + Zpos mx * 2 ^ (ex - Z.min ee ex))
        as [|P|P] eqn:HM; cbn [binary_normalize]; try lia.
      apply round_up_not_below; auto. lia.
Qed.

(** Adding a value that is not negative never yields a smaller value. *)
Theorem add_not_negative_not_below (e x : float) :
  (x <? 0)%float = false -> (e + x <? e)%float = false.
Proof.
  intros Hx. rewrite ltb_spec in Hx |- *. rewrite add_spec. unfold SF64add.
  apply SFadd_not_below; try apply Prim2SF_valid. exact Hx.
Qed.

(** ** Counting in binary64 *)

Lemma shr_1_double (m : Z) :
  0 <= m -> shr_1 (Build_shr_record (2 * m) false false) = Build_shr_record m false false.
Proof. intros H. destruct m as [|p|p]; [reflexivity | reflexivity | lia]. Qed.

Lemma iter_shr_1_exact (p : positive) : forall m,
  0 <= m ->
  SpecFloat.iter_pos shr_1 p (Build_shr_record (m * 2 ^ Zpos p) false false)
  = Build_shr_record m false false.
Proof.
  assert (Hpow : forall q, 0 < 2 ^ Zpos q) by (intros; apply Z.pow_pos_nonneg; lia).
  induction p as [p IH|p IH|]; intros m Hm; cbn [SpecFloat.iter_pos].
  - replace (m * 2 ^ Zpos p~1) with (2 * ((m * 2 ^ Zpos p) * 2 ^ Zpos p))
      by (rewrite pow2_xI; ring).
    pose proof (Hpow p).
    rewrite shr_1_double, IH, IH by nia. reflexivity.
  - replace (m * 2 ^ Zpos p~0) with ((m * 2 ^ Zpos p) * 2 ^ Zpos p)
      by (rewrite pow2_xO; ring).
    pose proof (Hpow p). rewrite IH, IH by nia. reflexivity.
  - replace (m * 2 ^ 1) with (2 * m) by lia. now apply shr_1_double.
Qed.

Lemma fexp64_53 (t : Z) : emin <= t -> fexp64 (prec + t) = t.
Proof. unfold SpecFloat.fexp. intros H. fold emin. lia. Qed.

(** Rounding a value that a 53-digit mantissa holds exactly. *)
Lemma binary_round_exact (P m : positive) (e t : Z) :
  Zpos (digits2_pos m) = prec ->
  emin <= t <= emax - prec ->
  (t <= e /\ Zpos m = Zpos P * 2 ^ (e - t)) \/ (e < t /\ Zpos P = Zpos m * 2 ^ (t - e)) ->
  binary_round prec emax false P e = S754_finite false m t.
Proof.
  intros Hm Ht Hval.
  assert (Hdig : Zpos (digits2_pos P) + e = prec + t).
  { destruct Hval as [[Hle E] | [Hlt E]].
    - change (Zpos (digits2_pos m)) with (Zdigits2 (Zpos m)) in Hm.
      rewrite E, Zdigits2_mul_pow2 in Hm by lia. cbn [Zdigits2] in Hm. lia.
    - change (Zpos (digits2_pos P)) with (Zdigits2 (Zpos P)).
      rewrite E, Zdigits2_mul_pow2 by lia. cbn [Zdigits2]. lia. }
  assert (Hfexp : fexp64 (Zpos (digits2_pos P) + e) = t)
    by (rewrite Hdig; apply fexp64_53; lia).
  assert (Hfin : finish false (Zpos m) t = S754_finite false m t).
  { unfold finish. cbn [Zdigits2]. rewrite Hm, fexp64_53 by lia.
    replace (Z.max t t - t) with 0 by lia. rewrite Z.pow_0_r, Z.div_1_r.
    replace (Z.max t t) with t by lia.
    destruct (Z.leb_spec t (emax - prec)); [reflexivity | lia]. }
  destruct Hval as [[Hle E] | [Hlt E]].
  - destruct (binary_round_char false P e) as (m2 & _ & Hex & ->).
    rewrite Hfexp in *. rewrite (Hex Hle), <- E. exact Hfin.
  - unfold binary_round, shl_align. rewrite Hfexp.
    destruct (t - e) as [|d|d] eqn:Hd; try lia.
    unfold binary_round_aux, shr_fexp. cbn [Zdigits2 shr_record_of_loc].
    rewrite Hfexp, Hd. cbn [shr]. rewrite E, iter_shr_1_exact by lia.
    cbn [shr_m loc_of_shr_record round_nearest_even Zdigits2 shr_record_of_loc].
    replace (e + Zpos d) with t by lia.
    rewrite Hm, fexp64_53 by lia. rewrite Z.sub_diag. cbn [shr shr_m].
    destruct (Z.leb_spec t (emax - prec)); [reflexivity | lia].
Qed.

(** The binary64 form of [k * 2 ^ (-j)] for an integer [k] below 2^53. *)
Lemma binary_round_integer (k j : Z) (P : positive) :
  0 < k < 2 ^ 53 -> 0 <= j <= 52 ->
  Zpos P = k * 2 ^ j ->
  binary_round prec emax false P (- j)
  = S754_finite false (Z.to_pos (k * 2 ^ (53 - Zdigits2 k))) (Zdigits2 k - 53).
Proof.
  intros Hk Hj HP.
  pose proof (Zdigits2_bounds k ltac:(lia)) as Hb.
  assert (Hd : 1 <= Zdigits2 k <= 53).
  { split.
    - destruct (Z_lt_le_dec (Zdigits2 k) 1) as [H|H]; [|exact H].
      assert (2 ^ Zdigits2 k <= 2 ^ 0).
      { destruct (Z_lt_le_dec (Zdigits2 k) 0).
        - rewrite Z.pow_neg_r by lia. simpl. lia.
        - apply Z.pow_le_mono_r; lia. }
      simpl in *. lia.
    - destruct (Z_lt_le_dec 53 (Zdigits2 k)) as [H|H]; [|exact H].
      assert (2 ^ 53 <= 2 ^ (Zdigits2 k - 1)) by (apply Z.pow_le_mono_r; lia). lia. }
  assert (Hpos : 0 < k * 2 ^ (53 - Zdigits2 k)).
  { apply Z.mul_pos_pos; [lia | apply pow2_pos; lia]. }
  assert (Hm : Zpos (Z.to_pos (k * 2 ^ (53 - Zdigits2 k))) = k * 2 ^ (53 - Zdigits2 k))
    by (apply Z2Pos.id; exact Hpos).
  apply binary_round_exact.
  - change (Zpos (digits2_pos ?p)) with (Zdigits2 (Zpos p)).
    rewrite Hm, Zdigits2_mul_pow2 by lia. unfold prec. lia.
  - unfold emin, emax, prec. lia.
  - rewrite Hm, HP. destruct (Z_le_gt_dec (Zdigits2 k - 53) (- j)) as [Hle | Hgt].
    + left. split; [exact Hle|].
      rewrite <- Z.mul_assoc, <- Z.pow_add_r by lia. f_equal. f_equal. lia.
    + right. split; [lia|].
      rewrite <- Z.mul_assoc, <- Z.pow_add_r by lia. f_equal. f_equal. lia.
Qed.

Lemma number_of_SF (k : Z) :
  0 < k < 2 ^ 53 ->
  Prim2SF (number_of k)
  = S754_finite false (Z.to_pos (k * 2 ^ (53 - Zdigits2 k))) (Zdigits2 k - 53).
Proof.
  intros Hk. unfold number_of. rewrite of_uint63_spec, Uint63.of_Z_spec.
  rewrite Z.mod_small by (unfold Uint63.wB, Uint63.size; simpl; lia).
  destruct k as [|P|P]; try lia. cbn [binary_normalize].
  apply (binary_round_integer (Zpos P) 0 P); [lia | lia | lia].
Qed.

(** Below 2^53 a counter counts exactly. *)
Lemma number_of_succ (k : Z) :
  0 <= k < 2 ^ 53 -> (number_of k + 1)%float = number_of (k + 1).
Proof.
  intros Hk.
  destruct (Z.eq_dec k 0) as [-> | H0]; [reflexivity|].
  destruct (Z.eq_dec k (2 ^ 53 - 1)) as [-> | Hlast]; [reflexivity|].
  apply Prim2SF_inj. rewrite add_spec, !number_of_SF by lia.
  change (Prim2SF 1) with (S754_finite false 4503599627370496 (-52)).
  pose proof (Zdigits2_bounds k ltac:(lia)) as Hb.
  assert (Hd : 1 <= Zdigits2 k <= 53).
  { split.
    - destruct (Z_lt_le_dec (Zdigits2 k) 1) as [H|H]; [|exact H].
      assert (2 ^ Zdigits2 k <= 2 ^ 0).
      { destruct (Z_lt_le_dec (Zdigits2 k) 0).
        - rewrite Z.pow_neg_r by lia. simpl. lia.
        - apply Z.pow_le_mono_r; lia. }
      simpl in *. lia.
    - destruct (Z_lt_le_dec 53 (Zdigits2 k)) as [H|H]; [|exact H].
      assert (2 ^ 53 <= 2 ^ (Zdigits2 k - 1)) by (apply Z.pow_le_mono_r; lia). lia. }
  assert (Hpos : 0 < k * 2 ^ (53 - Zdigits2 k)).
  { apply Z.mul_pos_pos; [lia | apply pow2_pos; lia]. }
  unfold SF64add. cbn [SFadd cond_Zopp].
  replace (Z.min (Zdigits2 k - 53) (-52)) with (-52) by lia.
  rewrite !shl_align_fst by lia.
  rewrite Z2Pos.id by exact Hpos.
  replace (k * 2 ^ (53 - Zdigits2 k) * 2 ^ (Zdigits2 k - 53 - -52)
           + 4503599627370496 * 2 ^ (-52 - -52))
    with ((k + 1) * 2 ^ 52).
  2:{ rewrite <- Z.mul_assoc, <- Z.pow_add_r by lia.
      replace (53 - Zdigits2 k + (Zdigits2 k - 53 - -52)) with 52 by lia.
      replace (-52 - -52) with 0 by lia. change (2 ^ 52) with 4503599627370496. lia. }
  destruct ((k + 1) * 2 ^ 52) as [|P|P] eqn:HP; try (change (2 ^ 52) with 4503599627370496 in HP; lia).
  cbn [binary_normalize].
  apply (binary_round_integer (k + 1) 52 P); [lia | lia | lia].
Qed.

End Binary64.

(* ================================================================== *)
(** * Referral earnings *)
(* ================================================================== *)

Section UpdateFirst.

Context {A : Type} (test : A -> bool) (upd : A -> A).

Lemma find_update_first (l : list A) (x : A) :
  find test l = Some x ->
  test (upd x) = true ->
  find test (Models.update_first test upd l) = Some (upd x).
Proof.
  intros Hfind Hupd. induction l as [|a l IH]; simpl in *; [discriminate|].
  destruct (test a) eqn:Ha.
  - inversion Hfind; subst. simpl. now rewrite Hupd.
  - simpl. rewrite Ha. auto.
Qed.

Lemma update_first_not_found (l : list A) :
  find test l = None -> Models.update_first test upd l = l.
Proof.
  induction l as [|a l IH]; simpl; [reflexivity|].
  destruct (test a); [discriminate|]. intros H. now rewrite IH.
Qed.

(** The element updated is the first the test accepts. *)
Lemma update_first_at_first (l : list A) (i : nat) (x : A) :
  nth_error l i = Some x ->
  test x = true ->
  (forall j y, j < i -> nth_error l j = Some y -> test y = false) ->
  nth_error (Models.update_first test upd l) i = Some (upd x)
  /\ find test l = Some x.
Proof.
  revert i. induction l as [|a l IH]; intros [|i] H Hx Hbefore; simpl in *;
    try discriminate.
  - inversion H; subst. now rewrite Hx.
  - rewrite (Hbefore 0 a ltac:(lia) eq_refl). simpl.
    apply IH; [exact H | exact Hx|].
    intros j y Hj Hy. apply (Hbefore (S j) y); [lia | exact Hy].
Qed.

Lemma nth_error_update_first (l : list A) (i : nat) (x : A) :
  nth_error l i = Some x ->
  exists x', nth_error (Models.update_first test upd l) i = Some x'
             /\ (x' = x \/ (test x = true /\ x' = upd x)).
Proof.
  revert i. induction l as [|a l IH]; intros [|i] H; simpl in *; try discriminate.
  - inversion H; subst. destruct (test x) eqn:Hx; simpl; eauto.
  - destruct (test a); simpl; eauto.
Qed.

End UpdateFirst.

(** The record an earn request is served with, and the store it leaves. *)
Lemma earn_known_code (st : Store) (code : string) (ref : Referral.t) (a : float) :
  Models.getReferralByCode st code = Some ref ->
  let ref' :=
    Referral.with_earnings ref
      (Referral.earnings ref + a * Referral.commission ref)%float in
  snd (Server.post_referral_earn st code (JS.VNumber a))
  = Server.json (Server.PReferral ref')
  /\ Models.getReferralByCode
       (fst (Server.post_referral_earn st code (JS.VNumber a))) code
     = Some ref'.
Proof.
  intros Hfind ref'. unfold Server.post_referral_earn, Models.addReferralEarning.
  cbn [JS.typeof String.eqb negb].
  replace (String.eqb "number" "number") with true by reflexivity. cbn [negb].
  unfold Models.getReferralByCode in *. rewrite Hfind. cbn [fst snd].
  split; [reflexivity|].
  unfold Models.set_referrals. cbn [referrals].
  apply (find_update_first
           (fun r => String.eqb (Referral.code r) code)
           (fun r => Referral.with_earnings r
                       (Referral.earnings r + a * Referral.commission r)%float)
           _ ref Hfind).
  destruct (find_some _ _ Hfind) as [_ Hcode]. exact Hcode.
Qed.

Lemma recordEarnings_accumulated (code : string) (amounts : list float) :
  forall (st : Store) (ref : Referral.t),
    Models.getReferralByCode st code = Some ref ->
    Models.getReferralByCode (recordEarnings code amounts st) code
    = Some (Referral.with_earnings ref
              (Spec.accumulated (Referral.commission ref) (Referral.earnings ref)
                                amounts)).
Proof.
  induction amounts as [|a amounts IH]; intros st ref Hfind.
  - simpl. rewrite Hfind. now destruct ref.
  - simpl. destruct (earn_known_code st code ref a Hfind) as [_ Hnext].
    rewrite (IH _ _ Hnext). reflexivity.
Qed.

(** C3, as the code has it. For a referral code with commission [m], after
    any sequence of recordEarning calls with amounts a1, a2, ..., the
    earnings field is the binary64 accumulation ((e0 + a1*m) + a2*m) + ...
    taken in the order of the calls, every product and sum rounded; all other
    fields are as before.  Each call with a known code and a numeric amount
    adds amount * commission and returns the updated record; an unknown code
    fails with NotFound and an amount that is not a number with
    InvalidInput. *)
Theorem recordEarning_accumulates_in_call_order (st : Store) (code : string)
  (ref : Referral.t) (amounts : list float) :
  Models.getReferralByCode st code = Some ref ->
  Models.getReferralByCode (recordEarnings code amounts st) code
  = Some (Referral.with_earnings ref
            (Spec.accumulated (Referral.commission ref) (Referral.earnings ref) amounts))
  /\ (forall a,
        snd (Server.post_referral_earn st code (JS.VNumber a))
        = Server.json
            (Server.PReferral
               (Referral.with_earnings ref
                  (Referral.earnings ref + a * Referral.commission ref)%float))
        /\ Models.getReferralByCode
             (fst (Server.post_referral_earn st code (JS.VNumber a))) code
           = Some (Referral.with_earnings ref
                     (Referral.earnings ref + a * Referral.commission ref)%float))
  /\ (forall st0 code0 a,
        Models.getReferralByCode st0 code0 = None ->
        Spec.fails_with st0 Server.NotFound
          (Server.post_referral_earn st0 code0 (JS.VNumber a)))
  /\ (forall st0 code0 v,
        (forall x, v <> JS.VNumber x) ->
        Spec.fails_with st0 Server.InvalidInput (Server.post_referral_earn st0 code0 v)).
Proof.
  intros Hfind. split; [now apply recordEarnings_accumulated|].
  split; [intros a; exact (earn_known_code st code ref a Hfind)|]. split.
  - intros st0 code0 a Hnone.
    unfold Server.post_referral_earn, Models.addReferralEarning.
    cbn [JS.typeof]. replace (String.eqb "number" "number") with true by reflexivity.
    cbn [negb]. unfold Models.getReferralByCode in Hnone. rewrite Hnone. now split.
  - intros st0 code0 v Hv. unfold Server.post_referral_earn.
    destruct v; try (now split). now elim (Hv x).
Qed.

Lemma recordEarning_accumulates_in_call_order_witness :
  earningsOf (recordEarnings "REF1" [100; 40]%float (Sample.one_code 0.25)) "REF1"
  = Some 35%float.
Proof.
  unfold earningsOf.
  rewrite (proj1 (recordEarning_accumulates_in_call_order (Sample.one_code 0.25)
                    "REF1" (Sample.REF1 0.25) [100; 40]%float eq_refl)).
  reflexivity.
Defined.

(** C3 fails on the code: with commission 0.1 the amounts 1, 2, 3 leave
    earnings 0.6000000000000001, and the same amounts recorded as 3, 2, 1
    leave 0.6. *)
Lemma earnings_depend_on_call_order :
  Permutation [1; 2; 3]%float [3; 2; 1]%float
  /\ earningsOf (recordEarnings "REF1" [1; 2; 3]%float (Sample.one_code 0.1)) "REF1"
     = Some 0.6000000000000001%float
  /\ earningsOf (recordEarnings "REF1" [3; 2; 1]%float (Sample.one_code 0.1)) "REF1"
     = Some 0.6%float
  /\ (0.6000000000000001 =? 0.6)%float = false.
Proof.
  split.
  - apply Permutation_sym. change [1; 2; 3]%float with (rev [3; 2; 1]%float).
    apply Permutation_rev.
  - split; [reflexivity|]. split; reflexivity.
Qed.

(** What a request can do to the referral collection. *)
Lemma handle_referrals (st : Store) (env : Env) (session : option string)
  (r : Server.request) :
  referrals (fst (Server.handle st env session r)) = referrals st
  \/ (exists ref,
        referrals (fst (Server.handle st env session r)) = referrals st ++ [ref]
        /\ Referral.earnings ref = 0%float)
  \/ (exists code,
        r = Server.ReferralSignup code
        /\ referrals (fst (Server.handle st env session r))
           = Models.update_first
               (fun x => String.eqb (Referral.code x) code)
               (fun x => Referral.with_signups x (Referral.signups x + 1)%float)
               (referrals st))
  \/ (exists code a,
        r = Server.ReferralEarn code (JS.VNumber a)
        /\ referrals (fst (Server.handle st env session r))
           = Models.update_first
               (fun x => String.eqb (Referral.code x) code)
               (fun x => Referral.with_earnings x
                           (Referral.earnings x + a * Referral.commission x)%float)
               (referrals st)).
Proof.
  destruct r; handler_cases; cbn;
    first [ left; reflexivity
          | right; left; eexists; split; reflexivity
          | right; right; left; eexists; split; reflexivity
          | right; right; right; eexists; eexists; split; reflexivity ].
Qed.

(** C4, as the code has it. Every Referral record stays in place with its code
    and commission.  An operation other than recordEarning leaves its earnings
    as they were.  A recordEarning call accepts every amount of numeric type,
    negative ones included: on the record its code resolves to, the first
    that carries the code, it replaces the earnings by
    earnings + amount * commission and answers with the updated record; every
    other record it leaves as it was.  So the earnings of a record are made
    smaller by no operation except a recordEarning call for its code whose
    amount * commission is negative. *)
Theorem earnings_lowered_only_by_negative_earning (st : Store) (env : Env)
  (session : option string) (r : Server.request) (i : nat) (ref : Referral.t) :
  nth_error (referrals st) i = Some ref ->
  (forall a,
     (forall j earlier,
         j < i -> nth_error (referrals st) j = Some earlier ->
         Referral.code earlier <> Referral.code ref) ->
     Server.handle st env session
                   (Server.ReferralEarn (Referral.code ref) (JS.VNumber a))
     = (Models.set_referrals st
          (Models.update_first
             (fun x => String.eqb (Referral.code x) (Referral.code ref))
             (fun x => Referral.with_earnings x
                         (Referral.earnings x + a * Referral.commission x)%float)
             (referrals st)),
        Server.json
          (Server.PReferral
             (Referral.with_earnings ref
                (Referral.earnings ref + a * Referral.commission ref)%float)))
     /\ nth_error
          (referrals
             (fst (Server.handle st env session
                     (Server.ReferralEarn (Referral.code ref) (JS.VNumber a)))))
          i
        = Some (Referral.with_earnings ref
                  (Referral.earnings ref + a * Referral.commission ref)%float))
  /\
  exists ref',
    nth_error (referrals (fst (Server.handle st env session r))) i = Some ref'
    /\ Referral.code ref' = Referral.code ref
    /\ Referral.commission ref' = Referral.commission ref
    /\ (Referral.earnings ref' = Referral.earnings ref
        \/ exists a,
             r = Server.ReferralEarn (Referral.code ref) (JS.VNumber a)
             /\ Models.getReferralByCode st (Referral.code ref) <> None
             /\ Referral.earnings ref'
                = (Referral.earnings ref + a * Referral.commission ref)%float)
    /\ ((forall code amount, r <> Server.ReferralEarn code amount) ->
        Referral.earnings ref' = Referral.earnings ref)
    /\ (Spec.decreased (Referral.earnings ref) (Referral.earnings ref') ->
        exists a,
          r = Server.ReferralEarn (Referral.code ref) (JS.VNumber a)
          /\ (a * Referral.commission ref <? 0)%float = true).
Proof.
  intros Hnth. split.
  { intros a Hfirst.
    destruct (update_first_at_first
                (fun x => String.eqb (Referral.code x) (Referral.code ref))
                (fun x => Referral.with_earnings x
                            (Referral.earnings x + a * Referral.commission x)%float)
                (referrals st) i ref Hnth (String.eqb_refl _)) as [Hat Hfind].
    { intros j y Hj Hy. apply String.eqb_neq. now apply (Hfirst j y). }
    assert (E : Server.handle st env session
                  (Server.ReferralEarn (Referral.code ref) (JS.VNumber a))
                = (Models.set_referrals st
                     (Models.update_first
                        (fun x => String.eqb (Referral.code x) (Referral.code ref))
                        (fun x => Referral.with_earnings x
                                    (Referral.earnings x
                                     + a * Referral.commission x)%float)
                        (referrals st)),
                   Server.json
                     (Server.PReferral
                        (Referral.with_earnings ref
                           (Referral.earnings ref
                            + a * Referral.commission ref)%float)))).
    { cbn [Server.handle]. unfold Server.post_referral_earn, Models.addReferralEarning.
      cbn [JS.typeof]. replace (String.eqb "number" "number") with true by reflexivity.
      cbn [negb]. now rewrite Hfind. }
    split; [exact E|]. rewrite E. exact Hat. }
  assert (Hsame : forall (x : float) (P : Prop), Spec.decreased x x -> P).
  { intros x P. unfold Spec.decreased. rewrite ltb_irrefl. discriminate. }
  destruct (handle_referrals st env session r)
    as [E | [(new & E & _) | [(code & Hr & E) | (code & a & Hr & E)]]]; rewrite E.
  - exists ref. repeat split; auto. apply Hsame.
  - exists ref. rewrite nth_error_app1 by (apply nth_error_Some; congruence).
    repeat split; auto. apply Hsame.
  - destruct (nth_error_update_first
                (fun x => String.eqb (Referral.code x) code)
                (fun x => Referral.with_signups x (Referral.signups x + 1)%float)
                _ _ _ Hnth) as (ref' & Hnth' & [E' | [_ E']]);
      exists ref'; subst ref'; repeat split; auto; apply Hsame.
  - destruct (nth_error_update_first
                (fun x => String.eqb (Referral.code x) code)
                (fun x => Referral.with_earnings x
                            (Referral.earnings x + a * Referral.commission x)%float)
                _ _ _ Hnth) as (ref' & Hnth' & [E' | [Hcode E']]); subst ref'.
    + exists ref. repeat split; auto. apply Hsame.
    + apply String.eqb_eq in Hcode. subst code.
      eexists. split; [exact Hnth'|]. split; [reflexivity|].
      split; [reflexivity|]. split; [|split].
      * right. exists a. split; [exact Hr|]. split; [|reflexivity].
        intros Hnone. unfold Models.getReferralByCode in Hnone.
        pose proof (find_none _ _ Hnone ref (nth_error_In _ _ Hnth)) as Hf.
        cbn beta in Hf. rewrite String.eqb_refl in Hf. discriminate.
      * intros Hnot. now elim (Hnot _ _ Hr).
      * cbn [Referral.earnings Referral.with_earnings]. unfold Spec.decreased.
        intros Hlow. exists a. split; [exact Hr|].
        destruct (a * Referral.commission ref <? 0)%float eqn:Hneg; [reflexivity|].
        rewrite (add_not_negative_not_below _ _ Hneg) in Hlow. discriminate.
Qed.

Lemma earnings_lowered_only_by_negative_earning_witness :
  (exists ref',
      nth_error
        (referrals (fst (Server.handle (Sample.one_code 0.2) (Sample.env 9 "") None
                                       (Server.ReferralEarn "REF1" (JS.VNumber (-100))))))
        0
      = Some ref'
      /\ Referral.code ref' = "REF1"
      /\ Referral.earnings ref' = (-20)%float
      /\ (-100 * 0.2 <? 0)%float = true)
  /\ nth_error
       (referrals (fst (Server.handle (Sample.one_code 0.2) (Sample.env 9 "") None
                                      (Server.ReferralEarn "REF1" (JS.VNumber 50)))))
       0
     = Some (Referral.with_earnings (Sample.REF1 0.2) 10).
Proof.
  split.
  - destruct (proj2 (earnings_lowered_only_by_negative_earning (Sample.one_code 0.2)
                       (Sample.env 9 "") None
                       (Server.ReferralEarn "REF1" (JS.VNumber (-100)))
                       0 (Sample.REF1 0.2) eq_refl))
      as (ref' & Hnth & Hcode & _).
    exists ref'. split; [exact Hnth|]. split; [exact Hcode|].
    split; [|reflexivity].
    cbn in Hnth. inversion Hnth. reflexivity.
  - apply (proj1 (earnings_lowered_only_by_negative_earning (Sample.one_code 0.2)
                    (Sample.env 9 "") None
                    (Server.ReferralEarn "REF1" (JS.VNumber 50))
                    0 (Sample.REF1 0.2) eq_refl) 50%float).
    intros j earlier Hj. lia.
Defined.

(** C4 fails on the code: after REF1 is created at the default commission and
    100 is earned, the earnings are 20; an earn request with the amount -250
    is accepted and leaves them at -30. *)
Lemma negative_amount_lowers_earnings :
  map Server.status (snd (Server.run empty_store Sample.negative_earning))
  = [200; 200; 200; 200]
  /\ earningsOf (fst (Server.run empty_store (firstn 3 Sample.negative_earning))) "REF1"
     = Some 20%float
  /\ earningsOf (fst (Server.run empty_store Sample.negative_earning)) "REF1"
     = Some (-30)%float
  /\ Spec.decreased 20 (-30)
  /\ Server.reachable (fst (Server.run empty_store Sample.negative_earning)).
Proof.
  split; [reflexivity|]. split; [reflexivity|]. split; [reflexivity|].
  split; [reflexivity|]. apply run_reachable. constructor.
Qed.

(* ================================================================== *)
(** * Profile update *)
(* ================================================================== *)

(** The guards on bio, profilePicture, banner and subscriptionPlans accept a
    string, respectively an array, and nothing else; a field of any other
    type, or absent, leaves the profile field as it was. *)
Lemma merge_profile_exact_guards (reqBody : list (string * JS.value)) (p : Profile.t) :
  Profile.bio (Server.merge_profile reqBody p)
  = match JS.get reqBody "bio" with JS.VString s => s | _ => Profile.bio p end
  /\ Profile.profilePicture (Server.merge_profile reqBody p)
     = match JS.get reqBody "profilePicture" with
       | JS.VString s => s
       | _ => Profile.profilePicture p
       end
  /\ Profile.banner (Server.merge_profile reqBody p)
     = match JS.get reqBody "banner" with JS.VString s => s | _ => Profile.banner p end
  /\ Profile.subscriptionPlans (Server.merge_profile reqBody p)
     = match JS.get reqBody "subscriptionPlans" with
       | JS.VArray l => l
       | _ => Profile.subscriptionPlans p
       end.
Proof.
  unfold Server.merge_profile. cbn [Profile.bio Profile.profilePicture Profile.banner
                                    Profile.subscriptionPlans].
  repeat split.
  - now destruct (JS.get reqBody "bio").
  - now destruct (JS.get reqBody "profilePicture").
  - now destruct (JS.get reqBody "banner").
  - now destruct (JS.get reqBody "subscriptionPlans").
Qed.

(** C8 fails on the code at [socialLinks: null]: [typeof null] is "object", so
    the guard on socialLinks lets [null] through, and likewise an array.  On
    every profile the merge replaces socialLinks by [null] and keeps the other
    four fields; served to ana after she had set her links, the request is
    answered 200 and her stored socialLinks are [null]. *)
Theorem put_profile_null_socialLinks :
  (forall p,
      Server.merge_profile [("socialLinks", JS.VNull)] p
      = Profile.mk (Profile.bio p) (Profile.profilePicture p) (Profile.banner p)
                   JS.VNull (Profile.subscriptionPlans p))
  /\ (forall p l,
        Profile.socialLinks (Server.merge_profile [("socialLinks", JS.VArray l)] p)
        = JS.VArray l)
  /\ map Server.status (snd (Server.run empty_store Sample.null_socialLinks))
     = [200; 200; 200]
  /\ map (fun u => Profile.socialLinks (User.profile u))
         (users (fst (Server.run empty_store (firstn 2 Sample.null_socialLinks))))
     = [JS.VObject [("web", JS.VString "https://ana.example")]]
  /\ map (fun u => Profile.socialLinks (User.profile u))
         (users (fst (Server.run empty_store Sample.null_socialLinks)))
     = [JS.VNull].
Proof.
  split; [reflexivity|]. split; [reflexivity|]. repeat split; reflexivity.
Qed.

(* ================================================================== *)
(** * Users: registration, identity and profiles *)
(* ================================================================== *)

Lemma nth_error_update_first_found {A : Type} (test : A -> bool) (upd : A -> A)
  (l : list A) (i : nat) (x : A) :
  nth_error l i = Some x ->
  exists x', nth_error (Models.update_first test upd l) i = Some x'
             /\ (x' = x \/ (find test l = Some x /\ x' = upd x)).
Proof.
  revert i. induction l as [|a l IH]; intros [|i] H; simpl in *; try discriminate.
  - inversion H; subst. destruct (test x) eqn:Hx; simpl; eauto.
  - destruct (test a) eqn:Ha; simpl; eauto.
Qed.

Lemma map_update_first {A B : Type} (f : A -> B) (test : A -> bool) (upd : A -> A)
  (l : list A) :
  (forall x, f (upd x) = f x) ->
  map f (Models.update_first test upd l) = map f l.
Proof.
  intros Hf. induction l as [|a l IH]; simpl; [reflexivity|].
  destruct (test a); simpl; [now rewrite Hf | now rewrite IH].
Qed.

(** What a request can do to the users. *)
Lemma handle_users (st : Store) (env : Env) (session : option string)
  (r : Server.request) :
  users (fst (Server.handle st env session r)) = users st
  \/ (exists u,
        users (fst (Server.handle st env session r)) = users st ++ [u]
        /\ Models.getUserByUsername st (User.username u) = None
        /\ User.username u <> ""
        /\ User.id u = uuid env
        /\ User.profile u = Profile.empty)
  \/ (exists reqBody user,
        r = Server.PutProfile reqBody
        /\ Server.attach_user st session = Some user
        /\ users (fst (Server.handle st env session r))
           = Models.update_first
               (fun u => String.eqb (User.id u) (User.id user))
               (fun u => User.with_profile u
                           (Server.merge_profile reqBody (User.profile u)))
               (users st)).
Proof.
  destruct r; handler_cases; cbn;
    first [ left; reflexivity
          | right; left; eexists; split; [reflexivity|]; cbn;
            split; [assumption|]; split; [|split; reflexivity];
            intros ->; discriminate
          | right; right; eauto ].
Qed.

Lemma handle_identities (st : Store) (env : Env) (session : option string)
  (r : Server.request) :
  exists added,
    map Ledger.identity (users (fst (Server.handle st env session r)))
    = map Ledger.identity (users st) ++ added.
Proof.
  destruct (handle_users st env session r)
    as [E | [(u & E & _) | (reqBody & user & _ & _ & E)]]; rewrite E.
  - exists []. now rewrite app_nil_r.
  - exists [Ledger.identity u]. now rewrite map_app.
  - exists []. rewrite app_nil_r. now apply map_update_first.
Qed.

Lemma find_app_not_found {A : Type} (f : A -> bool) (l l' : list A) :
  find f l = None -> find f (l ++ l') = find f l'.
Proof.
  induction l as [|a l IH]; simpl; [reflexivity|].
  destruct (f a); [discriminate | exact IH].
Qed.

(** What the first turn of a registration has established when the handler
    goes on. *)
Lemma register_check_passed (st : Store) (username email : string)
  (password : JS.value) :
  Server.register_check st (Some username) (Some email) (Some password) = None ->
  username <> "" /\ email <> "" /\ JS.truthy password = true
  /\ Models.getUserByUsername st username = None
  /\ Server.register_check empty_store (Some username) (Some email) (Some password)
     = None.
Proof.
  unfold Server.register_check. cbn [JS.truthy_field].
  destruct username as [|a username]; [discriminate|].
  destruct email as [|b email]; [discriminate|].
  destruct (JS.truthy password); [|discriminate]. cbn [JS.truthy_string negb orb].
  destruct (Models.getUserByUsername st (String a username)); [discriminate|].
  intros _. repeat split; discriminate.
Qed.

Lemma resume_with_string (st : Store) (env : Env) (username email password : string)
  (role : option string) :
  Server.register_resume st env username email (JS.VString password) role
  = (Server.set_users st (users st ++ [Ledger.newcomer env username email role]),
     Server.json
       (Server.PRegistered
          (uuid env, username, User.role (Ledger.newcomer env username email role)))).
Proof. reflexivity. Qed.

(** X1. The username test and the push of a registration are two turns of
    the event loop.  Two registrations of one free username whose first turns
    both run before either resumes are both answered 200 and leave two users
    with that username, of whom a lookup finds the earlier only; the server
    can be in the store so reached.  Usernames are unique only as long as
    registrations do not overlap. *)
Theorem overlapping_registrations_share_username (st : Store) (env1 env2 : Env)
  (username email1 email2 password1 password2 : string) (role1 role2 : option string) :
  Server.register_check st (Some username) (Some email1)
                        (Some (JS.VString password1)) = None ->
  Server.register_check st (Some username) (Some email2)
                        (Some (JS.VString password2)) = None ->
  Server.register_resume st env1 username email1 (JS.VString password1) role1
  = (Server.set_users st (users st ++ [Ledger.newcomer env1 username email1 role1]),
     Server.json
       (Server.PRegistered
          (uuid env1, username,
           User.role (Ledger.newcomer env1 username email1 role1))))
  /\ Server.register_resume
       (Server.set_users st (users st ++ [Ledger.newcomer env1 username email1 role1]))
       env2 username email2 (JS.VString password2) role2
     = (Server.set_users st
          (users st ++ [Ledger.newcomer env1 username email1 role1;
                        Ledger.newcomer env2 username email2 role2]),
        Server.json
          (Server.PRegistered
             (uuid env2, username,
              User.role (Ledger.newcomer env2 username email2 role2))))
  /\ Models.getUserByUsername
       (Server.set_users st
          (users st ++ [Ledger.newcomer env1 username email1 role1;
                        Ledger.newcomer env2 username email2 role2]))
       username
     = Some (Ledger.newcomer env1 username email1 role1)
  /\ ~ NoDup (map User.username
                  (users st ++ [Ledger.newcomer env1 username email1 role1;
                                Ledger.newcomer env2 username email2 role2]))
  /\ (Server.reachable st ->
      Server.reachable
        (Server.set_users st
           (users st ++ [Ledger.newcomer env1 username email1 role1;
                         Ledger.newcomer env2 username email2 role2]))).
Proof.
  intros H1 H2.
  destruct (register_check_passed _ _ _ _ H1) as (_ & _ & _ & Hfree & Hinit1).
  destruct (register_check_passed _ _ _ _ H2) as (_ & _ & _ & _ & Hinit2).
  assert (E2 : Server.register_resume
                 (Server.set_users st
                    (users st ++ [Ledger.newcomer env1 username email1 role1]))
                 env2 username email2 (JS.VString password2) role2
               = (Server.set_users st
                    (users st ++ [Ledger.newcomer env1 username email1 role1;
                                  Ledger.newcomer env2 username email2 role2]),
                  Server.json
                    (Server.PRegistered
                       (uuid env2, username,
                        User.role (Ledger.newcomer env2 username email2 role2))))).
  { rewrite resume_with_string. unfold Server.set_users. cbn [users posts subscriptions
      storeItems orders referrals messages tips]. now rewrite <- app_assoc. }
  split; [apply resume_with_string|]. split; [exact E2|]. split; [|split].
  - unfold Models.getUserByUsername in *. cbn [Server.set_users users].
    rewrite find_app_not_found by exact Hfree.
    cbn [find Ledger.newcomer User.username]. now rewrite String.eqb_refl.
  - rewrite map_app. intros Hnodup. apply NoDup_app_remove_l in Hnodup.
    cbn [map Ledger.newcomer User.username] in Hnodup.
    inversion Hnodup as [|x l Hnotin _]. apply Hnotin. now left.
  - intros Hst.
    pose proof (Server.reachable_resume st env1 username email1 (JS.VString password1)
                  role1 Hinit1 Hst) as Hst1.
    rewrite resume_with_string in Hst1. cbn [fst] in Hst1.
    pose proof (Server.reachable_resume _ env2 username email2 (JS.VString password2)
                  role2 Hinit2 Hst1) as Hst2.
    now rewrite E2 in Hst2.
Qed.

Lemma overlapping_registrations_share_username_witness :
  map User.username
      (users (fst (Server.register_resume
                     (fst (Server.register_resume Sample.two_users
                             (Sample.env 9 "u-cy1") "cy" "cy@example.org"
                             (JS.VString "pw") None))
                     (Sample.env 10 "u-cy2") "cy" "cy@example.com"
                     (JS.VString "secret") None)))
  = ["ana"; "bo"; "cy"; "cy"]
  /\ Server.reachable
       (Server.set_users Sample.two_users
          (users Sample.two_users
           ++ [Ledger.newcomer (Sample.env 9 "u-cy1") "cy" "cy@example.org" None;
               Ledger.newcomer (Sample.env 10 "u-cy2") "cy" "cy@example.com" None])).
Proof.
  destruct (overlapping_registrations_share_username Sample.two_users
              (Sample.env 9 "u-cy1") (Sample.env 10 "u-cy2") "cy" "cy@example.org"
              "cy@example.com" "pw" "secret" None None eq_refl eq_refl)
    as (E1 & E2 & _ & _ & Hreach).
  split.
  - rewrite E1. cbn [fst]. rewrite E2. reflexivity.
  - apply Hreach.
    change Sample.two_users
      with (fst (Server.run empty_store [Sample.register_ana; Sample.register_bo])).
    apply run_reachable. constructor.
Defined.



(** X3. Whatever the request, every user stays in place with the same
    identifier, username, email, password digest, role and creation time; the
    profile changes only when that very user, attached to the session, sends a
    profile update, and then to the merge of the request body into it. *)
Theorem profile_changed_only_by_owner (st : Store) (env : Env)
  (session : option string) (r : Server.request) (i : nat) (u : User.t) :
  nth_error (users st) i = Some u ->
  exists u',
    nth_error (users (fst (Server.handle st env session r))) i = Some u'
    /\ Ledger.identity u' = Ledger.identity u
    /\ (User.profile u' = User.profile u
        \/ exists reqBody,
             r = Server.PutProfile reqBody
             /\ Server.attach_user st session = Some u
             /\ User.profile u' = Server.merge_profile reqBody (User.profile u)).
Proof.
  intros Hnth.
  destruct (handle_users st env session r)
    as [E | [(new & E & _) | (reqBody & user & Hr & Hattach & E)]]; rewrite E.
  - exists u. auto.
  - exists u. rewrite nth_error_app1 by (apply nth_error_Some; congruence). auto.
  - destruct (nth_error_update_first_found
                (fun x => String.eqb (User.id x) (User.id user))
                (fun x => User.with_profile x
                            (Server.merge_profile reqBody (User.profile x)))
                _ _ _ Hnth) as (u' & Hnth' & [E' | [Hfind E']]); subst u'.
    + exists u. auto.
    + eexists. split; [exact Hnth'|]. split; [reflexivity|]. right.
      exists reqBody. split; [exact Hr|]. split; [|reflexivity].
      pose proof (attach_user_found st session user Hattach) as Hfound.
      unfold Models.getUserById in Hfound. congruence.
Qed.

Lemma profile_changed_only_by_owner_witness :
  exists u',
    nth_error
      (users (fst (Server.handle Sample.two_users (Sample.env 9 "") (Some "u-ana")
                                 (Server.PutProfile [("bio", JS.VString "painter")]))))
      1
    = Some u'
    /\ Ledger.identity u' = Ledger.identity Sample.bo.
Proof.
  destruct (profile_changed_only_by_owner Sample.two_users (Sample.env 9 "")
              (Some "u-ana") (Server.PutProfile [("bio", JS.VString "painter")])
              1 Sample.bo eq_refl) as (u' & Hnth & Hid & _).
  exists u'. split; assumption.
Defined.

Lemma In_update_first {A : Type} (test : A -> bool) (upd : A -> A) (l : list A)
  (x : A) :
  In x l -> In x (Models.update_first test upd l)
            \/ In (upd x) (Models.update_first test upd l).
Proof.
  induction l as [|a l IH]; simpl; [tauto|].
  intros [-> | Hin]; destruct (test _) eqn:Ht; simpl; auto.
  destruct (IH Hin); auto.
Qed.

Lemma users_kept (st : Store) (env : Env) (session : option string)
  (r : Server.request) (u : User.t) :
  In u (users st) ->
  exists u', In u' (users (fst (Server.handle st env session r)))
             /\ Ledger.identity u' = Ledger.identity u.
Proof.
  intros Hin.
  destruct (handle_users st env session r)
    as [E | [(new & E & _) | (reqBody & user & _ & _ & E)]]; rewrite E.
  - exists u. auto.
  - exists u. split; [apply in_or_app; now left | reflexivity].
  - destruct (In_update_first
                (fun x => String.eqb (User.id x) (User.id user))
                (fun x => User.with_profile x
                            (Server.merge_profile reqBody (User.profile x)))
                _ _ Hin) as [H | H]; eexists; (split; [exact H | reflexivity]).
Qed.

Lemma registered_kept (st : Store) (env : Env) (session : option string)
  (r : Server.request) (id : string) :
  Ledger.registered st id ->
  Ledger.registered (fst (Server.handle st env session r)) id.
Proof.
  intros (u & Hin & Hid). destruct (users_kept st env session r u Hin) as (u' & Hin' & E).
  exists u'. split; [exact Hin'|]. inversion E. congruence.
Qed.

Lemma is_creator_kept (st : Store) (env : Env) (session : option string)
  (r : Server.request) (id : string) :
  Ledger.is_creator st id ->
  Ledger.is_creator (fst (Server.handle st env session r)) id.
Proof.
  intros (u & Hin & Hid & Hrole).
  destruct (users_kept st env session r u Hin) as (u' & Hin' & E).
  exists u'. split; [exact Hin'|]. inversion E. split; congruence.
Qed.

Lemma registered_grows (st : Store) (user : User.t) (id : string) :
  Ledger.registered st id ->
  Ledger.registered (Server.set_users st (users st ++ [user])) id.
Proof.
  intros (u & Hin & Hid). exists u. split; [|exact Hid].
  cbn [Server.set_users users]. apply in_or_app. now left.
Qed.

Lemma is_creator_grows (st : Store) (user : User.t) (id : string) :
  Ledger.is_creator st id ->
  Ledger.is_creator (Server.set_users st (users st ++ [user])) id.
Proof.
  intros (u & Hin & Hid). exists u. split; [|exact Hid].
  cbn [Server.set_users users]. apply in_or_app. now left.
Qed.

Lemma attach_user_registered (st : Store) (session : option string) (user : User.t) :
  Server.attach_user st session = Some user -> Ledger.registered st (User.id user).
Proof.
  intros H. apply attach_user_found in H. unfold Models.getUserById in H.
  exists user. split; [exact (proj1 (find_some _ _ H)) | reflexivity].
Qed.

Lemma found_creator (st : Store) (username : string) (creator : User.t) :
  Models.getUserByUsername st username = Some creator ->
  negb (String.eqb (User.role creator) "creator") = false ->
  Ledger.is_creator st (User.id creator).
Proof.
  unfold Models.getUserByUsername. intros H Hrole. exists creator.
  split; [exact (proj1 (find_some _ _ H))|]. split; [reflexivity|].
  apply String.eqb_eq. now destruct (String.eqb (User.role creator) "creator").
Qed.

(* ================================================================== *)
(** * Who stands behind the records of the ledgers *)
(* ================================================================== *)

Lemma In_remove_first {A : Type} (test : A -> bool) (l : list A) (x : A) :
  In x (Models.remove_first test l) -> In x l.
Proof.
  induction l as [|a l IH]; simpl; [tauto|].
  destruct (test a); simpl; intuition.
Qed.

Lemma attached_creator (st : Store) (session : option string) (u : User.t) :
  Server.attach_user st session = Some u ->
  negb (String.eqb (User.role u) "creator") = false ->
  Ledger.is_creator st (User.id u).
Proof.
  intros H Hrole. apply attach_user_found in H. unfold Models.getUserById in H.
  exists u. split; [exact (proj1 (find_some _ _ H))|]. split; [reflexivity|].
  apply String.eqb_eq. now destruct (String.eqb (User.role u) "creator").
Qed.

Lemma truthy_nonempty (s : string) : negb (JS.truthy_string s) = false -> s <> "".
Proof. intros H ->. discriminate. Qed.

(** What a request can do to the posts. *)
Lemma handle_posts (st : Store) (env : Env) (session : option string)
  (r : Server.request) :
  posts (fst (Server.handle st env session r)) = posts st
  \/ (exists p,
        posts (fst (Server.handle st env session r)) = posts st ++ [p]
        /\ Ledger.is_creator st (Post.creatorId p)
        /\ JS.truthy (Post.content p) = true
        /\ Post.likes p = 0%Z /\ Post.views p = 0%Z)
  \/ (exists postId,
        r = Server.AdminDeletePost postId
        /\ Server.requireAdmin st session = true
        /\ posts (fst (Server.handle st env session r))
           = Models.remove_first (fun p => String.eqb (Post.id p) postId) (posts st)).
Proof.
  destruct r; handler_cases; cbn; try (left; reflexivity);
    first [ right; left; eexists; split; [reflexivity|]; cbn;
            split; [eapply attached_creator; eassumption|];
            split; [now apply negb_false_iff | split; reflexivity]
          | right; right; eexists; split; [reflexivity|]; split; [|reflexivity];
            match goal with H : negb _ = false |- _ => now apply negb_false_iff in H end ].
Qed.

(** X4. In every store the server reaches, each post was published by a user
    whose role is "creator". *)
Theorem reachable_posts_by_creators (st : Store) :
  Server.reachable st ->
  forall p, In p (posts st) -> Ledger.is_creator st (Post.creatorId p).
Proof.
  induction 1 as [|st env session r _ IH|st user _ IH] using reachable_induction;
    intros p Hp; [destruct Hp| |exact (is_creator_grows _ _ _ (IH p Hp))].
  apply is_creator_kept.
  destruct (handle_posts st env session r)
    as [E | [(new & E & Hnew & _) | (postId & _ & _ & E)]]; rewrite E in Hp.
  - now apply IH.
  - apply in_app_or in Hp. destruct Hp as [Hp | [<- | []]]; [now apply IH | exact Hnew].
  - apply In_remove_first in Hp. now apply IH.
Qed.

Lemma reachable_posts_by_creators_witness :
  Ledger.is_creator Sample.feed (Post.creatorId Sample.P2).
Proof.
  apply (reachable_posts_by_creators Sample.feed sample_feed_reachable Sample.P2).
  simpl. auto.
Defined.

Lemma or_else_nonempty (o : option string) (d : string) :
  d <> "" -> JS.or_else o d <> "".
Proof.
  intros Hd. unfold JS.or_else. destruct o as [[|a s]|]; cbn; auto. discriminate.
Qed.

(** The parties of the subscription a request may add. *)
Lemma handle_subscriptions_parties (st : Store) (env : Env)
  (session : option string) (r : Server.request) :
  subscriptions (fst (Server.handle st env session r)) = subscriptions st
  \/ exists sub,
       subscriptions (fst (Server.handle st env session r)) = subscriptions st ++ [sub]
       /\ Ledger.registered st (Subscription.subscriberId sub)
       /\ Ledger.is_creator st (Subscription.creatorId sub)
       /\ Subscription.plan sub <> "".
Proof.
  destruct r; handler_cases; cbn; auto.
  right. eexists. split; [reflexivity|]. cbn. split; [|split].
  - eapply attach_user_registered. eassumption.
  - eapply found_creator; eassumption.
  - apply or_else_nonempty. discriminate.
Qed.

(** X5. In every store the server reaches, each Subscription has status
    "active" (nothing cancels one) and a non-empty plan, its subscriber is a
    registered user and its creator a user with the role "creator". *)
Theorem reachable_subscriptions_sound (st : Store) :
  Server.reachable st ->
  forall s, In s (subscriptions st) ->
            Subscription.status s = "active"
            /\ Subscription.plan s <> ""
            /\ Ledger.registered st (Subscription.subscriberId s)
            /\ Ledger.is_creator st (Subscription.creatorId s).
Proof.
  induction 1 as [|st env session r _ IH|st user _ IH] using reachable_induction;
    intros s Hs; [destruct Hs| |].
  2:{ destruct (IH s Hs) as (Ha & Hp & Hr & Hc).
      auto using registered_grows, is_creator_grows. }
  assert (Hold : forall s, In s (subscriptions st) ->
                 Subscription.status s = "active"
                 /\ Subscription.plan s <> ""
                 /\ Ledger.registered (fst (Server.handle st env session r))
                                      (Subscription.subscriberId s)
                 /\ Ledger.is_creator (fst (Server.handle st env session r))
                                      (Subscription.creatorId s)).
  { intros s0 H0. destruct (IH s0 H0) as (Ha & Hp & Hr & Hc).
    auto using registered_kept, is_creator_kept. }
  destruct (handle_subscriptions_parties st env session r)
    as [E | (sub & E & Hr & Hc & Hp)].
  - rewrite E in Hs. now apply Hold.
  - destruct (handle_subscriptions st env session r) as [E' | (sub' & E' & _ & _ & Ha)].
    + rewrite E' in E. apply (f_equal (@length _)) in E.
      rewrite length_app in E. simpl in E. lia.
    + rewrite E' in E. apply app_inj_tail in E. destruct E as [_ ->].
      rewrite E' in Hs. apply in_app_or in Hs.
      destruct Hs as [Hs | [<- | []]]; [now apply Hold|].
      auto using registered_kept, is_creator_kept.
Qed.

Lemma reachable_subscriptions_sound_witness :
  Subscription.status Sample.bo_subscribed = "active"
  /\ Ledger.is_creator Sample.feed "u-ana".
Proof.
  destruct (reachable_subscriptions_sound Sample.feed sample_feed_reachable
              Sample.bo_subscribed (or_introl eq_refl)) as (Ha & _ & _ & Hc).
  split; assumption.
Defined.

(** The order a request may add. *)
Lemma handle_orders_buyer (st : Store) (env : Env) (session : option string)
  (r : Server.request) :
  orders (fst (Server.handle st env session r)) = orders st
  \/ exists order,
       orders (fst (Server.handle st env session r)) = orders st ++ [order]
       /\ Order.status order = "pending"
       /\ Ledger.registered st (Order.buyerId order).
Proof.
  destruct r; handler_cases; cbn; auto.
  right. eexists. split; [reflexivity|]. cbn. split; [reflexivity|].
  eapply attach_user_registered. eassumption.
Qed.

(** X6. In every store the server reaches, each Order has status "pending"
    (nothing fulfils or cancels one) and was placed by a registered user. *)
Theorem reachable_orders_pending (st : Store) :
  Server.reachable st ->
  forall o, In o (orders st) ->
            Order.status o = "pending" /\ Ledger.registered st (Order.buyerId o).
Proof.
  induction 1 as [|st env session r _ IH|st user _ IH] using reachable_induction;
    intros o Ho; [destruct Ho| |].
  2:{ destruct (IH o Ho). auto using registered_grows. }
  destruct (handle_orders_buyer st env session r) as [E | (order & E & Hp & Hr)];
    rewrite E in Ho.
  - destruct (IH o Ho). auto using registered_kept.
  - apply in_app_or in Ho. destruct Ho as [Ho | [<- | []]].
    + destruct (IH o Ho). auto using registered_kept.
    + auto using registered_kept.
Qed.

Lemma tour_reachable : Server.reachable Tour.store.
Proof.
  change Tour.store with (fst (Server.run empty_store Tour.requests)).
  apply run_reachable. constructor.
Qed.

Lemma reachable_orders_pending_witness :
  Order.status Tour.order = "pending" /\ Ledger.registered Tour.store "u-bo".
Proof.
  exact (reachable_orders_pending Tour.store tour_reachable Tour.order
           (or_introl eq_refl)).
Defined.

(** The tip a request may add. *)
Lemma handle_tips (st : Store) (env : Env) (session : option string)
  (r : Server.request) :
  tips (fst (Server.handle st env session r)) = tips st
  \/ exists tip,
       tips (fst (Server.handle st env session r)) = tips st ++ [tip]
       /\ (Tip.amount tip <=? 0)%float = false
       /\ Tip.senderId tip <> Tip.recipientId tip
       /\ Ledger.registered st (Tip.senderId tip)
       /\ Ledger.is_creator st (Tip.recipientId tip).
Proof.
  destruct r; handler_cases; cbn; auto.
  right. eexists. split; [reflexivity|]. cbn. split; [|split; [|split]].
  - match goal with H : _ || _ = false |- _ => apply orb_false_iff in H; tauto end.
  - intros E. rewrite E, String.eqb_refl in *. discriminate.
  - eapply attach_user_registered. eassumption.
  - eapply found_creator; eassumption.
Qed.

(** X7. In every store the server reaches, each Tip has an amount that is not
    at or below zero, a sender who is a registered user, and a recipient who
    has the role "creator" and is not the sender. *)
Theorem reachable_tips_sound (st : Store) :
  Server.reachable st ->
  forall t, In t (tips st) ->
            (Tip.amount t <=? 0)%float = false
            /\ Tip.senderId t <> Tip.recipientId t
            /\ Ledger.registered st (Tip.senderId t)
            /\ Ledger.is_creator st (Tip.recipientId t).
Proof.
  induction 1 as [|st env session r _ IH|st user _ IH] using reachable_induction;
    intros t Ht; [destruct Ht| |].
  2:{ destruct (IH t Ht) as (? & ? & ? & ?).
      auto using registered_grows, is_creator_grows. }
  destruct (handle_tips st env session r) as [E | (tip & E & Ha & Hne & Hr & Hc)];
    rewrite E in Ht.
  - destruct (IH t Ht) as (? & ? & ? & ?).
    auto using registered_kept, is_creator_kept.
  - apply in_app_or in Ht. destruct Ht as [Ht | [<- | []]].
    + destruct (IH t Ht) as (? & ? & ? & ?).
      auto using registered_kept, is_creator_kept.
    + auto using registered_kept, is_creator_kept.
Qed.

Lemma reachable_tips_sound_witness :
  (Tip.amount Tour.tip <=? 0)%float = false
  /\ Tip.senderId Tour.tip <> Tip.recipientId Tour.tip
  /\ Ledger.registered Tour.store "u-bo"
  /\ Ledger.is_creator Tour.store "u-ana".
Proof.
  exact (reachable_tips_sound Tour.store tour_reachable Tour.tip (or_introl eq_refl)).
Defined.

(* ================================================================== *)
(** * How the operations compose *)
(* ================================================================== *)

(** X8. Once a user has subscribed to a creator, asking for that creator's
    posts with the same session returns every post the creator authored,
    public or subscriber-only, in publication order. *)
Theorem subscriber_sees_all_posts (st : Store) (env : Env) (session : option string)
  (creatorUsername : string) (plan : option string) (user creator : User.t) :
  Server.attach_user st session = Some user ->
  Models.getUserByUsername st creatorUsername = Some creator ->
  User.role creator = "creator" ->
  User.id user <> User.id creator ->
  snd (Server.get_posts
         (fst (Server.post_subscribe st env session creatorUsername plan))
         session creatorUsername)
  = Server.json
      (Server.PPosts
         (filter (fun p => String.eqb (Post.creatorId p) (User.id creator)) (posts st))).
Proof.
  intros Huser Hcreator Hrole Hne.
  assert (Hsub :
    fst (Server.post_subscribe st env session creatorUsername plan)
    = with_subscription st
        (Subscription.mk (uuid env) (User.id user) (User.id creator)
                         (JS.or_else plan "monthly") "active" (now env))).
  { unfold Server.post_subscribe. rewrite Huser, Hcreator, Hrole.
    replace (String.eqb "creator" "creator") with true by reflexivity. cbn [negb].
    destruct (String.eqb (User.id creator) (User.id user)) eqn:E; [|reflexivity].
    apply String.eqb_eq in E. congruence. }
  rewrite Hsub. unfold Server.get_posts.
  change (Models.getUserByUsername (with_subscription st _) creatorUsername)
    with (Models.getUserByUsername st creatorUsername).
  change (Server.attach_user (with_subscription st _) session)
    with (Server.attach_user st session).
  rewrite Hcreator, Hrole, Huser.
  replace (String.eqb "creator" "creator") with true by reflexivity.
  cbn [negb snd]. f_equal. f_equal. unfold Models.listPosts.
  cbn [posts with_subscription]. apply filter_ext. intros p.
  unfold Models.visible.
  destruct (String.eqb (Post.creatorId p) (User.id creator)); cbn [negb]; [|reflexivity].
  destruct (Post.subscriberOnly p); cbn [negb]; [|reflexivity].
  assert (Ht : JS.truthy_field (Some (User.id user)) = true).
  { pose proof (attach_user_nonempty st session user Huser).
    cbn. now destruct (User.id user). }
  rewrite Ht. cbn [negb subscriptions with_subscription]. rewrite existsb_app. cbn [existsb].
  unfold Models.activeMatch at 2. cbn [Subscription.creatorId Subscription.subscriberId
                                         Subscription.status].
  rewrite !String.eqb_refl. cbn. now rewrite !orb_true_r.
Qed.

Lemma subscriber_sees_all_posts_witness :
  snd (Server.get_posts
         (fst (Server.post_subscribe
                 (fst (Server.run empty_store (firstn 4 Sample.publish_and_subscribe)))
                 (Sample.env 5 "s-1") (Some "u-bo") "ana" None))
         (Some "u-bo") "ana")
  = Server.json (Server.PPosts [Sample.P1; Sample.P2]).
Proof.
  assert (Hne : "u-bo" <> "u-ana") by discriminate.
  exact (subscriber_sees_all_posts
           (fst (Server.run empty_store (firstn 4 Sample.publish_and_subscribe)))
           (Sample.env 5 "s-1") (Some "u-bo") "ana" None Sample.bo Sample.ana
           eq_refl eq_refl eq_refl Hne).
Defined.

(** X9. A tip from an authenticated user to a creator other than themselves,
    with an amount of numeric type that is not at or below zero, is stored and
    returned; it then closes the list of tips that creator received, and the
    lists of all other recipients are as before.  An amount at or below zero,
    and a tip to oneself, fail with InvalidInput. *)
Theorem tip_is_received (st : Store) (env : Env) (session : option string)
  (creatorUsername : string) (amount : float) (user creator : User.t) :
  Server.attach_user st session = Some user ->
  Models.getUserByUsername st creatorUsername = Some creator ->
  User.role creator = "creator" ->
  ((amount <=? 0)%float = true ->
   Spec.fails_with st Server.InvalidInput
     (Server.post_tip st env session creatorUsername (JS.VNumber amount)))
  /\ (User.id creator = User.id user ->
      Spec.fails_with st Server.InvalidInput
        (Server.post_tip st env session creatorUsername (JS.VNumber amount)))
  /\ ((amount <=? 0)%float = false ->
      User.id creator <> User.id user ->
      snd (Server.post_tip st env session creatorUsername (JS.VNumber amount))
      = Server.json
          (Server.PTip (Tip.mk (uuid env) (User.id user) (User.id creator) amount
                               (now env)))
      /\ Models.listTipsReceived
           (fst (Server.post_tip st env session creatorUsername (JS.VNumber amount)))
           (User.id creator)
         = Models.listTipsReceived st (User.id creator)
           ++ [Tip.mk (uuid env) (User.id user) (User.id creator) amount (now env)]
      /\ (forall other,
            other <> User.id creator ->
            Models.listTipsReceived
              (fst (Server.post_tip st env session creatorUsername (JS.VNumber amount)))
              other
            = Models.listTipsReceived st other)).
Proof.
  intros Huser Hcreator Hrole. unfold Server.post_tip.
  rewrite Huser. cbn [JS.typeof].
  replace (String.eqb "number" "number") with true by reflexivity. cbn [negb orb].
  split; [|split].
  - intros ->. now split.
  - intros E. destruct (amount <=? 0)%float; [now split|].
    rewrite Hcreator, Hrole, E, !String.eqb_refl. now split.
  - intros -> Hne. rewrite Hcreator, Hrole.
    replace (String.eqb "creator" "creator") with true by reflexivity. cbn [negb].
    destruct (String.eqb (User.id creator) (User.id user)) eqn:E.
    { apply String.eqb_eq in E. contradiction. }
    unfold Models.sendTip, Models.listTipsReceived. cbn [fst snd tips].
    split; [reflexivity|]. split.
    + rewrite filter_app. cbn [filter Tip.recipientId].
      now rewrite String.eqb_refl.
    + intros other Hother. rewrite filter_app. cbn [filter Tip.recipientId].
      destruct (String.eqb (User.id creator) other) eqn:E'.
      * apply String.eqb_eq in E'. congruence.
      * now rewrite app_nil_r.
Qed.

Lemma tip_is_received_witness :
  Models.listTipsReceived
    (fst (Server.post_tip Tour.store (Sample.env 20 "t-2") (Some "u-bo") "ana"
                          (JS.VNumber 2)))
    "u-ana"
  = [Tour.tip; Tip.mk "t-2" "u-bo" "u-ana" 2 20].
Proof.
  assert (Hne : "u-ana" <> "u-bo") by discriminate.
  exact (proj1 (proj2 (proj2 (proj2 (tip_is_received Tour.store (Sample.env 20 "t-2")
                                       (Some "u-bo") "ana" 2 Sample.bo Sample.ana
                                       eq_refl eq_refl eq_refl))
                             eq_refl Hne))).
Defined.

(* ================================================================== *)
(** * Referral sign-ups and commissions *)
(* ================================================================== *)

Lemma signup_known_code (st : Store) (code : string) (ref : Referral.t) :
  Models.getReferralByCode st code = Some ref ->
  snd (Server.post_referral_signup st code)
  = Server.json
      (Server.PReferral (Referral.with_signups ref (Referral.signups ref + 1)%float))
  /\ Models.getReferralByCode (fst (Server.post_referral_signup st code)) code
     = Some (Referral.with_signups ref (Referral.signups ref + 1)%float).
Proof.
  intros Hfind. unfold Server.post_referral_signup, Models.recordReferralSignup.
  unfold Models.getReferralByCode in *. rewrite Hfind. cbn [fst snd].
  split; [reflexivity|]. unfold Models.set_referrals. cbn [referrals].
  apply (find_update_first
           (fun r => String.eqb (Referral.code r) code)
           (fun r => Referral.with_signups r (Referral.signups r + 1)%float)
           _ ref Hfind).
  exact (proj2 (find_some _ _ Hfind)).
Qed.

(** X10. Sign-ups are not deduplicated: each of [n] sign-up requests for a
    known code adds 1, in binary64, to the signups of the record the code
    resolves to and leaves its other fields, the earnings included, untouched;
    each request returns the updated record.  As long as the count stays at
    or below 2^53 it is exact: from [k], [n] sign-ups lead to [k + n].  At
    2^53 the addition is absorbed: from there on no number of sign-ups moves
    the counter.  A sign-up for an unknown code fails with NotFound and
    changes nothing. *)
Theorem signups_count_every_request (st : Store) (code : string)
  (ref : Referral.t) (n : nat) :
  Models.getReferralByCode st code = Some ref ->
  Models.getReferralByCode (recordSignups code n st) code
  = Some (Referral.with_signups ref (incremented n (Referral.signups ref)))
  /\ snd (Server.post_referral_signup st code)
     = Server.json
         (Server.PReferral (Referral.with_signups ref (Referral.signups ref + 1)%float))
  /\ (forall k,
        (0 <= k)%Z -> (k + Z.of_nat n <= 2 ^ 53)%Z ->
        Referral.signups ref = number_of k ->
        Models.getReferralByCode (recordSignups code n st) code
        = Some (Referral.with_signups ref (number_of (k + Z.of_nat n))))
  /\ (Referral.signups ref = number_of (2 ^ 53) ->
      Models.getReferralByCode (recordSignups code n st) code = Some ref)
  /\ (forall st0 code0,
        Models.getReferralByCode st0 code0 = None ->
        Spec.fails_with st0 Server.NotFound (Server.post_referral_signup st0 code0)).
Proof.
  intros Hfind.
  assert (Hn : Models.getReferralByCode (recordSignups code n st) code
               = Some (Referral.with_signups ref (incremented n (Referral.signups ref)))).
  { revert st ref Hfind. induction n as [|n IH]; intros st ref Hfind.
    - cbn [recordSignups incremented]. rewrite Hfind. now destruct ref.
    - cbn [recordSignups incremented].
      destruct (signup_known_code st code ref Hfind) as [_ Hnext].
      rewrite (IH _ _ Hnext). reflexivity. }
  split; [exact Hn|]. split; [|split; [|split]].
  - exact (proj1 (signup_known_code st code ref Hfind)).
  - intros k Hk Hmax Hcount. rewrite Hn, Hcount. do 2 f_equal.
    clear -Hk Hmax. revert k Hk Hmax. induction n as [|n IH]; intros k Hk Hmax.
    + cbn [incremented Z.of_nat]. now rewrite Z.add_0_r.
    + cbn [incremented]. rewrite number_of_succ by lia.
      rewrite IH by lia. f_equal. lia.
  - intros Hfull. rewrite Hn, Hfull.
    change (number_of (2 ^ 53)) with 9007199254740992%float.
    assert (Hstuck : incremented n 9007199254740992 = 9007199254740992%float)
      by (clear; induction n as [|n IH]; [reflexivity | exact IH]).
    rewrite Hstuck. change 9007199254740992%float with (number_of (2 ^ 53)).
    rewrite <- Hfull. now destruct ref.
  - intros st0 code0 Hnone.
    unfold Server.post_referral_signup, Models.recordReferralSignup.
    unfold Models.getReferralByCode in Hnone. rewrite Hnone. now split.
Qed.

Lemma signups_count_every_request_witness :
  Models.getReferralByCode (recordSignups "REF1" 3 Tour.store) "REF1"
  = Some (Referral.with_signups Tour.code 5).
Proof.
  assert (H0 : (0 <= 2)%Z) by lia.
  assert (H1 : (2 + Z.of_nat 3 <= 2 ^ 53)%Z) by (vm_compute; discriminate).
  exact (proj1 (proj2 (proj2 (signups_count_every_request Tour.store "REF1" Tour.code 3
                                eq_refl)))
               2%Z H0 H1 eq_refl).
Defined.

(** X11. Whatever the request, the signups of every Referral record either
    stay as they are or, when the request is a sign-up for its code, grow by
    one: the counter never goes down. *)
Theorem signups_never_decrease (st : Store) (env : Env) (session : option string)
  (r : Server.request) (i : nat) (ref : Referral.t) :
  nth_error (referrals st) i = Some ref ->
  exists ref',
    nth_error (referrals (fst (Server.handle st env session r))) i = Some ref'
    /\ (Referral.signups ref' <? Referral.signups ref)%float = false
    /\ (Referral.signups ref' = Referral.signups ref
        \/ (r = Server.ReferralSignup (Referral.code ref)
            /\ Referral.signups ref' = (Referral.signups ref + 1)%float)).
Proof.
  intros Hnth.
  destruct (handle_referrals st env session r)
    as [E | [(new & E & _) | [(code & Hr & E) | (code & a & Hr & E)]]]; rewrite E.
  - exists ref. split; [exact Hnth|]. split; [apply ltb_irrefl | now left].
  - exists ref. rewrite nth_error_app1 by (apply nth_error_Some; congruence).
    split; [exact Hnth|]. split; [apply ltb_irrefl | now left].
  - destruct (nth_error_update_first
                (fun x => String.eqb (Referral.code x) code)
                (fun x => Referral.with_signups x (Referral.signups x + 1)%float)
                _ _ _ Hnth) as (ref' & Hnth' & [E' | [Hcode E']]); subst ref'.
    + exists ref. split; [exact Hnth'|]. split; [apply ltb_irrefl | now left].
    + apply String.eqb_eq in Hcode. subst code.
      eexists. split; [exact Hnth'|]. cbn [Referral.signups Referral.with_signups].
      split; [now apply add_not_negative_not_below
             | right; split; [exact Hr | reflexivity]].
  - destruct (nth_error_update_first
                (fun x => String.eqb (Referral.code x) code)
                (fun x => Referral.with_earnings x
                            (Referral.earnings x + a * Referral.commission x)%float)
                _ _ _ Hnth) as (ref' & Hnth' & [E' | [_ E']]); subst ref';
      eexists; (split; [exact Hnth'|]); cbn [Referral.signups Referral.with_earnings];
      (split; [apply ltb_irrefl | now left]).
Qed.

Lemma signups_never_decrease_witness :
  exists ref',
    nth_error
      (referrals (fst (Server.handle Tour.store (Sample.env 20 "") None
                                     (Server.ReferralSignup "REF1"))))
      0
    = Some ref'
    /\ (Referral.signups ref' <? 2)%float = false.
Proof.
  destruct (signups_never_decrease Tour.store (Sample.env 20 "") None
              (Server.ReferralSignup "REF1") 0 Tour.code eq_refl)
    as (ref' & Hnth & Hle & _).
  exists ref'. split; [exact Hnth | exact Hle].
Defined.

(** X12. For a request whose commission is absent or a number: the referral
    code is stored with that number when it is other than 0, -0 and NaN,
    whatever its size or sign, and with 0.2 when it is absent, 0, -0 or NaN;
    the creator defaults to the caller, who is always the affiliate.  When the
    code was not in use, it resolves to the new record, with no sign-ups and
    no earnings. *)
Theorem referral_stored_as_requested (st : Store) (env : Env)
  (session : option string) (creatorId : option string) (code : string)
  (commission : option float) (user : User.t) :
  Server.attach_user st session = Some user ->
  code <> "" ->
  Models.getReferralByCode st code = None ->
  Models.getReferralByCode
    (fst (Server.post_referral st env session creatorId (Some code) commission)) code
  = Some (Referral.mk (uuid env)
            (match creatorId with Some c => c | None => User.id user end)
            (User.id user) code
            (match commission with
             | Some c => if PrimFloat.is_zero c || PrimFloat.is_nan c
                         then 0.2%float else c
             | None => 0.2%float
             end)
            0 0 (now env)).
Proof.
  intros Huser Hcode Hfree. unfold Server.post_referral. rewrite Huser.
  destruct code as [|a code]; [contradiction|]. cbn [JS.truthy_string negb].
  unfold Models.createReferral, Models.getReferralByCode in *. cbn [fst referrals].
  rewrite find_app_not_found by exact Hfree. cbn [find Referral.code].
  rewrite String.eqb_refl. do 2 f_equal.
  destruct commission as [c|]; [|reflexivity].
  unfold JS.truthy_number. now destruct (PrimFloat.is_zero c || PrimFloat.is_nan c).
Qed.

Lemma referral_stored_as_requested_witness :
  option_map Referral.commission
    (Models.getReferralByCode
       (fst (Server.post_referral Tour.store (Sample.env 20 "r-2") (Some "u-bo")
                                  None (Some "REF2") (Some 0%float)))
       "REF2")
  = Some 0.2%float
  /\ option_map Referral.commission
       (Models.getReferralByCode
          (fst (Server.post_referral Tour.store (Sample.env 20 "r-2") (Some "u-bo")
                                     None (Some "REF2") (Some 1.5%float)))
          "REF2")
     = Some 1.5%float.
Proof.
  assert (Hcode : "REF2" <> "") by discriminate.
  split.
  - rewrite (referral_stored_as_requested Tour.store (Sample.env 20 "r-2")
               (Some "u-bo") None "REF2" (Some 0%float) Sample.bo eq_refl Hcode eq_refl).
    reflexivity.
  - rewrite (referral_stored_as_requested Tour.store (Sample.env 20 "r-2")
               (Some "u-bo") None "REF2" (Some 1.5%float) Sample.bo eq_refl Hcode
               eq_refl).
    reflexivity.
Defined.

(* ================================================================== *)
(** * What a request can and cannot touch *)
(* ================================================================== *)

(** X13. A request whose session attaches no user changes the store only if
    it is a registration, a referral sign-up or a referral earning; every
    other write, and every read of the caller's own data, is answered 401,
    and the two admin routes 403. *)
Theorem unauthenticated_request (st : Store) (env : Env) (session : option string)
  (r : Server.request) :
  Server.attach_user st session = None ->
  (Ledger.open_write r = false -> fst (Server.handle st env session r) = st)
  /\ (Ledger.open_write r = false -> Ledger.public_read r = false ->
      Server.status (snd (Server.handle st env session r))
      = if Ledger.admin_only r then 403 else 401).
Proof.
  intros H. split.
  - intros Hw. destruct r; try discriminate Hw; unfold_handlers; rewrite ?H;
      cbn [fst negb]; try reflexivity; repeat (break_inner; cbn [fst snd]); reflexivity.
  - intros Hw Hp. destruct r; try discriminate Hw; try discriminate Hp;
      unfold_handlers; rewrite ?H; reflexivity.
Qed.

Lemma unauthenticated_request_witness :
  fst (Server.handle Tour.store (Sample.env 20 "o-2") (Some "u-nobody")
                     (Server.PlaceOrder "i-1"))
  = Tour.store
  /\ Server.status
       (snd (Server.handle Tour.store (Sample.env 20 "o-2") (Some "u-nobody")
                           (Server.PlaceOrder "i-1")))
     = 401.
Proof.
  split.
  - exact (proj1 (unauthenticated_request Tour.store (Sample.env 20 "o-2")
                    (Some "u-nobody") (Server.PlaceOrder "i-1") eq_refl) eq_refl).
  - exact (proj2 (unauthenticated_request Tour.store (Sample.env 20 "o-2")
                    (Some "u-nobody") (Server.PlaceOrder "i-1") eq_refl)
                 eq_refl eq_refl).
Defined.

(** X14. The eleven routes that list, search or show never change the store,
    whoever calls them and whatever they answer. *)
Theorem read_only_requests (st : Store) (env : Env) (session : option string)
  (r : Server.request) :
  Ledger.read_only r = true -> fst (Server.handle st env session r) = st.
Proof.
  intros Hr. destruct r; try discriminate Hr; handler_cases; reflexivity.
Qed.

Lemma read_only_requests_witness :
  fst (Server.handle Tour.store (Sample.env 20 "") (Some "u-bo")
                     (Server.GetThread "ana"))
  = Tour.store.
Proof.
  exact (read_only_requests Tour.store (Sample.env 20 "") (Some "u-bo")
           (Server.GetThread "ana") eq_refl).
Defined.

Lemma length_update_first {A : Type} (test : A -> bool) (upd : A -> A) (l : list A) :
  length (Models.update_first test upd l) = length l.
Proof.
  induction l as [|a l IH]; simpl; [reflexivity|].
  destruct (test a); simpl; congruence.
Qed.

Lemma handle_messages (st : Store) (env : Env) (session : option string)
  (r : Server.request) :
  messages (fst (Server.handle st env session r)) = messages st
  \/ exists m,
       messages (fst (Server.handle st env session r)) = messages st ++ [m]
       /\ Message.content m <> ""
       /\ Ledger.registered st (Message.senderId m)
       /\ Ledger.registered st (Message.recipientId m).
Proof.
  destruct r; handler_cases; cbn; auto.
  right. eexists. split; [reflexivity|]. cbn. split; [|split].
  - match goal with
    | H : negb (JS.truthy_field (Some _)) || negb (JS.truthy_field (Some ?c)) = false
      |- ?c <> "" =>
        apply orb_false_iff in H; destruct H as [_ H]; now apply truthy_nonempty
    end.
  - eapply attach_user_registered. eassumption.
  - match goal with
    | H : Models.getUserByUsername _ _ = Some ?u |- _ =>
        exists u; split; [exact (proj1 (find_some _ _ H)) | reflexivity]
    end.
Qed.

(** X15. Subscriptions, store items, orders, messages and tips are
    append-only: a request leaves each of these ledgers as it was or adds one
    record at its end; the users and the referral records keep their number
    or gain one; and posts are the only records ever removed, by an admin's
    delete alone. *)
Theorem ledgers_are_append_only (st : Store) (env : Env) (session : option string)
  (r : Server.request) :
  (exists a1 a2 a3 a4 a5,
      subscriptions (fst (Server.handle st env session r)) = subscriptions st ++ a1
      /\ storeItems (fst (Server.handle st env session r)) = storeItems st ++ a2
      /\ orders (fst (Server.handle st env session r)) = orders st ++ a3
      /\ messages (fst (Server.handle st env session r)) = messages st ++ a4
      /\ tips (fst (Server.handle st env session r)) = tips st ++ a5
      /\ length a1 + length a2 + length a3 + length a4 + length a5 <= 1)
  /\ length (users st) <= length (users (fst (Server.handle st env session r)))
  /\ length (referrals st) <= length (referrals (fst (Server.handle st env session r)))
  /\ (length (posts (fst (Server.handle st env session r))) < length (posts st) ->
      exists postId,
        r = Server.AdminDeletePost postId /\ Server.requireAdmin st session = true).
Proof.
  split; [|split; [|split]].
  - destruct r; handler_cases; cbn;
      first [ exists [], [], [], [], []; rewrite !app_nil_r; repeat split; cbn; lia
            | eexists [_], [], [], [], []; rewrite !app_nil_r; repeat split; cbn; lia
            | eexists [], [_], [], [], []; rewrite !app_nil_r; repeat split; cbn; lia
            | eexists [], [], [_], [], []; rewrite !app_nil_r; repeat split; cbn; lia
            | eexists [], [], [], [_], []; rewrite !app_nil_r; repeat split; cbn; lia
            | eexists [], [], [], [], [_]; rewrite !app_nil_r; repeat split; cbn; lia ].
  - pose proof (handle_identities st env session r) as [added E].
    apply (f_equal (@length _)) in E. rewrite length_app, !length_map in E. lia.
  - destruct (handle_referrals st env session r)
      as [E | [(new & E & _) | [(code & _ & E) | (code & a & _ & E)]]]; rewrite E.
    + lia.
    + rewrite length_app. cbn. lia.
    + rewrite length_update_first. lia.
    + rewrite length_update_first. lia.
  - intros Hlt. destruct (handle_posts st env session r)
      as [E | [(p & E & _) | (postId & Hr & Hadmin & _)]].
    + rewrite E in Hlt. lia.
    + rewrite E, length_app in Hlt. cbn in Hlt. lia.
    + eauto.
Qed.

Lemma remove_first_split {A : Type} (test : A -> bool) (l : list A) (p : A) :
  find test l = Some p ->
  exists before after,
    l = before ++ p :: after
    /\ (forall q, In q before -> test q = false)
    /\ Models.remove_first test l = before ++ after.
Proof.
  induction l as [|a l IH]; simpl; [discriminate|].
  destruct (test a) eqn:Ha.
  - intros H. inversion H; subst. exists [], l. repeat split. intros q [].
  - intros H. destruct (IH H) as (before & after & -> & Hb & Hr).
    exists (a :: before), after. repeat split.
    + intros q [<- | Hq]; auto.
    + simpl. now rewrite Hr.
Qed.

(** X16. Deleting a post is for admins: any other caller gets 403 and nothing
    changes.  For an admin, an identifier no post carries gives NotFound and
    changes nothing; otherwise exactly one post goes, the earliest carrying
    the identifier, the posts before and after it keep their order, and every
    other ledger is untouched. *)
Theorem delete_post_outcomes (st : Store) (env : Env) (session : option string)
  (postId : string) :
  (Server.requireAdmin st session = false ->
   Spec.fails_with st Server.Forbidden
     (Server.handle st env session (Server.AdminDeletePost postId)))
  /\ (Server.requireAdmin st session = true ->
      find (fun p => String.eqb (Post.id p) postId) (posts st) = None ->
      Spec.fails_with st Server.NotFound
        (Server.handle st env session (Server.AdminDeletePost postId)))
  /\ (forall p,
        Server.requireAdmin st session = true ->
        find (fun p => String.eqb (Post.id p) postId) (posts st) = Some p ->
        exists before after,
          posts st = before ++ p :: after
          /\ Post.id p = postId
          /\ (forall q, In q before -> Post.id q <> postId)
          /\ Server.handle st env session (Server.AdminDeletePost postId)
             = (mkStore (users st) (before ++ after) (subscriptions st)
                        (storeItems st) (orders st) (referrals st) (messages st)
                        (tips st),
                Server.json (Server.PDone "Post deleted"))).
Proof.
  cbn [Server.handle]. unfold Server.delete_admin_posts, Models.deletePostById.
  split; [|split].
  - intros ->. now split.
  - intros -> ->. now split.
  - intros p -> Hfind. rewrite Hfind. cbn [negb].
    destruct (remove_first_split _ _ _ Hfind) as (before & after & Hl & Hb & Hr).
    exists before, after. split; [exact Hl|]. split.
    + apply String.eqb_eq. exact (proj2 (find_some _ _ Hfind)).
    + split; [|now rewrite Hr].
      intros q Hq E. specialize (Hb q Hq). cbn beta in Hb.
      rewrite E, String.eqb_refl in Hb. discriminate.
Qed.

Lemma delete_post_outcomes_witness :
  Spec.fails_with Sample.feed Server.Forbidden
    (Server.handle Sample.feed (Sample.env 20 "") (Some "u-ana")
                   (Server.AdminDeletePost "p-1")).
Proof.
  exact (proj1 (delete_post_outcomes Sample.feed (Sample.env 20 "") (Some "u-ana") "p-1")
               eq_refl).
Defined.

(* ================================================================== *)
(** * Threads and conversations *)
(* ================================================================== *)

Lemma between_test (a b : string) (m : Message.t) :
  (String.eqb (Message.senderId m) a && String.eqb (Message.recipientId m) b)
  || (String.eqb (Message.senderId m) b && String.eqb (Message.recipientId m) a) = true
  <-> Ledger.between a b m.
Proof.
  unfold Ledger.between. rewrite orb_true_iff, !andb_true_iff, !String.eqb_eq.
  reflexivity.
Qed.

(** X17. A thread is the same from both ends: the messages between [a] and
    [b] are the messages between [b] and [a], namely those whose sender and
    recipient are the two, in the order they were sent.  A message that is
    sent closes the thread of its two ends and changes no other thread. *)
Theorem thread_is_symmetric (st : Store) (a b : string) :
  Models.listMessagesBetween st a b = Models.listMessagesBetween st b a
  /\ (forall m, In m (Models.listMessagesBetween st a b)
                <-> In m (messages st) /\ Ledger.between a b m)
  /\ (forall env sender recipient content,
        Ledger.between a b (Message.mk (uuid env) sender recipient content (now env)) ->
        Models.listMessagesBetween
          (snd (Models.sendMessage env sender recipient content st)) a b
        = Models.listMessagesBetween st a b
          ++ [Message.mk (uuid env) sender recipient content (now env)])
  /\ (forall env sender recipient content,
        ~ Ledger.between a b (Message.mk (uuid env) sender recipient content (now env)) ->
        Models.listMessagesBetween
          (snd (Models.sendMessage env sender recipient content st)) a b
        = Models.listMessagesBetween st a b).
Proof.
  split; [|split; [|split]].
  - unfold Models.listMessagesBetween. apply filter_ext. intros m. apply orb_comm.
  - intros m. unfold Models.listMessagesBetween. rewrite filter_In, between_test.
    reflexivity.
  - intros env sender recipient content Hb.
    unfold Models.listMessagesBetween, Models.sendMessage. cbn [snd messages].
    rewrite filter_app. cbn [filter]. apply between_test in Hb. now rewrite Hb.
  - intros env sender recipient content Hb.
    unfold Models.listMessagesBetween, Models.sendMessage. cbn [snd messages].
    rewrite filter_app. cbn [filter].
    destruct (_ || _) eqn:E; [|now rewrite app_nil_r].
    apply between_test in E. contradiction.
Qed.

Lemma set_add_In_iff (x y : string) (s : list string) :
  In y (JS.set_add x s) <-> y = x \/ In y s.
Proof.
  unfold JS.set_add. destruct (existsb (String.eqb x) s) eqn:E.
  - split; [auto|]. intros [-> | H]; [|exact H].
    apply existsb_exists in E. destruct E as (z & Hz & Hxz).
    apply String.eqb_eq in Hxz. now subst.
  - rewrite in_app_iff. simpl. intuition.
Qed.

Lemma addPartners_In (u x : string) (partners : list string) (m : Message.t) :
  In x (Models.addPartners u partners m)
  <-> In x partners \/ Ledger.between u x m.
Proof.
  unfold Models.addPartners, Ledger.between.
  destruct (String.eqb_spec (Message.senderId m) u) as [Hs | Hs];
    destruct (String.eqb_spec (Message.recipientId m) u) as [Hr | Hr];
    rewrite ?set_add_In_iff; intuition congruence.
Qed.

(** X18. The partners listConversations resolves for a user are, without
    repetition, exactly the identifiers at the other end of a message the user
    sent or received. *)
Theorem partners_are_the_counterparts (st : Store) (u : string) :
  NoDup (Models.partnersOf st u)
  /\ (forall x, In x (Models.partnersOf st u)
                <-> exists m, In m (messages st) /\ Ledger.between u x m)
  /\ Models.listConversations st u = map (Models.getUserById st) (Models.partnersOf st u).
Proof.
  split; [apply partnersOf_NoDup|]. split; [|reflexivity].
  intros x. unfold Models.partnersOf.
  assert (H : forall l acc,
             In x (fold_left (Models.addPartners u) l acc)
             <-> In x acc \/ exists m, In m l /\ Ledger.between u x m).
  { induction l as [|m l IH]; intros acc; simpl.
    - split; [auto | intros [H | (m & [] & _)]; exact H].
    - rewrite IH, addPartners_In. split.
      + intros [[H | H] | (m' & Hin & H)]; eauto.
      + intros [H | (m' & [<- | Hin] & H)]; eauto. }
  rewrite H. simpl. split; [intros [[] | H0]; exact H0 | auto].
Qed.

Lemma registered_found (st : Store) (id : string) :
  Ledger.registered st id -> Models.getUserById st id <> None.
Proof.
  intros (u & Hin & Hid) Hnone. unfold Models.getUserById in Hnone.
  pose proof (find_none _ _ Hnone u Hin) as H. cbn beta in H.
  rewrite Hid, String.eqb_refl in H. discriminate.
Qed.

Lemma reachable_messages_sound (st : Store) :
  Server.reachable st ->
  forall m, In m (messages st) ->
            Message.content m <> ""
            /\ Ledger.registered st (Message.senderId m)
            /\ Ledger.registered st (Message.recipientId m).
Proof.
  induction 1 as [|st env session r _ IH|st user _ IH] using reachable_induction;
    intros m Hm; [destruct Hm| |].
  2:{ destruct (IH m Hm) as (? & ? & ?). auto using registered_grows. }
  destruct (handle_messages st env session r) as [E | (new & E & Hc & Hs & Hr)];
    rewrite E in Hm.
  - destruct (IH m Hm) as (? & ? & ?). auto using registered_kept.
  - apply in_app_or in Hm. destruct Hm as [Hm | [<- | []]].
    + destruct (IH m Hm) as (? & ? & ?). auto using registered_kept.
    + auto using registered_kept.
Qed.

(** X19. In every store the server reaches, each message has a non-empty
    content and a registered sender and recipient; so listConversations never
    returns null in place of a partner: every partner resolves to a user. *)
Theorem conversations_resolve (st : Store) :
  Server.reachable st ->
  (forall m, In m (messages st) ->
             Message.content m <> ""
             /\ Ledger.registered st (Message.senderId m)
             /\ Ledger.registered st (Message.recipientId m))
  /\ (forall u, ~ In None (Models.listConversations st u)).
Proof.
  intros Hst. split; [now apply reachable_messages_sound|].
  intros u Hnone. unfold Models.listConversations in Hnone.
  apply in_map_iff in Hnone. destruct Hnone as (x & Hx & Hin).
  assert (Hreg : Ledger.registered st x); [|now apply (registered_found st x Hreg)].
  assert (H : forall l acc,
             (forall m, In m l -> Ledger.registered st (Message.senderId m)
                                  /\ Ledger.registered st (Message.recipientId m)) ->
             In x (fold_left (Models.addPartners u) l acc) ->
             In x acc \/ Ledger.registered st x).
  { induction l as [|m l IH]; intros acc Hl; simpl; [auto|].
    intros H. apply IH in H; [|intros; apply Hl; now right].
    destruct H as [H | H]; [|now right].
    apply addPartners_In in H. destruct H as [H | [[_ <-] | [<- _]]]; [now left | |];
      right; apply (Hl m (or_introl eq_refl)). }
  unfold Models.partnersOf in Hin. apply H in Hin.
  - destruct Hin as [[] | Hin]. exact Hin.
  - intros m Hm. destruct (reachable_messages_sound st Hst m Hm) as (_ & ? & ?). auto.
Qed.

Lemma conversations_resolve_witness :
  Models.listConversations Tour.store "u-ana" = [Some Sample.bo]
  /\ ~ In None (Models.listConversations Tour.store "u-ana").
Proof.
  split; [reflexivity|].
  exact (proj2 (conversations_resolve Tour.store tour_reachable) "u-ana").
Defined.

(* ================================================================== *)
(** * Searching users *)
(* ================================================================== *)




(* ================================================================== *)
(** * Logging in *)
(* ================================================================== *)



(* ================================================================== *)
(** * Store items *)
(* ================================================================== *)

Lemma handle_storeItems_owner (st : Store) (env : Env) (session : option string)
  (r : Server.request) :
  storeItems (fst (Server.handle st env session r)) = storeItems st
  \/ exists item,
       storeItems (fst (Server.handle st env session r)) = storeItems st ++ [item]
       /\ StoreItem.name item <> ""
       /\ Ledger.registered st (StoreItem.creatorId item).
Proof.
  destruct r; handler_cases; cbn; auto.
  right. eexists. split; [reflexivity|]. cbn. split.
  - match goal with
    | H : negb (JS.truthy_field (Some ?n)) || _ = false |- ?n <> "" =>
        apply orb_false_iff in H; destruct H as [H _]; now apply truthy_nonempty
    end.
  - eapply attach_user_registered. eassumption.
Qed.

(** X22. In every store the server reaches, each store item has a non-empty
    name and belongs to a registered user. *)
Theorem reachable_store_items_owned (st : Store) :
  Server.reachable st ->
  forall item, In item (storeItems st) ->
               StoreItem.name item <> ""
               /\ Ledger.registered st (StoreItem.creatorId item).
Proof.
  induction 1 as [|st env session r _ IH|st user _ IH] using reachable_induction;
    intros item Hi; [destruct Hi| |].
  2:{ destruct (IH item Hi). auto using registered_grows. }
  destruct (handle_storeItems_owner st env session r) as [E | (new & E & Hn & Hr)];
    rewrite E in Hi.
  - destruct (IH item Hi). auto using registered_kept.
  - apply in_app_or in Hi. destruct Hi as [Hi | [<- | []]].
    + destruct (IH item Hi). auto using registered_kept.
    + auto using registered_kept.
Qed.

Lemma reachable_store_items_owned_witness :
  StoreItem.name Sample.sticker <> ""
  /\ Ledger.registered Tour.store (StoreItem.creatorId Sample.sticker).
Proof.
  exact (reachable_store_items_owned Tour.store tour_reachable
           Sample.sticker (or_introl eq_refl)).
Defined.

(* ================================================================== *)
(** * Consequences a user meets *)
(* ================================================================== *)

(** X23. A creator asking for their own posts is shown the public ones only:
    nobody can subscribe to themselves, so in every store the server reaches
    the listing hides a creator's subscriber-only posts from that creator. *)
Theorem creator_sees_own_public_posts_only (st : Store) (session : option string)
  (creatorUsername : string) (creator : User.t) :
  Server.reachable st ->
  Server.attach_user st session = Some creator ->
  Models.getUserByUsername st creatorUsername = Some creator ->
  User.role creator = "creator" ->
  snd (Server.get_posts st session creatorUsername)
  = Server.json
      (Server.PPosts
         (filter (fun p => String.eqb (Post.creatorId p) (User.id creator)
                           && negb (Post.subscriberOnly p))
                 (posts st))).
Proof.
  intros Hst Hattach Hfound Hrole. unfold Server.get_posts.
  rewrite Hfound, Hrole, Hattach.
  replace (String.eqb "creator" "creator") with true by reflexivity.
  cbn [negb snd]. do 2 f_equal. unfold Models.listPosts. apply filter_ext. intros p.
  unfold Models.visible.
  destruct (String.eqb (Post.creatorId p) (User.id creator)); cbn [negb andb];
    [|reflexivity].
  destruct (Post.subscriberOnly p); cbn [negb]; [|reflexivity].
  destruct (JS.truthy_field (Some (User.id creator))); cbn [negb]; [|reflexivity].
  destruct (existsb _ _) eqn:E; [|reflexivity].
  apply existsb_exists in E. destruct E as (s & Hin & Hs).
  apply activeMatch_iff in Hs. destruct Hs as (Hsub & Hcre & _).
  elim (reachable_no_self_subscription st Hst s Hin). congruence.
Qed.

Lemma creator_sees_own_public_posts_only_witness :
  snd (Server.get_posts Sample.feed (Some "u-ana") "ana")
  = Server.json (Server.PPosts [Sample.P1]).
Proof.
  exact (creator_sees_own_public_posts_only Sample.feed (Some "u-ana") "ana" Sample.ana
           sample_feed_reachable eq_refl eq_refl eq_refl).
Defined.

(** X24. The role is taken from the registration request unchecked: whoever
    registers a free username with the role "admin" passes the admin check
    with the session that registration opens. *)
Theorem registering_as_admin_grants_admin (st : Store) (env : Env)
  (username email password : string) :
  username <> "" -> email <> "" -> password <> "" ->
  Models.getUserByUsername st username = None ->
  uuid env <> "" ->
  Models.getUserById st (uuid env) = None ->
  Server.requireAdmin
    (fst (Server.post_register st env (Some username) (Some email)
                               (Some (JS.VString password)) (Some "admin")))
    (Some (uuid env))
  = true.
Proof.
  intros Hu He Hp Hfree Hid Hfresh.
  unfold Server.post_register, Server.register_check, Server.register_resume.
  destruct username; [contradiction|]. destruct email; [contradiction|].
  destruct password; [contradiction|].
  cbn [JS.truthy_field JS.truthy_string JS.truthy negb orb]. rewrite Hfree.
  unfold Models.createUser. cbn [fst].
  unfold Server.requireAdmin, Server.attach_user.
  assert (Ht : JS.truthy_string (uuid env) = true)
    by (destruct (uuid env); [contradiction | reflexivity]).
  rewrite Ht. unfold Models.getUserById in *. cbn [users].
  rewrite find_app_not_found by exact Hfresh. cbn [find User.id].
  rewrite String.eqb_refl. reflexivity.
Qed.

Lemma registering_as_admin_grants_admin_witness :
  Server.status
    (snd (Server.get_admin_users
            (fst (Server.post_register Sample.two_users (Sample.env 9 "u-eve")
                                       (Some "eve") (Some "eve@example.org")
                                       (Some (JS.VString "pw")) (Some "admin")))
            (Some "u-eve")))
  = 200.
Proof.
  assert (H1 : "eve" <> "") by discriminate.
  assert (H2 : "eve@example.org" <> "") by discriminate.
  assert (H3 : "pw" <> "") by discriminate.
  assert (H4 : uuid (Sample.env 9 "u-eve") <> "") by discriminate.
  pose proof (registering_as_admin_grants_admin Sample.two_users
                (Sample.env 9 "u-eve") "eve" "eve@example.org" "pw"
                H1 H2 H3 eq_refl H4 eq_refl) as Hadmin.
  change (uuid (Sample.env 9 "u-eve")) with "u-eve" in Hadmin.
  unfold Server.get_admin_users. rewrite Hadmin. reflexivity.
Defined.

Lemma update_first_after_match {A : Type} (test : A -> bool) (upd : A -> A)
  (l : list A) (i j : nat) (y : A) :
  j < i -> nth_error l j = Some y -> test y = true ->
  nth_error (Models.update_first test upd l) i = nth_error l i.
Proof.
  revert i j. induction l as [|a l IH]; intros i j Hlt Hj Hy.
  - now destruct j.
  - destruct i as [|i]; [lia|]. simpl. destruct (test a) eqn:Ha; [reflexivity|].
    destruct j as [|j]; simpl in Hj.
    + inversion Hj; subst. congruence.
    + simpl. apply (IH i j); [lia | exact Hj | exact Hy].
Qed.

(** X25. A Referral record that stands behind an earlier record with the same
    code is frozen: no request ever changes it, since sign-ups and earnings
    for the code always go to the earlier record. *)
Theorem shadowed_referral_is_frozen (st : Store) (env : Env)
  (session : option string) (r : Server.request) (i j : nat)
  (ref earlier : Referral.t) :
  nth_error (referrals st) i = Some ref ->
  nth_error (referrals st) j = Some earlier ->
  j < i ->
  Referral.code earlier = Referral.code ref ->
  nth_error (referrals (fst (Server.handle st env session r))) i = Some ref.
Proof.
  intros Hi Hj Hlt Hcode.
  destruct (handle_referrals st env session r)
    as [E | [(new & E & _) | [(code & _ & E) | (code & a & _ & E)]]]; rewrite E.
  - exact Hi.
  - rewrite nth_error_app1 by (apply nth_error_Some; congruence). exact Hi.
  - destruct (String.eqb (Referral.code earlier) code) eqn:Ht.
    + rewrite (update_first_after_match _ _ _ i j earlier Hlt Hj Ht). exact Hi.
    + destruct (nth_error_update_first
                  (fun x => String.eqb (Referral.code x) code)
                  (fun x => Referral.with_signups x (Referral.signups x + 1)%float)
                  _ _ _ Hi) as (ref' & Hnth' & [E' | [Hc _]]); [now subst|].
      rewrite <- Hcode in Hc. congruence.
  - destruct (String.eqb (Referral.code earlier) code) eqn:Ht.
    + rewrite (update_first_after_match _ _ _ i j earlier Hlt Hj Ht). exact Hi.
    + destruct (nth_error_update_first
                  (fun x => String.eqb (Referral.code x) code)
                  (fun x => Referral.with_earnings x
                              (Referral.earnings x + a * Referral.commission x)%float)
                  _ _ _ Hi) as (ref' & Hnth' & [E' | [Hc _]]); [now subst|].
      rewrite <- Hcode in Hc. congruence.
Qed.

Lemma shadowed_referral_is_frozen_witness :
  nth_error
    (referrals
       (fst (Server.handle (fst (Server.run empty_store Sample.same_code_twice))
                           (Sample.env 20 "") None
                           (Server.ReferralEarn "REF1" (JS.VNumber 100)))))
    1
  = Some (Referral.mk "r-2" "u-ana" "u-ana" "REF1" 0.2 0 0 3).
Proof.
  assert (Hlt : 0 < 1) by lia.
  exact (shadowed_referral_is_frozen
           (fst (Server.run empty_store Sample.same_code_twice))
           (Sample.env 20 "") None (Server.ReferralEarn "REF1" (JS.VNumber 100))
           1 0 (Referral.mk "r-2" "u-ana" "u-ana" "REF1" 0.2 0 0 3)
           (Referral.mk "r-1" "u-ana" "u-ana" "REF1" 0.2 0 0 2)
           eq_refl eq_refl Hlt eq_refl).
Defined.
